(** * Resilient fetch subsystem of rmmp: mirror catalog, best-mirror
    selection, fallback fetcher and URL normalizer.

  The Go sources embedded here are [downloader.go] (the module downloader)
  and the GitHub proxy manager (the mirror catalog).  Pure functions are
  Rocq functions; functions that touch the network, the file system or the
  clock are written in a state monad over an explicit [World], with the
  behaviour of the outside (HTTP replies, I/O failures, the JSON codec, the
  sort routine) supplied by an environment record [Env].

  The file has three parts: the program; the vocabulary of the statements
  (traces, the fallback chain, hosts to run the program on); the facts. *)

From Stdlib Require Import ZArith List String Ascii Bool Lia.
From Stdlib Require Import PrimFloat FloatOps SpecFloat FloatAxioms DecimalString.
Import ListNotations.

Local Open Scope list_scope.
Local Open Scope Z_scope.
Local Open Scope string_scope.

(* ================================================================== *)
(** * Go strings *)
(* ================================================================== *)

(** The functions of package [strings] that the program calls, written the
  way the Go library defines them, over byte strings. *)
Module GoStrings.

(** [s[n:]] *)
Definition slice_from (n : nat) (s : string) : string :=
  substring n (String.length s - n) s.

(** [s[:n]] *)
Definition slice_to (n : nat) (s : string) : string :=
  substring 0 n s.

(** [len(s) >= len(prefix) && s[:len(prefix)] == prefix] *)
Definition HasPrefix (s prefix : string) : bool :=
  (String.length prefix <=? String.length s)%nat
  && String.eqb (slice_to (String.length prefix) s) prefix.

(** [len(s) >= len(suffix) && s[len(s)-len(suffix):] == suffix] *)
Definition HasSuffix (s suffix : string) : bool :=
  (String.length suffix <=? String.length s)%nat
  && String.eqb (slice_from (String.length s - String.length suffix) s) suffix.

Definition TrimPrefix (s prefix : string) : string :=
  if HasPrefix s prefix then slice_from (String.length prefix) s else s.

Definition TrimSuffix (s suffix : string) : string :=
  if HasSuffix s suffix then slice_to (String.length s - String.length suffix) s else s.

(** [strings.ReplaceAll(s, old, new)] for one-byte [old] and [new]. *)
Fixpoint ReplaceAllByte (s : string) (old new : ascii) : string :=
  match s with
  | EmptyString => EmptyString
  | String c rest =>
      String (if Ascii.eqb c old then new else c) (ReplaceAllByte rest old new)
  end.

(** [strings.Split(s, sep)] for a one-byte separator: the pieces between
    the separators, [n + 1] pieces for [n] separators. *)
Fixpoint SplitByte (s : string) (sep : ascii) : list string :=
  match s with
  | EmptyString => [EmptyString]
  | String c rest =>
      if Ascii.eqb c sep then EmptyString :: SplitByte rest sep
      else match SplitByte rest sep with
           | [] => [String c EmptyString]
           | piece :: pieces => String c piece :: pieces
           end
  end.

End GoStrings.
Import GoStrings.

(* ================================================================== *)
(** * URL normalizer: [extractGitHubURL] *)
(* ================================================================== *)

(** The [prefixes] slice literal of [extractGitHubURL]. *)
Definition prefixes : list string :=
  [ "https://ghproxy.cc/";
    "https://ghproxy.cn/";
    "https://gh.b52m.cn/";
    "https://github.moeyy.xyz/";
    "https://mirror.ghproxy.com/" ].

(** The [for _, prefix := range prefixes] loop with its early return. *)
Fixpoint stripFirstPrefix (ps : list string) (proxyURL : string) : string :=
  match ps with
  | [] => proxyURL
  | prefix :: rest =>
      if HasPrefix proxyURL prefix then TrimPrefix proxyURL prefix
      else stripFirstPrefix rest proxyURL
  end.

Definition extractGitHubURL (proxyURL : string) : string :=
  stripFirstPrefix prefixes proxyURL.

(* ================================================================== *)
(** * Go values: durations, instants, float64 *)
(* ================================================================== *)

(** [time.Duration] is an int64 count of nanoseconds. *)
Definition Duration := Z.
Definition Second : Duration := 1000000000.
Definition Hour : Duration := 3600 * Second.
Definition minDuration : Duration := - 2 ^ 63.
Definition maxDuration : Duration := 2 ^ 63 - 1.

(** An instant of the wall clock, in nanoseconds.  [time.Time] spans far
    more than an int64 of nanoseconds, so instants are unbounded. *)
Definition Time := Z.

(** [t.Sub(u)]: the difference, clamped to what a [Duration] can hold. *)
Definition Time_Sub (t u : Time) : Duration :=
  Z.max minDuration (Z.min maxDuration (t - u)).

(** [time.Since(t)] read at the instant [now]. *)
Definition time_Since (now t : Time) : Duration := Time_Sub now t.

(** The conversion [float64(n)] of a Go [int]: the nearest binary64 value,
    ties to even. *)
Definition float64_of_int (n : Z) : float :=
  SF2Prim (binary_normalize prec emax n 0 false).

(* ================================================================== *)
(** * Data model *)
(* ================================================================== *)

(** [GitHubProxyData]: one mirror record. *)
Record GitHubProxyData := {
  URL : string;
  Server : string;
  IP : string;
  Location : string;
  Latency : Z;
  Speed : float
}.

(** [GitHubProxyResponse]: the directory service's reply. *)
Record GitHubProxyResponse := {
  Code : Z;
  Message : string;
  Data : list GitHubProxyData;
  Total : Z;
  UpdateTime : string
}.

(** [ProxyCache]: the persisted snapshot (fields [Data], [CacheTime],
    [UpdateTime], [Total] of the Go struct). *)
Record ProxyCache := {
  CacheData : list GitHubProxyData;
  CacheTime : Time;
  CacheUpdateTime : string;
  CacheTotal : Z
}.

(** [UpdateInfo]: the release manifest [update.json]. *)
Record UpdateInfo := {
  Changelog : string;
  Version : string;
  VersionCode : Z;
  ZipURL : string
}.

(** [GitHubProxyManager] and [ModuleDownloader]. *)
Record GitHubProxyManager := { cacheFile : string }.

Record ModuleDownloader := {
  gpm : GitHubProxyManager;
  cacheDir : string;
  timeout : Duration;
  maxRetry : Z
}.

Definition githubProxyAPI : string := "https://api.akams.cn/github".
Definition cacheValidDuration : Duration := 10 * Hour.

(** The errors the program builds with [fmt.Errorf], one constructor per
    call site, and [LibError] for an error value handed back by a library
    ([os], [io], [net/http], [encoding/json]). *)
Inductive error : Type :=
| LibError
| ErrHTTPStatus (code : Z)               (* "HTTP %d: %s" *)
| ErrGetProxyList (cause : error)        (* "获取代理列表失败: %v" *)
| ErrAllDownloadsFailed                  (* "所有下载尝试均失败" *)
| ErrParseUpdateJSON (cause : error)     (* "解析update.json失败: %v" *)
| ErrNoZipUrl                            (* "update.json中没有找到zipUrl字段" *)
| ErrCreateDownloadDir (cause : error)   (* "创建下载目录失败: %v" *)
| ErrAllProxyDownloadsFailed             (* "所有代理下载尝试均失败" *)
| ErrReadCache (cause : error)           (* "读取缓存失败: %v" *)
| ErrAPIRequest (cause : error)          (* "请求API失败: %v" *)
| ErrAPIStatus (code : Z)                (* "API返回错误状态码: %d" *)
| ErrAPIReadBody (cause : error)         (* "读取响应失败: %v" *)
| ErrAPIParse (cause : error)            (* "解析JSON失败: %v" *)
| ErrAPIMessage (msg : string)           (* "API返回错误: %s" *)
| ErrCreateCacheDir (cause : error)      (* "创建缓存目录失败: %v" *)
| ErrMarshalCache (cause : error)        (* "序列化缓存数据失败: %v" *)
| ErrWriteCache (cause : error)          (* "写入缓存文件失败: %v" *)
| ErrNoProxies                           (* "没有可用的代理" *)
| ErrRemoveCache (cause : error).        (* "删除缓存文件失败: %v" *)

(** A Go result pair [(value, error)]. *)
Inductive result (A : Type) : Type :=
| Ok (a : A)
| Err (e : error).
Arguments Ok {A} a.
Arguments Err {A} e.

(* ================================================================== *)
(** * The outside world *)
(* ================================================================== *)

(** Which function handed a request to the HTTP client. *)
Inductive Caller := ViaDownloadWithTimeout | ViaDownloadFile | ViaFetchFromAPI.

(** What [net/http] gives back for a GET: an error instead of a response
    (the request cannot be built, no connection, DNS failure, deadline
    passed), or a response with its status code and its body; the body is
    [None] when reading it to the end fails. *)
Inductive HttpReply : Type :=
| NoResponse
| Response (StatusCode : Z) (Body : option string).

(** The two lines [fetchFromAPI] prints about saving the snapshot.  The
    other progress lines of the program are not part of the model. *)
Inductive Notice : Type :=
| MsgSaveCacheFailed (e : error)         (* "⚠️  保存缓存失败: %v" *)
| MsgCacheSaved.                         (* "💾 已保存到缓存文件" *)

(** One call that leaves the process, in the order the calls are made.  An
    HTTP request is logged with the reply it received. *)
Inductive Event : Type :=
| EvHTTP (via : Caller) (url : string) (deadline : option Duration) (reply : HttpReply)
| EvStat (path : string)
| EvReadFile (path : string)
| EvMkdirAll (path : string)
| EvWriteFile (path : string) (data : string)
| EvRemove (path : string)
| EvCreate (path : string)
| EvPrint (m : Notice)
| EvStdin
| EvInstall (path : string).

Inductive IoOp := OpStat | OpReadFile | OpMkdirAll | OpWriteFile | OpRemove | OpCreate | OpCopy.

(** The environment: everything the program does not decide.  Replies and
    faults may depend on all the calls made so far. *)
Record Env := {
  (* net/http: the reply to a GET of a URL under a deadline *)
  http_reply : list Event -> string -> option Duration -> HttpReply;
  (* os, io: an operation fails when [os_fault] says so; a failed write
     turns the old content of the file into [os_residue] of it *)
  os_fault : list Event -> IoOp -> bool;
  os_residue : list Event -> option string -> option string;
  os_UserHomeDir : option string;
  runtime_GOOS : string;
  filepath_Join : list string -> string;
  filepath_Dir : string -> string;
  (* encoding/json, at the three struct types decoded and the one encoded;
     a key missing from the document leaves its field at the zero value *)
  json_UnmarshalUpdateInfo : string -> option UpdateInfo;
  json_UnmarshalProxyResponse : string -> option GitHubProxyResponse;
  json_UnmarshalProxyCache : string -> option ProxyCache;
  json_MarshalProxyCache : ProxyCache -> option string;
  (* sort.Slice at []GitHubProxyData *)
  sort_Slice : list GitHubProxyData ->
               (GitHubProxyData -> GitHubProxyData -> bool) -> list GitHubProxyData;
  (* the answer typed at the installation prompt *)
  stdin_yes : list Event -> bool
}.

(** The state threaded through the program: the files, the wall clock and
    the calls made so far, oldest first. *)
Record World := {
  files : string -> option string;
  now : Time;
  trace : list Event
}.

Definition log (e : Event) (w : World) : World :=
  {| files := files w; now := now w; trace := (trace w ++ [e])%list |}.

Definition set_file (path : string) (c : option string) (w : World) : World :=
  {| files := fun p => if String.eqb p path then c else files w p;
     now := now w; trace := trace w |}.

(** The state monad of the program. *)
Definition M (A : Type) : Type := World -> A * World.

Definition ret {A} (a : A) : M A := fun w => (a, w).

Definition bind {A B} (m : M A) (k : A -> M B) : M B :=
  fun w => let (a, w') := m w in k a w'.

Declare Scope go_scope.
Delimit Scope go_scope with go.
Notation "x <- m ;; k" := (bind m (fun x => k))
  (at level 61, m at next level, right associativity) : go_scope.
Notation "m ;;; k" := (bind m (fun _ => k))
  (at level 61, right associativity) : go_scope.
Local Open Scope go_scope.

(* ================================================================== *)
(** * Library calls *)
(* ================================================================== *)

(** What [os.Stat] reports: success, an error that [os.IsNotExist]
    recognises, or any other error. *)
Inductive StatResult := StatOk | StatNotExist | StatOther.

Definition os_IsNotExist (r : StatResult) : bool :=
  match r with StatNotExist => true | _ => false end.

Section LibraryCalls.

Variable E : Env.

Definition os_Stat (path : string) : M StatResult := fun w =>
  (if os_fault E (trace w) OpStat then StatOther
   else match files w path with Some _ => StatOk | None => StatNotExist end,
   log (EvStat path) w).

Definition os_ReadFile (path : string) : M (result string) := fun w =>
  (if os_fault E (trace w) OpReadFile then Err LibError
   else match files w path with Some data => Ok data | None => Err LibError end,
   log (EvReadFile path) w).

Definition os_MkdirAll (path : string) : M (result unit) := fun w =>
  (if os_fault E (trace w) OpMkdirAll then Err LibError else Ok tt,
   log (EvMkdirAll path) w).

Definition os_WriteFile (path data : string) : M (result unit) := fun w =>
  if os_fault E (trace w) OpWriteFile
  then (Err LibError,
        log (EvWriteFile path data)
            (set_file path (os_residue E (trace w) (files w path)) w))
  else (Ok tt, log (EvWriteFile path data) (set_file path (Some data) w)).

Definition os_Remove (path : string) : M (result unit) := fun w =>
  if os_fault E (trace w) OpRemove then (Err LibError, log (EvRemove path) w)
  else match files w path with
       | None => (Err LibError, log (EvRemove path) w)
       | Some _ => (Ok tt, log (EvRemove path) (set_file path None w))
       end.

(** [os.Create]: the file exists and is empty afterwards. *)
Definition os_Create (path : string) : M (result unit) := fun w =>
  if os_fault E (trace w) OpCreate then (Err LibError, log (EvCreate path) w)
  else (Ok tt, log (EvCreate path) (set_file path (Some "") w)).

(** [io.Copy(file, resp.Body)] into the file created at [path]. *)
Definition io_Copy (path : string) (body : option string) : M (result unit) := fun w =>
  match body with
  | Some data =>
      if os_fault E (trace w) OpCopy
      then (Err LibError, set_file path (os_residue E (trace w) (files w path)) w)
      else (Ok tt, set_file path (Some data) w)
  | None => (Err LibError, set_file path (os_residue E (trace w) (files w path)) w)
  end.

Definition time_Now : M Time := fun w => (now w, w).

(** A GET handed to [net/http] on behalf of [via]. *)
Definition http_Do (via : Caller) (url : string) (deadline : option Duration)
  : M HttpReply := fun w =>
  let reply := http_reply E (trace w) url deadline in
  (reply, log (EvHTTP via url deadline reply) w).

Definition fmt_Print (m : Notice) : M unit := fun w => (tt, log (EvPrint m) w).

End LibraryCalls.

(** [fmt.Sprintf("%d", n)] *)
Definition format_d (n : Z) : string := NilZero.string_of_int (Z.to_int n).

(* ================================================================== *)
(** * The mirror catalog: [GitHubProxyManager] *)
(* ================================================================== *)

(** The composite score computed in the loop of [GetBestProxy], each
    operation rounded on its own.  The constants 0.6 and 0.4 stand, as in
    Go, for the binary64 values nearest to them. *)
#[local] Set Warnings "-inexact-float".
Definition score (proxy : GitHubProxyData) : float :=
  (Speed proxy * 0.6 + (1000 - float64_of_int (Latency proxy)) / 1000 * 0.4)%float.

(** The loop [for i := range proxies] of [GetBestProxy].  [bestProxy] is
    the pointer [&proxies[i]], kept as the index with the element it points
    to; [None] is the nil pointer. *)
Fixpoint bestLoop (i : nat) (proxies : list GitHubProxyData)
    (bestProxy : option (nat * GitHubProxyData)) (bestScore : float)
  : option (nat * GitHubProxyData) :=
  match proxies with
  | [] => bestProxy
  | proxy :: rest =>
      let score := score proxy in
      if ((bestScore <? 0) || (bestScore <? score))%float
      then bestLoop (S i) rest (Some (i, proxy)) score
      else bestLoop (S i) rest bestProxy bestScore
  end.

Section Catalog.

Variable E : Env.

Definition getCacheFilePath : string :=
  if String.eqb (runtime_GOOS E) "android"
  then "/data/adb/modules/rmmp/github_proxys.json"
  else match os_UserHomeDir E with
       | None => "./github_proxys.json"
       | Some homeDir =>
           filepath_Join E [homeDir; "data"; "adb"; ".rmm"; "CACHE"; "github_proxy.json"]
       end.

Definition NewGitHubProxyManager : GitHubProxyManager :=
  {| cacheFile := getCacheFilePath |}.

Definition fileExists (path : string) : M bool :=
  r <- os_Stat E path ;;
  ret (negb (os_IsNotExist r)).

Definition readCacheFile (gpm : GitHubProxyManager) : M (result ProxyCache) :=
  r <- os_ReadFile E (cacheFile gpm) ;;
  match r with
  | Err e => ret (Err e)
  | Ok data =>
      match json_UnmarshalProxyCache E data with
      | None => ret (Err LibError)
      | Some cache => ret (Ok cache)
      end
  end.

Definition isCacheValid (gpm : GitHubProxyManager) : M bool :=
  ex <- fileExists (cacheFile gpm) ;;
  if negb ex then ret false
  else
    r <- readCacheFile gpm ;;
    match r with
    | Err _ => ret false
    | Ok cache =>
        t <- time_Now ;;
        if time_Since t (CacheTime cache) >? cacheValidDuration
        then ret false
        else ret true
    end.

Definition loadFromCache (gpm : GitHubProxyManager)
  : M (result (list GitHubProxyData)) :=
  r <- readCacheFile gpm ;;
  match r with
  | Err e => ret (Err (ErrReadCache e))
  | Ok cache => ret (Ok (CacheData cache))
  end.

Definition saveToCache (gpm : GitHubProxyManager) (apiResponse : GitHubProxyResponse)
  : M (result unit) :=
  let cacheDir := filepath_Dir E (cacheFile gpm) in
  r <- os_MkdirAll E cacheDir ;;
  match r with
  | Err e => ret (Err (ErrCreateCacheDir e))
  | Ok _ =>
      t <- time_Now ;;
      let cache := {| CacheData := Data apiResponse;
                      CacheTime := t;
                      CacheUpdateTime := UpdateTime apiResponse;
                      CacheTotal := Total apiResponse |} in
      match json_MarshalProxyCache E cache with
      | None => ret (Err (ErrMarshalCache LibError))
      | Some data =>
          r <- os_WriteFile E (cacheFile gpm) data ;;
          match r with
          | Err e => ret (Err (ErrWriteCache e))
          | Ok _ => ret (Ok tt)
          end
      end
  end.

Definition fetchFromAPI (gpm : GitHubProxyManager)
  : M (result (list GitHubProxyData)) :=
  resp <- http_Do E ViaFetchFromAPI githubProxyAPI None ;;
  match resp with
  | NoResponse => ret (Err (ErrAPIRequest LibError))
  | Response StatusCode Body =>
      if negb (StatusCode =? 200)%Z then ret (Err (ErrAPIStatus StatusCode))
      else
        match Body with
        | None => ret (Err (ErrAPIReadBody LibError))
        | Some body =>
            match json_UnmarshalProxyResponse E body with
            | None => ret (Err (ErrAPIParse LibError))
            | Some apiResponse =>
                if negb (Code apiResponse =? 200)%Z
                then ret (Err (ErrAPIMessage (Message apiResponse)))
                else
                  r <- saveToCache gpm apiResponse ;;
                  (* the error of saveToCache is printed, not returned *)
                  match r with
                  | Err e => fmt_Print (MsgSaveCacheFailed e)
                  | Ok _ => fmt_Print MsgCacheSaved
                  end ;;;
                  ret (Ok (Data apiResponse))
            end
        end
  end.

Definition GetProxies (gpm : GitHubProxyManager)
  : M (result (list GitHubProxyData)) :=
  valid <- isCacheValid gpm ;;
  if valid then loadFromCache gpm else fetchFromAPI gpm.

Definition GetBestProxy (gpm : GitHubProxyManager)
  : M (result (option (nat * GitHubProxyData))) :=
  r <- GetProxies gpm ;;
  match r with
  | Err e => ret (Err e)
  | Ok proxies =>
      if (List.length proxies =? 0)%nat then ret (Err ErrNoProxies)
      else ret (Ok (bestLoop 0 proxies None (-1)%float))
  end.

Definition ClearCache (gpm : GitHubProxyManager) : M (result unit) :=
  ex <- fileExists (cacheFile gpm) ;;
  if negb ex then ret (Ok tt)
  else
    r <- os_Remove E (cacheFile gpm) ;;
    match r with
    | Err e => ret (Err (ErrRemoveCache e))
    | Ok _ => ret (Ok tt)
    end.

End Catalog.

(** [ListProxies]: the table is printed; the recommendation asks
    [GetBestProxy], which asks [GetProxies] once more. *)
Definition ListProxies (E : Env) (gpm : GitHubProxyManager) : M (result unit) :=
  r <- GetProxies E gpm ;;
  match r with
  | Err e => ret (Err e)
  | Ok proxies =>
      if (List.length proxies =? 0)%nat then ret (Ok tt)
      else GetBestProxy E gpm ;;; ret (Ok tt)
  end.

(** [handleProxyCommand]: results and errors are only printed. *)
Definition handleProxyCommand (E : Env) (args : list string) : M unit :=
  let gpm := NewGitHubProxyManager E in
  match args with
  | [] => ret tt
  | subCommand :: _ =>
      if String.eqb subCommand "list" || String.eqb subCommand "ls"
      then ListProxies E gpm ;;; ret tt
      else if String.eqb subCommand "best"
      then GetBestProxy E gpm ;;; ret tt
      else if String.eqb subCommand "update"
      then ClearCache E gpm ;;; GetProxies E gpm ;;; ret tt
      else if String.eqb subCommand "clear"
      then ClearCache E gpm ;;; ret tt
      else ret tt
  end.

(* ================================================================== *)
(** * The module downloader: [ModuleDownloader] *)
(* ================================================================== *)

(** [normalizeRepoName]: backslashes become slashes, and the name must
    split into exactly two parts. *)
Definition normalizeRepoName (repo : string) : string :=
  let repo := ReplaceAllByte repo (ascii_of_nat 92) "/"%char in
  let parts := SplitByte repo "/"%char in
  match parts with
  | [owner; name] => owner ++ "/" ++ name
  | _ => ""
  end.

Definition buildUpdateURL (repo : string) : string :=
  "https://github.com/" ++ repo ++ "/releases/latest/download/update.json".

(** [fmt.Sprintf("%s/%s", strings.TrimSuffix(proxy.URL, "/"), originalURL)] *)
Definition proxyURL (originalURL : string) (proxy : GitHubProxyData) : string :=
  TrimSuffix (URL proxy) "/" ++ "/" ++ originalURL.

(** The [less] function handed to [sort.Slice]:
    [proxies[i].Speed > proxies[j].Speed]. *)
Definition bySpeedDesc (a b : GitHubProxyData) : bool :=
  (Speed b <? Speed a)%float.

(** The loop shared by [downloadUpdateJSON] and [downloadWithProxies]:
    [for _, proxy := range proxies], leaving with [break] once [tried]
    reaches [maxRetry], returning from inside on the first attempt that
    succeeds, and counting [tried++] after one that fails.  [None] means the
    loop ran to its end. *)
Fixpoint rangeProxies {A : Type} (attempt : GitHubProxyData -> M (result A))
    (maxRetry : Z) (proxies : list GitHubProxyData) (tried : Z) : M (option A) :=
  match proxies with
  | [] => ret None
  | proxy :: rest =>
      if tried >=? maxRetry then ret None
      else
        r <- attempt proxy ;;
        match r with
        | Ok a => ret (Some a)
        | Err _ => rangeProxies attempt maxRetry rest (tried + 1)
        end
  end.

Section Downloader.

Variable E : Env.

Definition getDownloadCacheDir : string :=
  if String.eqb (runtime_GOOS E) "android"
  then "/data/adb/modules/rmmp/downloads"
  else match os_UserHomeDir E with
       | None => "./downloads"
       | Some homeDir =>
           filepath_Join E [homeDir; "data"; "adb"; ".rmm"; "CACHE"; "downloads"]
       end.

Definition NewModuleDownloader : ModuleDownloader :=
  {| gpm := NewGitHubProxyManager E;
     cacheDir := getDownloadCacheDir;
     timeout := 3 * Second;
     maxRetry := 10 |}.

Definition downloadWithTimeout (url : string) (timeout : Duration)
  : M (result string) :=
  resp <- http_Do E ViaDownloadWithTimeout url (Some timeout) ;;
  match resp with
  | NoResponse => ret (Err LibError)
  | Response StatusCode Body =>
      if negb (StatusCode =? 200)%Z then ret (Err (ErrHTTPStatus StatusCode))
      else match Body with
           | None => ret (Err LibError)
           | Some data => ret (Ok data)
           end
  end.

Definition parseUpdateJSON (data : string) : result UpdateInfo :=
  match json_UnmarshalUpdateInfo E data with
  | None => Err (ErrParseUpdateJSON LibError)
  | Some updateInfo =>
      if String.eqb (ZipURL updateInfo) "" then Err ErrNoZipUrl
      else Ok updateInfo
  end.

Definition downloadUpdateJSON (md : ModuleDownloader) (repo : string)
  : M (result UpdateInfo) :=
  let originalURL := buildUpdateURL repo in
  r <- downloadWithTimeout originalURL (timeout md) ;;
  match r with
  | Ok data => ret (parseUpdateJSON data)
  | Err _ =>
      r <- GetProxies E (gpm md) ;;
      match r with
      | Err e => ret (Err (ErrGetProxyList e))
      | Ok proxies =>
          let proxies := sort_Slice E proxies bySpeedDesc in
          r <- rangeProxies
                 (fun proxy => downloadWithTimeout (proxyURL originalURL proxy) (timeout md))
                 (maxRetry md) proxies 0 ;;
          match r with
          | Some data => ret (parseUpdateJSON data)
          | None => ret (Err ErrAllDownloadsFailed)
          end
      end
  end.

Definition downloadFile (url localPath : string) (timeout : Duration)
  : M (result unit) :=
  resp <- http_Do E ViaDownloadFile url (Some timeout) ;;
  match resp with
  | NoResponse => ret (Err LibError)
  | Response StatusCode Body =>
      if negb (StatusCode =? 200)%Z then ret (Err (ErrHTTPStatus StatusCode))
      else
        r <- os_Create E localPath ;;
        match r with
        | Err e => ret (Err e)
        | Ok _ => io_Copy E localPath Body
        end
  end.

Definition downloadWithProxies (md : ModuleDownloader) (originalURL localPath : string)
  : M (result string) :=
  r <- GetProxies E (gpm md) ;;
  match r with
  | Err e => ret (Err (ErrGetProxyList e))
  | Ok proxies =>
      let proxies := sort_Slice E proxies bySpeedDesc in
      r <- rangeProxies
             (fun proxy => downloadFile (proxyURL originalURL proxy) localPath (30 * Second))
             (maxRetry md) proxies 0 ;;
      match r with
      | Some _ => ret (Ok localPath)
      | None => ret (Err ErrAllProxyDownloadsFailed)
      end
  end.

(** The local file name built by [downloadModule]. *)
Definition modulePath (md : ModuleDownloader) (updateInfo : UpdateInfo) : string :=
  let fileName := "module_" ++ ReplaceAllByte (Version updateInfo) "/"%char "_"%char
                  ++ "_" ++ format_d (VersionCode updateInfo) ++ ".zip" in
  filepath_Join E [cacheDir md; fileName].

Definition downloadModule (md : ModuleDownloader) (updateInfo : UpdateInfo)
  : M (result string) :=
  r <- os_MkdirAll E (cacheDir md) ;;
  match r with
  | Err e => ret (Err (ErrCreateDownloadDir e))
  | Ok _ =>
      let localPath := modulePath md updateInfo in
      let originalURL := ZipURL updateInfo in
      r <- downloadFile originalURL localPath (30 * Second) ;;
      match r with
      | Ok _ => ret (Ok localPath)
      | Err _ =>
          let githubURL := extractGitHubURL originalURL in
          if negb (String.eqb githubURL originalURL)
          then
            r <- downloadFile githubURL localPath (30 * Second) ;;
            match r with
            | Ok _ => ret (Ok localPath)
            | Err _ => downloadWithProxies md githubURL localPath
            end
          else downloadWithProxies md githubURL localPath
      end
  end.

(** [confirmInstallation]: one line is read from standard input; the
    environment says whether it counts as a yes. *)
Definition confirmInstallation : M bool := fun w =>
  (stdin_yes E (trace w), log EvStdin w).

(** [installModule] hands the file to the installer of the root runtime. *)
Definition installModule (zipFile : string) : M unit := fun w =>
  (tt, log (EvInstall zipFile) w).

Definition handleGetCommand (repoArg : string) : M unit :=
  let md := NewModuleDownloader in
  let repo := normalizeRepoName repoArg in
  if String.eqb repo "" then ret tt
  else
    r <- downloadUpdateJSON md repo ;;
    match r with
    | Err _ => ret tt
    | Ok updateInfo =>
        r <- downloadModule md updateInfo ;;
        match r with
        | Err _ => ret tt
        | Ok filePath =>
            yes <- confirmInstallation ;;
            if yes then installModule filePath else ret tt
        end
    end.

End Downloader.

(* ================================================================== *)
(** * A concrete environment *)
(* ================================================================== *)

(** A small environment to run the program in: a Linux host with home
    directory [/home/u], a stable insertion sort for [sort.Slice], and a JSON
    codec that knows a handful of named documents. *)
Module Demo.

Fixpoint insertBy {A} (less : A -> A -> bool) (x : A) (l : list A) : list A :=
  match l with
  | [] => [x]
  | y :: l' => if less y x then y :: insertBy less x l' else x :: y :: l'
  end.

Fixpoint sortBy {A} (less : A -> A -> bool) (l : list A) : list A :=
  match l with
  | [] => []
  | x :: l' => insertBy less x (sortBy less l')
  end.

(** The path without its last element, [None] when it has no slash. *)
Fixpoint dropLast (s : string) : option string :=
  match s with
  | EmptyString => None
  | String c rest =>
      match dropLast rest with
      | Some d => Some (String c d)
      | None => if Ascii.eqb c "/"%char then Some EmptyString else None
      end
  end.

Definition dirOf (s : string) : string :=
  match dropLast s with
  | Some EmptyString => "/"
  | Some d => d
  | None => "."
  end.

Definition mirror (url : string) (latency : Z) (speed : float) : GitHubProxyData :=
  {| URL := url; Server := "demo"; IP := "192.0.2.1"; Location := "lab";
     Latency := latency; Speed := speed |}.

Definition manifest (zipUrl : string) : UpdateInfo :=
  {| Changelog := "first release"; Version := "v1.0";
     VersionCode := 100; ZipURL := zipUrl |}.

Definition directory (records : list GitHubProxyData) : GitHubProxyResponse :=
  {| Code := 200; Message := "ok"; Data := records;
     Total := Z.of_nat (List.length records); UpdateTime := "2025-01-01" |}.

Definition snapshot (records : list GitHubProxyData) (at_ : Time) : ProxyCache :=
  {| CacheData := records; CacheTime := at_; CacheUpdateTime := "2025-01-01";
     CacheTotal := Z.of_nat (List.length records) |}.

(** The documents the codec knows: a manifest for the payload URL
    [zipUrl], a manifest without [zipUrl], the directory listing [listed],
    and the snapshot of [cached] records taken at instant 0. *)
Definition env (reply : list Event -> string -> option Duration -> HttpReply)
    (fault : list Event -> IoOp -> bool)
    (zipUrl : string) (listed cached : list GitHubProxyData) : Env :=
  {| http_reply := reply;
     os_fault := fault;
     os_residue := fun _ old => old;
     os_UserHomeDir := Some "/home/u";
     runtime_GOOS := "linux";
     filepath_Join := String.concat "/";
     filepath_Dir := dirOf;
     json_UnmarshalUpdateInfo := fun doc =>
       if String.eqb doc "update.json" then Some (manifest zipUrl)
       else if String.eqb doc "update.json without zipUrl" then Some (manifest "")
       else None;
     json_UnmarshalProxyResponse := fun doc =>
       if String.eqb doc "directory.json" then Some (directory listed) else None;
     json_UnmarshalProxyCache := fun doc =>
       if String.eqb doc "github_proxy.json" then Some (snapshot cached 0) else None;
     json_MarshalProxyCache := fun _ => Some "github_proxy.json (new)";
     sort_Slice := fun l less => sortBy less l;
     stdin_yes := fun _ => true |}.

Definition noFault (h : list Event) (op : IoOp) : bool := false.
Definition offline (h : list Event) (url : string) (d : option Duration)
  : HttpReply := NoResponse.

(** Only the directory service answers, with the directory document. *)
Definition directoryOnly (h : list Event) (url : string) (d : option Duration)
  : HttpReply :=
  if String.eqb url githubProxyAPI then Response 200 (Some "directory.json")
  else NoResponse.

(** Every write to a file fails. *)
Definition readOnlyDisk (h : list Event) (op : IoOp) : bool :=
  match op with OpWriteFile => true | _ => false end.

(** Only the mirror [https://ghproxy.cc/] answers: with the manifest for a
    URL that ends in [update.json], with an archive otherwise. *)
Definition viaGhproxyCc (h : list Event) (url : string) (d : option Duration)
  : HttpReply :=
  if HasPrefix url "https://ghproxy.cc/"
  then Response 200 (Some (if HasSuffix url "update.json" then "update.json"
                           else "PK archive"))
  else NoResponse.

(** GitHub itself answers the manifest request, with a manifest that has
    no [zipUrl]. *)
Definition manifestWithoutZipUrl (h : list Event) (url : string)
    (d : option Duration) : HttpReply :=
  if HasPrefix url "https://github.com/"
  then Response 200 (Some "update.json without zipUrl")
  else NoResponse.

(** Four mirrors; by speed they rank [fast], [medium], [ghproxyCc], [last]. *)
Definition ghproxyCc : GitHubProxyData := mirror "https://ghproxy.cc/" 120 1.5.
Definition fast : GitHubProxyData := mirror "https://gh.b52m.cn" 80 9.
Definition medium : GitHubProxyData := mirror "https://github.moeyy.xyz/" 300 4.
Definition last : GitHubProxyData := mirror "https://mirror.ghproxy.com/" 50 0.5.

Definition zipURL : string :=
  "https://github.com/o/r/releases/download/v1.0/module.zip".

Definition cachePath : string := "/home/u/data/adb/.rmm/CACHE/github_proxy.json".

(** A world with an empty disk, and one whose cache file holds the
    snapshot document. *)
Definition emptyDisk (at_ : Time) : World :=
  {| files := fun _ => None; now := at_; trace := [] |}.

Definition withCache (at_ : Time) : World :=
  {| files := fun p => if String.eqb p cachePath then Some "github_proxy.json" else None;
     now := at_; trace := [] |}.

(** Two mirrors beyond one second of latency, so both scores are negative. *)
Definition slow : GitHubProxyData := mirror "https://ghproxy.cc/" 1500 0.
Definition slower : GitHubProxyData := mirror "https://ghproxy.cn/" 3000 0.

End Demo.

(* ================================================================== *)
(** * Vocabulary of the statements *)
(* ================================================================== *)

(** ** Traces *)

Definition is_http (e : Event) : bool :=
  match e with EvHTTP _ _ _ _ => true | _ => false end.

(** The network calls in a trace, in order. *)
Definition http_events (tr : list Event) : list Event := filter is_http tr.

Definition Caller_eqb (a b : Caller) : bool :=
  match a, b with
  | ViaDownloadWithTimeout, ViaDownloadWithTimeout
  | ViaDownloadFile, ViaDownloadFile
  | ViaFetchFromAPI, ViaFetchFromAPI => true
  | _, _ => false
  end.

(** The URLs requested on behalf of [via], in order. *)
Definition requested (via : Caller) (tr : list Event) : list string :=
  flat_map (fun e => match e with
                     | EvHTTP v url _ _ => if Caller_eqb v via then [url] else []
                     | _ => []
                     end) tr.

(** [w'] comes after [w] with no network call in between. *)
Definition offline_step (w w' : World) : Prop :=
  http_events (trace w') = http_events (trace w).

(** ... and with the disk and the clock as they were. *)
Definition readonly_step (w w' : World) : Prop :=
  files w' = files w /\ now w' = now w /\ offline_step w w'.

(** ** The order of float64 values *)

(** A key for every float but NaN, ordered lexicographically the way the
    floats are ordered: the class (the infinities, the negative and the
    positive finite values, zero), then exponent and mantissa. *)
Definition SFkey (f : spec_float) : option (Z * Z * Z) :=
  match f with
  | S754_nan => None
  | S754_infinity true => Some (-2, 0, 0)
  | S754_infinity false => Some (2, 0, 0)
  | S754_zero _ => Some (0, 0, 0)
  | S754_finite true m e => Some (-1, - e, - Zpos m)
  | S754_finite false m e => Some (1, e, Zpos m)
  end.

(** The lexicographic order of keys. *)
Definition key_lt (k1 k2 : Z * Z * Z) : Prop :=
  fst (fst k1) < fst (fst k2)
  \/ (fst (fst k1) = fst (fst k2)
      /\ (snd (fst k1) < snd (fst k2)
          \/ (snd (fst k1) = snd (fst k2) /\ snd k1 < snd k2))).

Definition key_eq (k1 k2 : Z * Z * Z) : Prop :=
  fst (fst k1) = fst (fst k2) /\ snd (fst k1) = snd (fst k2) /\ snd k1 = snd k2.

Definition fkey (x : float) : option (Z * Z * Z) := SFkey (Prim2SF x).

(** A record whose score is not below zero (nor NaN). *)
Definition nonnegative (proxy : GitHubProxyData) : Prop :=
  (0 <=? score proxy)%float = true.

(** ** The catalog *)

(** The snapshot the cache file holds, if it is there and parses. *)
Definition cachedSnapshot (E : Env) (gpm : GitHubProxyManager) (w : World)
  : option ProxyCache :=
  match files w (cacheFile gpm) with
  | Some data => json_UnmarshalProxyCache E data
  | None => None
  end.

(** The records a reply of the directory service stands for: a fetch error
    for a transport failure, a status other than 200, a body that cannot be
    read or parsed, or an in-payload code other than 200; the [data] array
    otherwise. *)
Definition directoryRecords (E : Env) (reply : HttpReply)
  : result (list GitHubProxyData) :=
  match reply with
  | NoResponse => Err (ErrAPIRequest LibError)
  | Response status None =>
      if (status =? 200)%Z then Err (ErrAPIReadBody LibError) else Err (ErrAPIStatus status)
  | Response status (Some body) =>
      if (status =? 200)%Z then
        match json_UnmarshalProxyResponse E body with
        | None => Err (ErrAPIParse LibError)
        | Some apiResponse =>
            if (Code apiResponse =? 200)%Z then Ok (Data apiResponse)
            else Err (ErrAPIMessage (Message apiResponse))
        end
      else Err (ErrAPIStatus status)
  end.

(** The one request [fetchFromAPI] makes. *)
Definition directoryCall (reply : HttpReply) : Event :=
  EvHTTP ViaFetchFromAPI githubProxyAPI None reply.

(** ** The fallback chain *)

(** [chain fetch cands w done r w']: from world [w] the candidates [cands]
    are fetched one after the other, each in the world its predecessor
    left, up to the first that succeeds.  [done] lists the candidates
    fetched; [r] is the value of the one that succeeded, or [None] when
    every candidate was fetched and failed; [w'] is the world at the end. *)
Inductive chain {A : Type} (fetch : string -> M (result A))
  : list string -> World -> list string -> option A -> World -> Prop :=
| chain_exhausted (w : World) :
    chain fetch [] w [] None w
| chain_success (c : string) (cs : list string) (w w1 : World) (a : A) :
    fetch c w = (Ok a, w1) ->
    chain fetch (c :: cs) w [c] (Some a) w1
| chain_failure (c : string) (cs : list string) (w w1 : World) (e : error)
    (done : list string) (r : option A) (w' : World) :
    fetch c w = (Err e, w1) ->
    chain fetch cs w1 done r w' ->
    chain fetch (c :: cs) w (c :: done) r w'.

(** The mirror URLs the fallback may try for [originalURL]: the first
    [limit] of the records ranked by [sort.Slice], each wrapped around the
    URL. *)
Definition mirrorCandidates (E : Env) (limit : nat) (originalURL : string)
    (proxies : list GitHubProxyData) : list string :=
  map (proxyURL originalURL) (firstn limit (sort_Slice E proxies bySpeedDesc)).

(** The mirror phase of a fallback, run from [w1] with result [run]: the
    catalog is asked; if it fails, so does the fallback; otherwise the
    mirror candidates are chained, at most [limit] of them, and the
    fallback yields the first success, or [allFailed]. *)
Definition mirror_phase {A B : Type} (E : Env) (gpm : GitHubProxyManager)
    (fetch : string -> M (result A)) (via : Caller) (limit : nat)
    (url : string) (finish : A -> result B) (allFailed : error)
    (w1 : World) (run : result B * World) : Prop :=
  match GetProxies E gpm w1 with
  | (Err e, w2) => run = (Err (ErrGetProxyList e), w2)
                   /\ requested via (trace w2) = requested via (trace w1)
  | (Ok proxies, w2) =>
      let cands := mirrorCandidates E limit url proxies in
      exists (done : list string) (r : option A) (w3 : World),
        chain fetch cands w2 done r w3
        /\ done = firstn (List.length done) cands
        /\ (List.length done <= limit)%nat
        /\ (r = None -> done = cands)
        /\ requested via (trace w3) = (requested via (trace w1) ++ done)%list
        /\ run = (match r with
                  | Some a => finish a
                  | None => Err allFailed
                  end, w3)
  end.

(** A whole fallback, run from [w] with result [run]: one direct fetch of
    [url]; on success its value is the result and nothing else is asked; on
    failure the mirror phase follows. *)
Definition fallback {A B : Type} (E : Env) (gpm : GitHubProxyManager)
    (fetch : string -> M (result A)) (via : Caller) (limit : nat)
    (url : string) (finish : A -> result B) (allFailed : error)
    (w : World) (run : result B * World) : Prop :=
  match fetch url w with
  | (Ok a, w1) =>
      run = (finish a, w1)
      /\ requested via (trace w1) = (requested via (trace w) ++ [url])%list
  | (Err _, w1) =>
      requested via (trace w1) = (requested via (trace w) ++ [url])%list
      /\ mirror_phase E gpm fetch via limit url finish allFailed w1 run
  end.

Section FallbackVocabulary.

Variable E : Env.

(** The code shared by the two mirror phases of the source, written once:
    ask the catalog, sort, run the loop, and return. *)
Definition mirror_code {A B : Type} (gpm : GitHubProxyManager)
    (fetch : string -> M (result A)) (maxRetry : Z) (url : string)
    (finish : A -> result B) (allFailed : error) : M (result B) :=
  r <- GetProxies E gpm ;;
  match r with
  | Err e => ret (Err (ErrGetProxyList e))
  | Ok proxies =>
      let proxies := sort_Slice E proxies bySpeedDesc in
      r <- rangeProxies (fun proxy => fetch (proxyURL url proxy)) maxRetry proxies 0 ;;
      match r with
      | Some a => ret (finish a)
      | None => ret (Err allFailed)
      end
  end.

Variable md : ModuleDownloader.

(** The manifest fetch and the payload fetch, as functions of the URL. *)
Definition manifestFetch (url : string) : M (result string) :=
  downloadWithTimeout E url (timeout md).

Definition payloadFetch (localPath url : string) : M (result unit) :=
  downloadFile E url localPath (30 * Second).

(** The order of [downloadModule], once the download directory is there:
    the payload URL as given; then, if that fails and stripping a known
    prefix changes the URL, the stripped URL, directly; then the mirror
    phase, around the stripped URL. *)
Definition payload_sequence (updateInfo : UpdateInfo) (w : World)
    (run : result string * World) : Prop :=
  let url := ZipURL updateInfo in
  let origin := extractGitHubURL url in
  let path := modulePath E md updateInfo in
  let mirrors := mirror_phase E (gpm md) (payloadFetch path) ViaDownloadFile
                   (Z.to_nat (maxRetry md)) origin (fun _ => Ok path)
                   ErrAllProxyDownloadsFailed in
  match payloadFetch path url w with
  | (Ok _, w1) =>
      run = (Ok path, w1)
      /\ requested ViaDownloadFile (trace w1)
         = (requested ViaDownloadFile (trace w) ++ [url])%list
  | (Err _, w1) =>
      requested ViaDownloadFile (trace w1)
      = (requested ViaDownloadFile (trace w) ++ [url])%list
      /\ if String.eqb origin url then mirrors w1 run
         else match payloadFetch path origin w1 with
              | (Ok _, w2) =>
                  run = (Ok path, w2)
                  /\ requested ViaDownloadFile (trace w2)
                     = (requested ViaDownloadFile (trace w1) ++ [origin])%list
              | (Err _, w2) =>
                  requested ViaDownloadFile (trace w2)
                  = (requested ViaDownloadFile (trace w1) ++ [origin])%list
                  /\ mirrors w2 run
              end
  end.

End FallbackVocabulary.

(** ** Hosts to run the program on *)

(** The environment of the two slow mirrors: the cache file holds them in
    the order [slow], [slower], and is one hour old. *)
Definition slowEnv : Env :=
  Demo.env Demo.offline Demo.noFault "" [] [Demo.slow; Demo.slower].

(** A host whose cache file holds [slow; slower] (stamped at instant 0) and
    whose directory service lists [slower; slow]. *)
Definition catalogEnv : Env :=
  Demo.env Demo.directoryOnly Demo.noFault ""
    [Demo.slower; Demo.slow] [Demo.slow; Demo.slower].

(** The same host with a disk that refuses every write. *)
Definition readOnlyEnv : Env :=
  Demo.env Demo.directoryOnly Demo.readOnlyDisk ""
    [Demo.slower; Demo.slow] [Demo.slow; Demo.slower].

(** A host that reaches nothing but the mirror [https://ghproxy.cc/], with
    a fresh cache of four mirrors in which that mirror ranks third. *)
Definition mirrorEnv (zipUrl : string) : Env :=
  Demo.env Demo.viaGhproxyCc Demo.noFault zipUrl []
    [Demo.ghproxyCc; Demo.fast; Demo.medium; Demo.last].

(** A payload URL that a manifest obtained through [https://ghproxy.cc/]
    would carry. *)
Definition wrappedZipURL : string := "https://ghproxy.cc/" ++ Demo.zipURL.

(** The mirror of the wrapped URL is down and GitHub is reachable: after
    the wrapped URL has failed, the origin is fetched, and it succeeds. *)
Definition githubOnly (h : list Event) (url : string) (d : option Duration)
  : HttpReply :=
  if HasPrefix url "https://github.com/" then Response 200 (Some "PK archive")
  else NoResponse.

Definition githubEnv : Env :=
  Demo.env githubOnly Demo.noFault wrappedZipURL []
    [Demo.ghproxyCc; Demo.fast; Demo.medium; Demo.last].

(** GitHub answers with a manifest that has no [zipUrl]. *)
Definition noZipUrlEnv : Env :=
  Demo.env Demo.manifestWithoutZipUrl Demo.noFault Demo.zipURL []
    [Demo.ghproxyCc; Demo.fast; Demo.medium; Demo.last].

(* ================================================================== *)
(** * Further vocabulary: repository names and file names *)
(* ================================================================== *)

(** The byte [\], which [normalizeRepoName] turns into a slash. *)
Definition backslash : ascii := ascii_of_nat 92.

(** How often the byte [c] occurs in [s]. *)
Fixpoint count_byte (c : ascii) (s : string) : nat :=
  match s with
  | EmptyString => 0
  | String d rest => (if Ascii.eqb d c then 1 else 0) + count_byte c rest
  end.

(** The separators of a repository argument: slashes and backslashes. *)
Definition separators (repo : string) : nat :=
  (count_byte "/"%char repo + count_byte backslash repo)%nat.

(** The file name [downloadModule] builds with
    [fmt.Sprintf("module_%s_%d.zip", ...)], before it is joined to the
    download directory. *)
Definition moduleFileName (updateInfo : UpdateInfo) : string :=
  "module_" ++ ReplaceAllByte (Version updateInfo) "/"%char "_"%char
  ++ "_" ++ format_d (VersionCode updateInfo) ++ ".zip".

(** ** What a step leaves alone *)

(** The events that reach the user or the installer. *)
Definition user_event (e : Event) : bool :=
  match e with
  | EvStdin | EvInstall _ => true
  | _ => false
  end.

(** [background S w w']: from [w] to [w'] nobody was prompted, nothing was
    installed, and no file outside [S] was written. *)
Definition background (S : string -> Prop) (w w' : World) : Prop :=
  filter user_event (trace w') = filter user_event (trace w)
  /\ forall p, ~ S p -> files w' p = files w p.

(** A computation all of whose runs are background steps. *)
Definition in_background {A : Type} (S : string -> Prop) (m : M A) : Prop :=
  forall w, background S w (snd (m w)).

(** The installations started in a trace. *)
Definition installed (tr : list Event) : list string :=
  flat_map (fun e => match e with EvInstall path => [path] | _ => [] end) tr.

(** A host whose JSON codec writes a snapshot as a document named after
    its time stamp and reads the one taken at instant 0 back; the directory
    lists the mirrors [fast] and [ghproxyCc]. *)
Definition roundTripEnv : Env :=
  let D := Demo.env Demo.directoryOnly Demo.noFault ""
             [Demo.fast; Demo.ghproxyCc] [Demo.fast; Demo.ghproxyCc] in
  {| http_reply := http_reply D;
     os_fault := os_fault D;
     os_residue := os_residue D;
     os_UserHomeDir := os_UserHomeDir D;
     runtime_GOOS := runtime_GOOS D;
     filepath_Join := filepath_Join D;
     filepath_Dir := filepath_Dir D;
     json_UnmarshalUpdateInfo := json_UnmarshalUpdateInfo D;
     json_UnmarshalProxyResponse := json_UnmarshalProxyResponse D;
     json_UnmarshalProxyCache := fun doc =>
       if String.eqb doc "github_proxy.json taken at 0"
       then Some (Demo.snapshot [Demo.fast; Demo.ghproxyCc] 0) else None;
     json_MarshalProxyCache := fun cache =>
       Some ("github_proxy.json taken at " ++ format_d (CacheTime cache));
     sort_Slice := sort_Slice D;
     stdin_yes := stdin_yes D |}.

(** A host on which every request is answered with the archive, and the
    manifest request with the manifest for [Demo.zipURL]; the user answers
    yes. *)
Definition onlineEnv : Env :=
  Demo.env (fun _ url _ =>
              Response 200 (Some (if HasSuffix url "update.json" then "update.json"
                                  else "PK archive")))
    Demo.noFault Demo.zipURL [] [Demo.fast; Demo.ghproxyCc].

(** A computation that asks nothing but the directory service, and at
    most [n] times. *)
Definition asksDirectory {A : Type} (n : nat) (m : M A) : Prop :=
  forall w, exists calls,
    http_events (trace (snd (m w))) = (http_events (trace w) ++ calls)%list
    /\ (List.length calls <= n)%nat
    /\ Forall (fun c => exists reply, c = directoryCall reply) calls.

(** How often a subcommand of [rmmp proxy] may ask the directory
    service. *)
Definition proxyCalls (args : list string) : nat :=
  match args with
  | [] => 0
  | subCommand :: _ =>
      if String.eqb subCommand "list" || String.eqb subCommand "ls" then 2
      else if String.eqb subCommand "best" || String.eqb subCommand "update" then 1
      else 0
  end.

(** A host whose cache holds four mirrors, none of negative score. *)
Definition rankedEnv : Env :=
  Demo.env Demo.offline Demo.noFault "" []
    [Demo.ghproxyCc; Demo.fast; Demo.medium; Demo.last].

(* ================================================================== *)
(** * The module manager: [RMMD], [installModule], [listModules] *)
(* ================================================================== *)

(** The module manager asks the file system about directories and runs
    external programs, which the fetch subsystem never does.  It is
    embedded over its own record of the outside, [Sys], and its own trace of
    calls; [runtime.GOOS] and [filepath.Join] are those of [Env]. *)
Module Rmmd.

(** [strings.SplitN(s, sep, 2)] for a one-byte separator: the text before
    the first separator and the text after it, or [s] alone. *)
Fixpoint SplitN2 (s : string) (sep : ascii) : list string :=
  match s with
  | EmptyString => [EmptyString]
  | String c rest =>
      if Ascii.eqb c sep then [EmptyString; rest]
      else match SplitN2 rest sep with
           | [before; after] => [String c before; after]
           | _ => [String c rest]
           end
  end.

(** [ModuleInfo]: every field is a string. *)
Record ModuleInfo := {
  ID : string;
  UpdateJSON : string;
  VersionCode : string;
  Description : string;
  Enabled : string;
  Update : string;
  Name : string;
  Web : string;
  Version : string;
  Author : string;
  DirID : string;
  Action : string;
  Remove : string
}.

Inductive RootEnvironment := RootUnknown | RootMagisk | RootAPatch | RootKernelSU.

Record RMMD := {
  rootEnv : RootEnvironment;
  binaryPath : string
}.

(** The errors built with [fmt.Errorf] in the module manager. *)
Inductive error : Type :=
| ErrNoRootEnvironment                   (* "未检测到支持的Root环境" *)
| ErrModulesDirMissing (dir : string)    (* "模块目录不存在: %s" *)
| ErrReadModulesDir                      (* "读取模块目录失败: %v" *)
| ErrNoModuleProp                        (* "module.prop 不存在" *)
| ErrReadModuleProp                      (* "读取module.prop失败: %v" *)
| ErrBinaryMissing (path : string)       (* "二进制文件不存在: %s" *)
| ErrCommandFailed                       (* "执行命令失败: %v" *)
| ErrParseModules                        (* "解析JSON失败: %v" *)
| ErrAbs                                 (* "获取绝对路径失败: %v" *)
| ErrInstallFailed.                      (* "安装失败: %v" *)

Inductive result (A : Type) : Type :=
| Ok (a : A)
| Err (e : error).
Arguments Ok {A} a.
Arguments Err {A} e.

(** What [os.Stat] reports about a path: the error [os.IsNotExist]
    recognises, another error, a directory, or anything else that exists. *)
Inductive FileInfo := StatNoEntry | StatError | StatDir | StatFile.

(** [os.DirEntry], as far as the program looks at it. *)
Record DirEntry := {
  entryName : string;
  entryIsDir : bool
}.

(** A call that leaves the process. *)
Inductive Call : Type :=
| CallStat (path : string)
| CallReadDir (path : string)
| CallReadFile (path : string)
| CallRun (name : string) (args : list string).

(** The outside of the module manager.  Answers may depend on the calls
    made so far.  [sys_Run] is [None] when the program cannot be started
    or exits with an error, and its standard output otherwise. *)
Record Sys := {
  sys_Stat : list Call -> string -> FileInfo;
  sys_ReadDir : list Call -> string -> option (list DirEntry);
  sys_ReadFile : list Call -> string -> option string;
  sys_Run : list Call -> string -> list string -> option string;
  filepath_Abs : string -> option string;
  strings_TrimSpace : string -> string;
  json_UnmarshalModules : string -> option (list ModuleInfo)
}.

(** The state monad of the module manager: the state is the trace. *)
Definition R (A : Type) : Type := list Call -> A * list Call.

Definition rret {A} (a : A) : R A := fun h => (a, h).

Definition rbind {A B} (m : R A) (k : A -> R B) : R B :=
  fun h => let (a, h') := m h in k a h'.

Declare Scope rmmd_scope.
Delimit Scope rmmd_scope with rmmd.
Notation "x <- m ;; k" := (rbind m (fun x => k))
  (at level 61, m at next level, right associativity) : rmmd_scope.
Local Open Scope rmmd_scope.

(** The map [props] of [parseProperties]; a key that is not there reads as
    the empty string. *)
Definition Props := string -> option string.

Definition props_empty : Props := fun _ => None.

Definition props_set (key value : string) (props : Props) : Props :=
  fun k => if String.eqb k key then Some value else props k.

Definition props_get (props : Props) (key : string) : string :=
  match props key with
  | Some value => value
  | None => ""
  end.

Definition newline : ascii := ascii_of_nat 10.

Section Program.

Variable E : Env.
Variable Y : Sys.

Definition os_Stat (path : string) : R FileInfo := fun h =>
  (sys_Stat Y h path, (h ++ [CallStat path])%list).

Definition os_ReadDir (path : string) : R (option (list DirEntry)) := fun h =>
  (sys_ReadDir Y h path, (h ++ [CallReadDir path])%list).

Definition os_ReadFile (path : string) : R (option string) := fun h =>
  (sys_ReadFile Y h path, (h ++ [CallReadFile path])%list).

(** [cmd.Run()] and [cmd.Output()] of [exec.Command(name, args...)]. *)
Definition exec_Run (name : string) (args : list string) : R (option string) :=
  fun h => (sys_Run Y h name args, (h ++ [CallRun name args])%list).

(** The test both [dirExists] and the method [fileExists] start with. *)
Definition skippedOffAndroid (path : string) : bool :=
  negb (String.eqb (runtime_GOOS E) "android") && HasPrefix path "/data/adb/".

Definition dirExists (path : string) : R bool :=
  if skippedOffAndroid path then rret false
  else
    info <- os_Stat path ;;
    match info with
    | StatDir => rret true
    | _ => rret false
    end.

(** The method [fileExists] of [RMMD]. *)
Definition RMMD_fileExists (path : string) : R bool :=
  if skippedOffAndroid path then rret false
  else
    info <- os_Stat path ;;
    match info with
    | StatNoEntry => rret false
    | _ => rret true
    end.

(** The function [fileExists] of the main file, over this trace. *)
Definition fileExists (path : string) : R bool :=
  info <- os_Stat path ;;
  match info with
  | StatNoEntry => rret false
  | _ => rret true
  end.

Definition detectRootEnvironment : R RMMD :=
  magisk <- dirExists "/data/adb/magisk" ;;
  if magisk
  then rret {| rootEnv := RootMagisk; binaryPath := "/data/adb/magisk/magisk" |}
  else
    ap <- dirExists "/data/adb/ap" ;;
    if ap
    then rret {| rootEnv := RootAPatch; binaryPath := "/data/adb/apd" |}
    else
      ksu <- dirExists "/data/adb/ksu" ;;
      if ksu
      then rret {| rootEnv := RootKernelSU; binaryPath := "/data/adb/ksud" |}
      else rret {| rootEnv := RootUnknown; binaryPath := "" |}.

Definition NewRMMD : R RMMD := detectRootEnvironment.

(** The loop of [parseProperties] over the lines. *)
Fixpoint parseLines (lines : list string) (props : Props) : Props :=
  match lines with
  | [] => props
  | line :: rest =>
      let line := strings_TrimSpace Y line in
      if String.eqb line "" || HasPrefix line "#" then parseLines rest props
      else
        match SplitN2 line "="%char with
        | [key; value] =>
            parseLines rest
              (props_set (strings_TrimSpace Y key) (strings_TrimSpace Y value) props)
        | _ => parseLines rest props
        end
  end.

Definition parseProperties (content : string) : Props :=
  parseLines (SplitByte content newline) props_empty.

Definition parseMagiskModule (moduleID modulePath : string)
  : R (result ModuleInfo) :=
  let propFile := filepath_Join E [modulePath; "module.prop"] in
  there <- RMMD_fileExists propFile ;;
  if negb there then rret (Err ErrNoModuleProp)
  else
    content <- os_ReadFile propFile ;;
    match content with
    | None => rret (Err ErrReadModuleProp)
    | Some content =>
        let props := parseProperties content in
        let disableFile := filepath_Join E [modulePath; "disable"] in
        disabled <- RMMD_fileExists disableFile ;;
        let enabled := if disabled then "false" else "true" in
        let updateJSON := props_get props "updateJson" in
        let hasUpdate := if String.eqb updateJSON "" then "false" else "true" in
        rret (Ok {| ID := moduleID;
                    UpdateJSON := updateJSON;
                    VersionCode := props_get props "versionCode";
                    Description := props_get props "description";
                    Enabled := enabled;
                    Update := hasUpdate;
                    Name := props_get props "name";
                    Web := "false";
                    Version := props_get props "version";
                    Author := props_get props "author";
                    DirID := moduleID;
                    Action := "true";
                    Remove := "false" |})
    end.

(** The loop of [listMagiskModules] over the directory entries. *)
Fixpoint listEntries (modulesDir : string) (entries : list DirEntry)
    (modules : list ModuleInfo) : R (list ModuleInfo) :=
  match entries with
  | [] => rret modules
  | entry :: rest =>
      if negb (entryIsDir entry) then listEntries modulesDir rest modules
      else
        let moduleID := entryName entry in
        let modulePath := filepath_Join E [modulesDir; moduleID] in
        if String.eqb moduleID "lost+found" || HasPrefix moduleID "."
        then listEntries modulesDir rest modules
        else
          r <- parseMagiskModule moduleID modulePath ;;
          match r with
          | Err _ => listEntries modulesDir rest modules
          | Ok moduleInfo =>
              listEntries modulesDir rest (modules ++ [moduleInfo])%list
          end
  end.

Definition listMagiskModules : R (result (list ModuleInfo)) :=
  let modulesDir := "/data/adb/modules" in
  there <- dirExists modulesDir ;;
  if negb there then rret (Err (ErrModulesDirMissing modulesDir))
  else
    entries <- os_ReadDir modulesDir ;;
    match entries with
    | None => rret (Err ErrReadModulesDir)
    | Some entries =>
        modules <- listEntries modulesDir entries [] ;;
        rret (Ok modules)
    end.

Definition listModulesViaCommand (r : RMMD) (args : list string)
  : R (result (list ModuleInfo)) :=
  there <- RMMD_fileExists (binaryPath r) ;;
  if negb there then rret (Err (ErrBinaryMissing (binaryPath r)))
  else
    output <- exec_Run (binaryPath r) args ;;
    match output with
    | None => rret (Err ErrCommandFailed)
    | Some output =>
        match json_UnmarshalModules Y output with
        | None => rret (Err ErrParseModules)
        | Some modules => rret (Ok modules)
        end
    end.

Definition ListModules (r : RMMD) : R (result (list ModuleInfo)) :=
  match rootEnv r with
  | RootMagisk => listMagiskModules
  | RootAPatch => listModulesViaCommand r ["module"; "list"]
  | RootKernelSU => listModulesViaCommand r ["module"; "list"]
  | RootUnknown => rret (Err ErrNoRootEnvironment)
  end.

Definition InstallModule (r : RMMD) (zipPath : string) : R (result unit) :=
  match rootEnv r with
  | RootUnknown => rret (Err ErrNoRootEnvironment)
  | _ =>
      there <- RMMD_fileExists (binaryPath r) ;;
      if negb there then rret (Err (ErrBinaryMissing (binaryPath r)))
      else
        match filepath_Abs Y zipPath with
        | None => rret (Err ErrAbs)
        | Some absPath =>
            let args := match rootEnv r with
                        | RootMagisk => ["--install-module"; absPath]
                        | _ => ["module"; "install"; absPath]
                        end in
            ran <- exec_Run (binaryPath r) args ;;
            match ran with
            | None => rret (Err ErrInstallFailed)
            | Some _ => rret (Ok tt)
            end
        end
  end.

(** [PrintModuleList]: the list is printed; the error is returned. *)
Definition PrintModuleList (r : RMMD) : R (result unit) :=
  modules <- ListModules r ;;
  match modules with
  | Err e => rret (Err e)
  | Ok _ => rret (Ok tt)
  end.

Definition installModuleWithBuiltinInstaller (zipPath : string) : R (result unit) :=
  rmmd <- NewRMMD ;;
  InstallModule rmmd zipPath.

(** [installModule] of the main file; what it finds is printed.  The test
    of the extension [.zip] only prints a warning. *)
Definition installModule (zipFile : string) : R unit :=
  there <- fileExists zipFile ;;
  if negb there then rret tt
  else
    match filepath_Abs Y zipFile with
    | None => rret tt
    | Some absPath =>
        _ <- installModuleWithBuiltinInstaller absPath ;;
        rret tt
    end.

Definition listModules : R unit :=
  rmmd <- NewRMMD ;;
  _ <- PrintModuleList rmmd ;;
  rret tt.

Definition handleModuleCommand (args : list string) : R unit :=
  match args with
  | [] => rret tt
  | subCommand :: rest =>
      if String.eqb subCommand "install"
      then match rest with
           | [] => rret tt
           | zipFile :: _ => installModule zipFile
           end
      else if String.eqb subCommand "list" then listModules
      else rret tt
  end.

End Program.

(** The programs started in a trace, with their arguments. *)
Definition runs (h : list Call) : list (string * list string) :=
  flat_map (fun c => match c with CallRun name args => [(name, args)] | _ => [] end) h.

(** The install command of each root manager for the archive [absPath]. *)
Definition installCommands (absPath : string) : list (string * list string) :=
  [ ("/data/adb/magisk/magisk", ["--install-module"; absPath]);
    ("/data/adb/apd", ["module"; "install"; absPath]);
    ("/data/adb/ksud", ["module"; "install"; absPath]) ].

(** The arguments [InstallModule] passes to the manager's program. *)
Definition installArgs (r : RMMD) (absPath : string) : list string :=
  match rootEnv r with
  | RootMagisk => ["--install-module"; absPath]
  | _ => ["module"; "install"; absPath]
  end.

(** A computation that starts no program. *)
Definition quiet {A : Type} (m : R A) : Prop :=
  forall h, runs (snd (m h)) = runs h.

(** What [listMagiskModules] fills in for every module, whatever its
    [module.prop] says. *)
Definition wellFormed (m : ModuleInfo) : Prop :=
  DirID m = ID m
  /\ (Enabled m = "true" \/ Enabled m = "false")
  /\ (Update m = "true" <-> UpdateJSON m <> "")
  /\ (Update m = "false" <-> UpdateJSON m = "")
  /\ Web m = "false" /\ Action m = "true" /\ Remove m = "false".

(** A directory entry [listMagiskModules] looks into. *)
Definition visible (entry : DirEntry) : bool :=
  entryIsDir entry
  && negb (String.eqb (entryName entry) "lost+found" || HasPrefix (entryName entry) ".").

(** A module the listing may report for the directory [entries]: it is
    named after a visible entry. *)
Definition reported (entries : list DirEntry) (m : ModuleInfo) : Prop :=
  wellFormed m
  /\ In {| entryName := ID m; entryIsDir := true |} entries
  /\ ID m <> "lost+found"
  /\ HasPrefix (ID m) "." = false.

(** ** Hosts for the examples *)

Definition isSpace (c : ascii) : bool :=
  existsb (Ascii.eqb c) [" "%char; ascii_of_nat 9; ascii_of_nat 10; ascii_of_nat 13].

Fixpoint trimLeft (s : string) : string :=
  match s with
  | EmptyString => EmptyString
  | String c rest => if isSpace c then trimLeft rest else s
  end.

Fixpoint trimRight (s : string) : string :=
  match s with
  | EmptyString => EmptyString
  | String c rest =>
      match trimRight rest with
      | EmptyString => if isSpace c then EmptyString else String c EmptyString
      | kept => String c kept
      end
  end.

(** [strings.TrimSpace] on ASCII text. *)
Definition trimSpace (s : string) : string := trimRight (trimLeft s).

(** A device whose file system does not change: the directories [dirs],
    the files [files], each with the content [prop], and the module
    directory listed as [listing]. *)
Definition phone (dirs files : list string) (listing : list DirEntry)
    (prop : string) : Sys :=
  {| sys_Stat := fun _ path =>
       if existsb (String.eqb path) dirs then StatDir
       else if existsb (String.eqb path) files then StatFile
       else StatNoEntry;
     sys_ReadDir := fun _ path =>
       if String.eqb path "/data/adb/modules" then Some listing else None;
     sys_ReadFile := fun _ path =>
       if existsb (String.eqb path) files then Some prop else None;
     sys_Run := fun _ _ _ => Some "[]";
     filepath_Abs := fun path =>
       Some (if HasPrefix path "/" then path else "/sdcard/" ++ path);
     strings_TrimSpace := trimSpace;
     json_UnmarshalModules := fun _ => Some [] |}.

(** The host of the examples, and the same host on Android. *)
Definition desktop : Env :=
  Demo.env Demo.offline Demo.noFault "" [] [].

Definition android : Env :=
  {| http_reply := http_reply desktop;
     os_fault := os_fault desktop;
     os_residue := os_residue desktop;
     os_UserHomeDir := os_UserHomeDir desktop;
     runtime_GOOS := "android";
     filepath_Join := filepath_Join desktop;
     filepath_Dir := filepath_Dir desktop;
     json_UnmarshalUpdateInfo := json_UnmarshalUpdateInfo desktop;
     json_UnmarshalProxyResponse := json_UnmarshalProxyResponse desktop;
     json_UnmarshalProxyCache := json_UnmarshalProxyCache desktop;
     json_MarshalProxyCache := json_MarshalProxyCache desktop;
     sort_Slice := sort_Slice desktop;
     stdin_yes := stdin_yes desktop |}.

(** A Magisk device with one module, a hidden directory, [lost+found], a
    plain file and a directory without [module.prop]. *)
Definition magiskPhone : Sys :=
  phone ["/data/adb/magisk"; "/data/adb/modules"]
    ["/data/adb/magisk/magisk"; "/data/adb/modules/demo/module.prop"]
    [ {| entryName := ".core"; entryIsDir := true |};
      {| entryName := "broken"; entryIsDir := true |};
      {| entryName := "demo"; entryIsDir := true |};
      {| entryName := "lost+found"; entryIsDir := true |};
      {| entryName := "notes.txt"; entryIsDir := false |} ]
    ("id=demo" ++ String newline ("name = Demo" ++ String newline "# updateJson=x")).

End Rmmd.

(* ================================================================== *)
(** * Facts about Go strings *)
(* ================================================================== *)

Lemma string_length_app (p u : string) :
  String.length (p ++ u) = (String.length p + String.length u)%nat.
Proof. induction p as [|c p IH]; simpl; [reflexivity | now rewrite IH]. Qed.

Lemma substring_all (u : string) : substring 0 (String.length u) u = u.
Proof. induction u as [|c u IH]; simpl; [reflexivity | now rewrite IH]. Qed.

Lemma substring_app_head (p u : string) :
  substring 0 (String.length p) (p ++ u) = p.
Proof.
  induction p as [|c p IH]; simpl.
  - destruct u; reflexivity.
  - now rewrite IH.
Qed.

Lemma substring_app_tail (p u : string) :
  substring (String.length p) (String.length u) (p ++ u) = u.
Proof.
  induction p as [|c p IH]; simpl; [apply substring_all | exact IH].
Qed.

Lemma slice_to_app (p u : string) : slice_to (String.length p) (p ++ u) = p.
Proof. apply substring_app_head. Qed.

Lemma slice_from_app (p u : string) : slice_from (String.length p) (p ++ u) = u.
Proof.
  unfold slice_from. rewrite string_length_app.
  replace (String.length p + String.length u - String.length p)%nat
    with (String.length u) by lia.
  apply substring_app_tail.
Qed.

Lemma HasPrefix_app (p u : string) : HasPrefix (p ++ u) p = true.
Proof.
  unfold HasPrefix. rewrite slice_to_app, String.eqb_refl, string_length_app.
  rewrite andb_true_r. apply Nat.leb_le. lia.
Qed.

Lemma TrimPrefix_app (p u : string) : TrimPrefix (p ++ u) p = u.
Proof. unfold TrimPrefix. now rewrite HasPrefix_app, slice_from_app. Qed.

(** A prefix that matches is really in front of the string. *)
Lemma HasPrefix_split (s p : string) :
  HasPrefix s p = true -> s = p ++ TrimPrefix s p.
Proof.
  intros H. unfold TrimPrefix. rewrite H.
  unfold HasPrefix in H. apply andb_true_iff in H as [Hlen Heq].
  apply Nat.leb_le in Hlen. apply String.eqb_eq in Heq.
  revert s Hlen Heq. unfold slice_to, slice_from.
  induction p as [|c p IH]; intros s Hlen Heq; simpl in *.
  - rewrite Nat.sub_0_r. now rewrite substring_all.
  - destruct s as [|d s]; simpl in *; [lia|].
    injection Heq as -> Heq. f_equal. apply IH; [lia | exact Heq].
Qed.

Lemma app_neq_self (p u : string) : p <> "" -> p ++ u <> u.
Proof.
  intros Hp Heq. apply (f_equal String.length) in Heq.
  rewrite string_length_app in Heq. destruct p; [congruence | simpl in Heq; lia].
Qed.

(* ================================================================== *)
(** * The URL normalizer *)
(* ================================================================== *)

(** No known prefix starts a URL that begins with a different known prefix:
    the loop of [extractGitHubURL] can only stop at the prefix itself. *)
Lemma known_prefix_unique (p q u : string) :
  In p prefixes -> In q prefixes -> HasPrefix (p ++ u) q = true -> q = p.
Proof.
  intros Hp Hq H. apply HasPrefix_split in H.
  revert H. generalize (TrimPrefix (p ++ u) q). intros t H.
  unfold prefixes in Hp, Hq. simpl in Hp, Hq.
  repeat (destruct Hp as [<- | Hp]); try contradiction;
    repeat (destruct Hq as [<- | Hq]); try contradiction;
    try reflexivity; simpl in H; discriminate H.
Qed.

Lemma stripFirstPrefix_hit (ps : list string) (p u : string) :
  In p ps ->
  (forall q, In q ps -> HasPrefix (p ++ u) q = true -> q = p) ->
  stripFirstPrefix ps (p ++ u) = u.
Proof.
  induction ps as [|q ps IH]; intros Hin Huniq; [contradiction|].
  simpl. destruct (HasPrefix (p ++ u) q) eqn:Hq.
  - rewrite (Huniq q (or_introl eq_refl) Hq). apply TrimPrefix_app.
  - destruct Hin as [-> | Hin].
    + rewrite HasPrefix_app in Hq. discriminate.
    + apply IH; [exact Hin | intros r Hr; apply Huniq; now right].
Qed.

Lemma stripFirstPrefix_miss (ps : list string) (url : string) :
  (forall q, In q ps -> HasPrefix url q = false) ->
  stripFirstPrefix ps url = url.
Proof.
  induction ps as [|q ps IH]; intros Hno; [reflexivity|].
  simpl. rewrite (Hno q (or_introl eq_refl)).
  apply IH. intros r Hr. apply Hno. now right.
Qed.

Lemma extractGitHubURL_strips (p u : string) :
  In p prefixes -> extractGitHubURL (p ++ u) = u.
Proof.
  intros Hp. apply stripFirstPrefix_hit; [exact Hp|].
  intros q Hq. now apply known_prefix_unique.
Qed.

Lemma known_prefix_nonempty (p : string) : In p prefixes -> p <> "".
Proof.
  unfold prefixes. simpl. intros H.
  repeat (destruct H as [<- | H]); try contradiction; discriminate.
Qed.

(** C5: [extractGitHubURL] removes exactly the known prefix a URL starts
    with, and returns every URL that starts with none of them (a partial
    match included) unchanged. *)
Theorem extractGitHubURL_spec :
  (forall p u, In p prefixes -> extractGitHubURL (p ++ u) = u) /\
  (forall url p, In p prefixes -> HasPrefix url p = true ->
     url = p ++ extractGitHubURL url) /\
  (forall url, (forall p, In p prefixes -> HasPrefix url p = false) ->
     extractGitHubURL url = url).
Proof.
  split; [|split].
  - intros p u Hp. now apply extractGitHubURL_strips.
  - intros url p Hp H. pose proof (HasPrefix_split _ _ H) as Hs.
    rewrite Hs at 2. now rewrite extractGitHubURL_strips.
  - intros url Hno. now apply stripFirstPrefix_miss.
Qed.

Lemma extractGitHubURL_spec_witness :
  In "https://mirror.ghproxy.com/" prefixes
  /\ extractGitHubURL ("https://mirror.ghproxy.com/" ++ "https://github.com/a/b/releases/x.zip")
     = "https://github.com/a/b/releases/x.zip"
  /\ extractGitHubURL "https://example.org/a/b/x.zip" = "https://example.org/a/b/x.zip"
  /\ extractGitHubURL "https://ghproxy.c" = "https://ghproxy.c".
Proof.
  destruct extractGitHubURL_spec as (Hstrip & _ & Hkeep).
  assert (In "https://mirror.ghproxy.com/" prefixes) as Hin
    by (unfold prefixes; simpl; tauto).
  split; [exact Hin|]. split; [now apply Hstrip|].
  split; apply Hkeep; intros p Hp; unfold prefixes in Hp; simpl in Hp;
    repeat (destruct Hp as [<- | Hp]); try contradiction; reflexivity.
Defined.

(** C10: one application strips one layer only: of a doubly wrapped URL the
    inner prefix survives, and a second application changes the result
    again, so [extractGitHubURL] is not idempotent there. *)
Theorem extractGitHubURL_one_layer :
  (forall p u, In p prefixes -> extractGitHubURL (p ++ u) = u) /\
  (forall p1 p2 u, In p1 prefixes -> In p2 prefixes ->
     extractGitHubURL (p1 ++ p2 ++ u) = p2 ++ u /\
     extractGitHubURL (extractGitHubURL (p1 ++ p2 ++ u)) = u /\
     extractGitHubURL (extractGitHubURL (p1 ++ p2 ++ u))
       <> extractGitHubURL (p1 ++ p2 ++ u)).
Proof.
  split.
  - intros p u Hp. now apply extractGitHubURL_strips.
  - intros p1 p2 u H1 H2.
    rewrite (extractGitHubURL_strips p1 (p2 ++ u) H1).
    rewrite (extractGitHubURL_strips p2 u H2).
    repeat split. intros Heq. symmetry in Heq. revert Heq.
    apply app_neq_self. now apply known_prefix_nonempty.
Qed.

Lemma extractGitHubURL_one_layer_witness :
  In "https://ghproxy.cc/" prefixes
  /\ In "https://gh.b52m.cn/" prefixes
  /\ extractGitHubURL ("https://ghproxy.cc/" ++ "https://gh.b52m.cn/" ++ "https://github.com/a/b")
     = "https://gh.b52m.cn/" ++ "https://github.com/a/b"
  /\ extractGitHubURL
       (extractGitHubURL
          ("https://ghproxy.cc/" ++ "https://gh.b52m.cn/" ++ "https://github.com/a/b"))
     = "https://github.com/a/b".
Proof.
  destruct extractGitHubURL_one_layer as [_ Hlayer].
  assert (In "https://ghproxy.cc/" prefixes) as H1 by (unfold prefixes; simpl; tauto).
  assert (In "https://gh.b52m.cn/" prefixes) as H2 by (unfold prefixes; simpl; tauto).
  destruct (Hlayer _ _ "https://github.com/a/b" H1 H2) as (Hone & Htwo & _).
  repeat split; assumption.
Defined.

(* ================================================================== *)
(** * Best-mirror selection *)
(* ================================================================== *)

(** ** The order of float64 values *)

(** Comparing two floats that are not NaN is comparing their keys. *)
Lemma SFcompare_key (f1 f2 : spec_float) (k1 k2 : Z * Z * Z) :
  SFkey f1 = Some k1 -> SFkey f2 = Some k2 ->
  exists c, SFcompare f1 f2 = Some c
            /\ (c = Lt <-> key_lt k1 k2) /\ (c = Eq <-> key_eq k1 k2).
Proof.
  unfold key_lt, key_eq.
  destruct f1 as [s1 | s1 | | s1 m1 e1], f2 as [s2 | s2 | | s2 m2 e2];
    try destruct s1; try destruct s2; cbn [SFkey SFcompare];
    intros H1 H2; try discriminate;
    injection H1 as <-; injection H2 as <-; cbn [fst snd];
    try (eexists; split; [reflexivity|]; split; split; intros; (reflexivity || discriminate || lia)).
  - exists (match (e1 ?= e2)%Z with
            | Eq => CompOpp (Pos.compare_cont Eq m1 m2) | Lt => Gt | Gt => Lt end).
    split; [reflexivity|].
    change (Pos.compare_cont Eq m1 m2) with (Pos.compare m1 m2).
    destruct (Z.compare_spec e1 e2), (Pos.compare_spec m1 m2); cbn [CompOpp];
      split; split; intros; (discriminate || lia || reflexivity).
  - exists (match (e1 ?= e2)%Z with
            | Eq => Pos.compare_cont Eq m1 m2 | Lt => Lt | Gt => Gt end).
    split; [reflexivity|].
    change (Pos.compare_cont Eq m1 m2) with (Pos.compare m1 m2).
    destruct (Z.compare_spec e1 e2), (Pos.compare_spec m1 m2);
      split; split; intros; (discriminate || lia || reflexivity).
Qed.


Lemma ltb_key (x y : float) :
  (x <? y)%float = true <->
  exists kx ky, fkey x = Some kx /\ fkey y = Some ky /\ key_lt kx ky.
Proof.
  rewrite ltb_spec. unfold SFltb, fkey. split.
  - intros H. destruct (SFkey (Prim2SF x)) as [kx|] eqn:Hx;
      [|destruct (Prim2SF x) as [| [|] | |[|]]; try discriminate;
        destruct (Prim2SF y); discriminate].
    destruct (SFkey (Prim2SF y)) as [ky|] eqn:Hy;
      [|destruct (Prim2SF y) as [| [|] | |[|]]; try discriminate;
        destruct (Prim2SF x); discriminate].
    destruct (SFcompare_key _ _ _ _ Hx Hy) as (c & Hc & Hlt & _).
    rewrite Hc in H. exists kx, ky. repeat split. apply Hlt.
    now destruct c.
  - intros (kx & ky & Hx & Hy & Hlt).
    destruct (SFcompare_key _ _ _ _ Hx Hy) as (c & Hc & Hiff & _).
    rewrite Hc. apply Hiff in Hlt. now subst c.
Qed.

Lemma leb_key (x y : float) :
  (x <=? y)%float = true <->
  exists kx ky, fkey x = Some kx /\ fkey y = Some ky /\ (key_lt kx ky \/ key_eq kx ky).
Proof.
  rewrite leb_spec. unfold SFleb, fkey. split.
  - intros H. destruct (SFkey (Prim2SF x)) as [kx|] eqn:Hx;
      [|destruct (Prim2SF x) as [| [|] | |[|]]; try discriminate;
        destruct (Prim2SF y); discriminate].
    destruct (SFkey (Prim2SF y)) as [ky|] eqn:Hy;
      [|destruct (Prim2SF y) as [| [|] | |[|]]; try discriminate;
        destruct (Prim2SF x); discriminate].
    destruct (SFcompare_key _ _ _ _ Hx Hy) as (c & Hc & Hlt & Heq).
    rewrite Hc in H. exists kx, ky. repeat split.
    destruct c; [right; now apply Heq | left; now apply Hlt | discriminate].
  - intros (kx & ky & Hx & Hy & Hle).
    destruct (SFcompare_key _ _ _ _ Hx Hy) as (c & Hc & Hlt & Heq).
    rewrite Hc. destruct Hle as [H | H]; [apply Hlt in H | apply Heq in H]; now subst c.
Qed.

Ltac float_keys :=
  repeat match goal with
         | H : (_ <? _)%float = true |- _ =>
             apply ltb_key in H; destruct H as (? & ? & ? & ? & ?)
         | H : (_ <=? _)%float = true |- _ =>
             apply leb_key in H; destruct H as (? & ? & ? & ? & ?)
         end;
  repeat match goal with
         | H1 : fkey ?x = Some ?k1, H2 : fkey ?x = Some ?k2 |- _ =>
             assert (k1 = k2) by congruence; subst k2; clear H2
         end.

Ltac float_order :=
  float_keys;
  match goal with
  | |- (_ <? _)%float = true =>
      apply ltb_key; do 2 eexists; split; [eassumption|]; split; [eassumption|]
  | |- (_ <=? _)%float = true =>
      apply leb_key; do 2 eexists; split; [eassumption|]; split; [eassumption|]
  end;
  unfold key_lt, key_eq in *; lia.

Lemma f_lt_trans (x y z : float) :
  (x <? y)%float = true -> (y <? z)%float = true -> (x <? z)%float = true.
Proof. intros. float_order. Qed.

Lemma f_le_trans (x y z : float) :
  (x <=? y)%float = true -> (y <=? z)%float = true -> (x <=? z)%float = true.
Proof. intros. float_order. Qed.

Lemma f_lt_le_le (x y z : float) :
  (x <? y)%float = true -> (y <=? z)%float = true -> (x <=? z)%float = true.
Proof. intros. float_order. Qed.

Lemma f_le_lt_lt (x y z : float) :
  (x <=? y)%float = true -> (y <? z)%float = true -> (x <? z)%float = true.
Proof. intros. float_order. Qed.

Lemma f_le_refl (x : float) : (0 <=? x)%float = true -> (x <=? x)%float = true.
Proof. intros. float_order. Qed.

Lemma f_not_lt_zero (x : float) :
  (0 <=? x)%float = true -> (x <? 0)%float = false.
Proof.
  intros H. destruct (x <? 0)%float eqn:Hlt; [|reflexivity].
  exfalso. float_keys. unfold key_lt, key_eq in *. lia.
Qed.

Lemma f_total (x y : float) :
  (0 <=? x)%float = true -> (0 <=? y)%float = true ->
  (x <? y)%float = false -> (y <=? x)%float = true.
Proof.
  intros Hx Hy Hlt.
  apply leb_key in Hx as (k0 & kx & _ & Hkx & _).
  apply leb_key in Hy as (k0' & ky & _ & Hky & _).
  assert (~ key_lt kx ky) as Hn.
  { intros Hk. assert ((x <? y)%float = true) as Ht by (apply ltb_key; eauto).
    congruence. }
  apply leb_key. exists ky, kx. split; [exact Hky|]. split; [exact Hkx|].
  unfold key_lt, key_eq in *. lia.
Qed.

(** ** The selection loop *)

(** Whatever the scores, the loop either keeps the pointer it was given or
    returns a pointer to an element of the slice. *)
Lemma bestLoop_points_into (proxies : list GitHubProxyData) :
  forall i best bestScore,
    bestLoop i proxies best bestScore = best \/
    exists j p, bestLoop i proxies best bestScore = Some ((i + j)%nat, p)
                /\ nth_error proxies j = Some p.
Proof.
  induction proxies as [|proxy rest IH]; intros i best bestScore; simpl.
  - now left.
  - destruct ((bestScore <? 0) || (bestScore <? score proxy))%float.
    + right. destruct (IH (S i) (Some (i, proxy)) (score proxy)) as [-> | (j & p & -> & Hj)].
      * exists 0%nat, proxy. now rewrite Nat.add_0_r.
      * exists (S j), p. split; [f_equal; f_equal; lia | exact Hj].
    + destruct (IH (S i) best bestScore) as [-> | (j & p & -> & Hj)].
      * now left.
      * right. exists (S j), p. split; [f_equal; f_equal; lia | exact Hj].
Qed.

(** Started as [GetBestProxy] starts it, with the nil pointer and the score
    -1, the loop takes the first record at once: [-1 < 0] holds. *)
Lemma bestLoop_nonempty (proxies : list GitHubProxyData) :
  proxies <> [] ->
  exists i p, bestLoop 0 proxies None (-1)%float = Some (i, p)
              /\ nth_error proxies i = Some p.
Proof.
  destruct proxies as [|proxy rest]; [congruence | intros _].
  change (bestLoop 0 (proxy :: rest) None (-1)%float)
    with (bestLoop 1 rest (Some (0%nat, proxy)) (score proxy)).
  destruct (bestLoop_points_into rest 1 (Some (0%nat, proxy)) (score proxy))
    as [-> | (j & p & -> & Hj)].
  - now exists 0%nat, proxy.
  - exists (S j), p. split; [reflexivity | exact Hj].
Qed.

(** While no score is negative the loop is a plain search for the
    maximum: started with a best record [bp] of index [bi], it ends with a
    record that no record of the slice beats and that beats every record
    before it. *)
Lemma bestLoop_keeps_max (proxies : list GitHubProxyData) :
  forall (i bi : nat) (bp : GitHubProxyData),
    (bi < i)%nat ->
    nonnegative bp ->
    Forall nonnegative proxies ->
    exists j p,
      bestLoop i proxies (Some (bi, bp)) (score bp) = Some (j, p)
      /\ ((j = bi /\ p = bp) \/
          (exists k, j = (i + k)%nat /\ nth_error proxies k = Some p
                     /\ (score bp <? score p)%float = true))
      /\ (score bp <=? score p)%float = true
      /\ Forall (fun q => (score q <=? score p)%float = true) proxies
      /\ (forall k q, nth_error proxies k = Some q -> (i + k < j)%nat ->
                      (score q <? score p)%float = true).
Proof.
  unfold nonnegative.
  induction proxies as [|q rest IH]; intros i bi bp Hbi Hbp Hall.
  - exists bi, bp. split; [reflexivity|]. split; [now left|].
    split; [now apply f_le_refl|]. split; [constructor|].
    intros [|k] r Hk; discriminate.
  - inversion Hall as [|q' rest' Hq Hrest]; subst.
    cbn [bestLoop]. rewrite (f_not_lt_zero _ Hbp). cbn [orb].
    destruct (score bp <? score q)%float eqn:Hlt.
    + destruct (IH (S i) i q (Nat.lt_succ_diag_r i) Hq Hrest)
        as (j & p & Hrun & Hwhich & Hle & Hmax & Hearly).
      exists j, p. split; [exact Hrun|]. split; [|split; [|split]].
      * right. destruct Hwhich as [[-> ->] | (k & -> & Hk & Hqp)].
        -- exists 0%nat. repeat split; [lia | exact Hlt].
        -- exists (S k). repeat split; [lia | exact Hk |].
           now apply f_lt_trans with (score q).
      * now apply f_lt_le_le with (score q).
      * constructor; assumption.
      * intros [|k] r Hk Hjk.
        -- injection Hk as <-.
           destruct Hwhich as [[-> ->] | (k & -> & _ & Hqp)]; [lia | exact Hqp].
        -- apply (Hearly k r Hk). lia.
    + destruct (IH (S i) bi bp (Nat.lt_lt_succ_r _ _ Hbi) Hbp Hrest)
        as (j & p & Hrun & Hwhich & Hle & Hmax & Hearly).
      assert ((score q <=? score bp)%float = true) as Hqb by now apply f_total.
      exists j, p. split; [exact Hrun|]. split; [|split; [|split]].
      * destruct Hwhich as [[-> ->] | (k & -> & Hk & Hbpp)]; [now left|].
        right. exists (S k). repeat split; [lia | exact Hk | exact Hbpp].
      * exact Hle.
      * constructor; [now apply f_le_trans with (score bp) | exact Hmax].
      * intros [|k] r Hk Hjk.
        -- injection Hk as <-.
           destruct Hwhich as [[-> ->] | (k & -> & _ & Hbpp)]; [lia|].
           now apply f_le_lt_lt with (score bp).
        -- apply (Hearly k r Hk). lia.
Qed.

(** The selection as the score is meant to work: when no record has a
    negative score, [GetBestProxy]'s loop returns a record of greatest
    score, and among those the earliest. *)
Lemma bestLoop_max_nonnegative (proxies : list GitHubProxyData) :
  proxies <> [] ->
  Forall nonnegative proxies ->
  exists i p,
    bestLoop 0 proxies None (-1)%float = Some (i, p)
    /\ nth_error proxies i = Some p
    /\ Forall (fun q => (score q <=? score p)%float = true) proxies
    /\ (forall k q, nth_error proxies k = Some q -> (k < i)%nat ->
                    (score q <? score p)%float = true).
Proof.
  destruct proxies as [|first rest]; [congruence | intros _ Hall].
  inversion Hall as [|q' rest' Hfirst Hrest]; subst.
  change (bestLoop 0 (first :: rest) None (-1)%float)
    with (bestLoop 1 rest (Some (0%nat, first)) (score first)).
  destruct (bestLoop_keeps_max rest 1 0 first Nat.lt_0_1 Hfirst Hrest)
    as (j & p & Hrun & Hwhich & Hle & Hmax & Hearly).
  exists j, p. split; [exact Hrun|]. split; [|split].
  - destruct Hwhich as [[-> ->] | (k & -> & Hk & _)]; [reflexivity | exact Hk].
  - constructor; assumption.
  - intros [|k] q Hk Hlt.
    + injection Hk as <-.
      destruct Hwhich as [[-> ->] | (k & -> & _ & Hfp)]; [lia | exact Hfp].
    + apply (Hearly k q Hk). lia.
Qed.

(** C9: on a non-empty record list [GetBestProxy] returns a pointer to an
    element of that list, never nil, whatever the scores are (negative
    ones included): the first record always passes the guard. *)
Theorem GetBestProxy_returns_element (E : Env) (gpm : GitHubProxyManager)
    (w w' : World) (proxies : list GitHubProxyData) :
  GetProxies E gpm w = (Ok proxies, w') ->
  proxies <> [] ->
  exists i p, GetBestProxy E gpm w = (Ok (Some (i, p)), w')
              /\ nth_error proxies i = Some p
              /\ In p proxies.
Proof.
  intros Hget Hne. unfold GetBestProxy, bind. rewrite Hget.
  destruct proxies as [|proxy rest]; [congruence|].
  destruct (bestLoop_nonempty (proxy :: rest) Hne) as (i & p & Hbest & Hi).
  exists i, p. cbn [List.length Nat.eqb]. unfold ret. rewrite Hbest.
  repeat split; [exact Hi | now apply nth_error_In with i].
Qed.

Lemma GetProxies_slowEnv :
  fst (GetProxies slowEnv (NewGitHubProxyManager slowEnv) (Demo.withCache Hour))
  = Ok [Demo.slow; Demo.slower].
Proof. vm_compute. reflexivity. Qed.

Lemma GetBestProxy_returns_element_witness :
  exists i p,
    fst (GetBestProxy slowEnv (NewGitHubProxyManager slowEnv) (Demo.withCache Hour))
    = Ok (Some (i, p))
    /\ In p [Demo.slow; Demo.slower]
    /\ (score Demo.slow <? 0)%float = true
    /\ (score Demo.slower <? 0)%float = true.
Proof.
  destruct (GetBestProxy_returns_element slowEnv (NewGitHubProxyManager slowEnv)
              (Demo.withCache Hour)
              (snd (GetProxies slowEnv (NewGitHubProxyManager slowEnv) (Demo.withCache Hour)))
              [Demo.slow; Demo.slower])
    as (i & p & Hbest & _ & Hin).
  - vm_compute. reflexivity.
  - discriminate.
  - exists i, p. rewrite Hbest. split; [reflexivity|].
    split; [exact Hin|]. split; vm_compute; reflexivity.
Defined.

(** C3, at a failing input: with the records [slow] (score -0.2) and
    [slower] (score -0.8) in this order, [GetBestProxy] returns [slower],
    the second record, although the first has the strictly greater score:
    once the running best is negative, the test [bestScore < 0] takes every
    next record. *)
Theorem GetBestProxy_negative_scores_not_max :
  fst (GetBestProxy slowEnv (NewGitHubProxyManager slowEnv) (Demo.withCache Hour))
  = Ok (Some (1%nat, Demo.slower))
  /\ (score Demo.slower <? score Demo.slow)%float = true.
Proof. split; vm_compute; reflexivity. Qed.

(** On the empty list [GetBestProxy] fails with the empty-catalog error. *)
Lemma GetBestProxy_empty (E : Env) (gpm : GitHubProxyManager) (w w' : World) :
  GetProxies E gpm w = (Ok [], w') ->
  GetBestProxy E gpm w = (Err ErrNoProxies, w').
Proof. intros H. unfold GetBestProxy, bind. now rewrite H. Qed.

(* ================================================================== *)
(** * The mirror catalog *)
(* ================================================================== *)

Ltac run := unfold bind, ret in *.

Ltac break_match :=
  match goal with
  | |- context [match ?x with _ => _ end] => destruct x eqn:?
  end.

Lemma http_events_log (e : Event) (w : World) :
  http_events (trace (log e w))
  = (http_events (trace w) ++ if is_http e then [e] else [])%list.
Proof.
  unfold log, http_events. simpl. rewrite filter_app. simpl.
  now destruct (is_http e).
Qed.

Lemma http_events_set_file (p : string) (c : option string) (w : World) :
  http_events (trace (set_file p c w)) = http_events (trace w).
Proof. reflexivity. Qed.

Lemma offline_step_refl (w : World) : offline_step w w.
Proof. reflexivity. Qed.

Lemma offline_step_trans (w1 w2 w3 : World) :
  offline_step w1 w2 -> offline_step w2 w3 -> offline_step w1 w3.
Proof. unfold offline_step. congruence. Qed.

Lemma offline_step_log (e : Event) (w : World) :
  is_http e = false -> offline_step w (log e w).
Proof.
  intros H. unfold offline_step. rewrite http_events_log, H. apply app_nil_r.
Qed.

Lemma readonly_step_log (e : Event) (w : World) :
  is_http e = false -> readonly_step w (log e w).
Proof. intros H. repeat split. now apply offline_step_log. Qed.

Lemma readonly_step_refl (w : World) : readonly_step w w.
Proof. repeat split. Qed.

Lemma readonly_step_trans (w1 w2 w3 : World) :
  readonly_step w1 w2 -> readonly_step w2 w3 -> readonly_step w1 w3.
Proof.
  unfold readonly_step, offline_step.
  intros (F1 & N1 & O1) (F2 & N2 & O2). repeat split; congruence.
Qed.

Section CatalogFacts.

Variable E : Env.
Variable gpm : GitHubProxyManager.

Lemma fileExists_readonly (p : string) (w : World) :
  readonly_step w (snd (fileExists E p w)).
Proof. unfold fileExists, os_Stat. run. simpl. now apply readonly_step_log. Qed.

Lemma readCacheFile_readonly (w : World) :
  readonly_step w (snd (readCacheFile E gpm w)).
Proof.
  unfold readCacheFile, os_ReadFile. run.
  repeat break_match; simpl; now apply readonly_step_log.
Qed.

(** What [readCacheFile] returns: the snapshot in the file, unless the
    read itself fails. *)
Lemma readCacheFile_result (w : World) :
  fst (readCacheFile E gpm w)
  = if os_fault E (trace w) OpReadFile then Err LibError
    else match cachedSnapshot E gpm w with
         | Some cache => Ok cache
         | None => Err LibError
         end.
Proof.
  unfold readCacheFile, os_ReadFile, cachedSnapshot. run.
  destruct (os_fault E (trace w) OpReadFile); [reflexivity|].
  destruct (files w (cacheFile gpm)) as [data|]; [|reflexivity].
  now destruct (json_UnmarshalProxyCache E data).
Qed.

Lemma cachedSnapshot_readonly (w w' : World) :
  readonly_step w w' -> cachedSnapshot E gpm w' = cachedSnapshot E gpm w.
Proof. intros (F & _). unfold cachedSnapshot. now rewrite F. Qed.

Lemma isCacheValid_readonly (w : World) :
  readonly_step w (snd (isCacheValid E gpm w)).
Proof.
  unfold isCacheValid. run.
  pose proof (fileExists_readonly (cacheFile gpm) w) as H1.
  destruct (fileExists E (cacheFile gpm) w) as [ex w1]. simpl in H1.
  destruct ex; simpl; [|exact H1].
  pose proof (readCacheFile_readonly w1) as H2.
  destruct (readCacheFile E gpm w1) as [r w2]. simpl in H2.
  assert (readonly_step w w2) by (eapply readonly_step_trans; eassumption).
  destruct r; [|assumption]. unfold time_Now.
  now destruct (time_Since (now w2) (CacheTime a) >? cacheValidDuration).
Qed.

(** The comparison of [isCacheValid] decides on the true age: clamping the
    difference to an int64 duration does not move it across ten hours. *)
Lemma time_Since_expired (t u : Time) :
  (time_Since t u >? cacheValidDuration) = (t - u >? 10 * Hour).
Proof.
  unfold time_Since, Time_Sub, cacheValidDuration, minDuration, maxDuration,
    Hour, Second.
  destruct (Z.gtb_spec (t - u) (10 * (3600 * 1000000000)));
    destruct (Z.gtb_spec (Z.max (- 2 ^ 63) (Z.min (2 ^ 63 - 1) (t - u)))
                (10 * (3600 * 1000000000))); try reflexivity; lia.
Qed.

(** A cache file that is absent, unparseable or older than ten hours is
    never valid, whatever the file system does. *)
Lemma isCacheValid_miss (w : World) :
  (cachedSnapshot E gpm w = None \/
   exists cache, cachedSnapshot E gpm w = Some cache
                 /\ now w - CacheTime cache > 10 * Hour) ->
  fst (isCacheValid E gpm w) = false.
Proof.
  intros Hmiss. unfold isCacheValid. run.
  pose proof (fileExists_readonly (cacheFile gpm) w) as H1.
  destruct (fileExists E (cacheFile gpm) w) as [ex w1]. simpl in H1.
  destruct ex; simpl; [|reflexivity].
  pose proof (readCacheFile_readonly w1) as H2.
  pose proof (readCacheFile_result w1) as H3.
  rewrite (cachedSnapshot_readonly _ _ H1) in H3.
  destruct (readCacheFile E gpm w1) as [r w2]. simpl in H2, H3.
  destruct r as [cache|]; [|reflexivity].
  unfold time_Now. rewrite time_Since_expired.
  destruct (os_fault E (trace w1) OpReadFile); [discriminate|].
  assert (now w2 = now w) as ->.
  { destruct H1 as (_ & N1 & _), H2 as (_ & N2 & _). congruence. }
  destruct Hmiss as [Hnone | (c & Hc & Hage)].
  - rewrite Hnone in H3. discriminate.
  - rewrite Hc in H3. injection H3 as ->.
    destruct (Z.gtb_spec (now w - CacheTime c) (10 * Hour)); [reflexivity | lia].
Qed.

(** A snapshot at most ten hours old is valid when the file can be read. *)
Lemma isCacheValid_hit (w : World) (cache : ProxyCache) :
  cachedSnapshot E gpm w = Some cache ->
  now w - CacheTime cache <= 10 * Hour ->
  (forall h, os_fault E h OpReadFile = false) ->
  fst (isCacheValid E gpm w) = true.
Proof.
  intros Hc Hage Hread. unfold isCacheValid. run.
  assert (files w (cacheFile gpm) <> None) as Hfile.
  { unfold cachedSnapshot in Hc. destruct (files w (cacheFile gpm)); congruence. }
  pose proof (fileExists_readonly (cacheFile gpm) w) as H1.
  assert (fst (fileExists E (cacheFile gpm) w) = true) as Hex.
  { unfold fileExists, os_Stat. run. simpl.
    destruct (os_fault E (trace w) OpStat); [reflexivity|].
    destruct (files w (cacheFile gpm)); [reflexivity | congruence]. }
  destruct (fileExists E (cacheFile gpm) w) as [ex w1]. simpl in H1, Hex. subst ex.
  simpl.
  pose proof (readCacheFile_readonly w1) as H2.
  pose proof (readCacheFile_result w1) as H3.
  rewrite (cachedSnapshot_readonly _ _ H1), Hread, Hc in H3.
  destruct (readCacheFile E gpm w1) as [r w2]. simpl in H2, H3. subst r.
  unfold time_Now. rewrite time_Since_expired.
  assert (now w2 = now w) as ->.
  { destruct H1 as (_ & N1 & _), H2 as (_ & N2 & _). congruence. }
  destruct (Z.gtb_spec (now w - CacheTime cache) (10 * Hour)); [lia | reflexivity].
Qed.

Lemma loadFromCache_readonly (w : World) :
  readonly_step w (snd (loadFromCache E gpm w)).
Proof.
  unfold loadFromCache. run.
  pose proof (readCacheFile_readonly w) as H.
  destruct (readCacheFile E gpm w) as [r w1]. now destruct r.
Qed.

Lemma loadFromCache_result (w : World) (cache : ProxyCache) :
  cachedSnapshot E gpm w = Some cache ->
  os_fault E (trace w) OpReadFile = false ->
  fst (loadFromCache E gpm w) = Ok (CacheData cache).
Proof.
  intros Hc Hread. unfold loadFromCache. run.
  pose proof (readCacheFile_result w) as H. rewrite Hread, Hc in H.
  destruct (readCacheFile E gpm w) as [r w1]. simpl in H. now subst r.
Qed.

Lemma os_WriteFile_offline (p data : string) (w : World) :
  offline_step w (snd (os_WriteFile E p data w)).
Proof.
  unfold os_WriteFile, offline_step.
  destruct (os_fault E (trace w) OpWriteFile); cbn [snd];
    rewrite http_events_log; cbn [is_http]; apply app_nil_r.
Qed.

Lemma saveToCache_offline (apiResponse : GitHubProxyResponse) (w : World) :
  offline_step w (snd (saveToCache E gpm apiResponse w)).
Proof.
  unfold saveToCache, os_MkdirAll, time_Now. run.
  set (w1 := log (EvMkdirAll (filepath_Dir E (cacheFile gpm))) w).
  assert (offline_step w w1) as H1 by (now apply offline_step_log).
  destruct (os_fault E (trace w) OpMkdirAll); [exact H1|].
  destruct (json_MarshalProxyCache E _) as [data|]; [|exact H1].
  pose proof (os_WriteFile_offline (cacheFile gpm) data w1) as H2.
  destruct (os_WriteFile E (cacheFile gpm) data w1) as [r w2]. simpl in H2.
  destruct r; simpl; eapply offline_step_trans; eassumption.
Qed.

(** [fetchFromAPI] makes exactly one network call, to the directory
    service, and returns what its reply stands for. *)
Lemma fetchFromAPI_one_call (w : World) :
  let reply := http_reply E (trace w) githubProxyAPI None in
  http_events (trace (snd (fetchFromAPI E gpm w)))
  = (http_events (trace w) ++ [directoryCall reply])%list
  /\ fst (fetchFromAPI E gpm w) = directoryRecords E reply.
Proof.
  intros reply. unfold fetchFromAPI, http_Do. run. fold reply.
  fold (directoryCall reply).
  set (w1 := log (directoryCall reply) w).
  assert (http_events (trace w1)
          = (http_events (trace w) ++ [directoryCall reply])%list) as Hlog
    by (subst w1; now rewrite http_events_log).
  clearbody w1.
  destruct reply as [|status [body|]]; cbn [directoryRecords];
    try (split; [exact Hlog | reflexivity]);
    destruct (status =? 200)%Z; cbn [negb];
    try (split; [exact Hlog | reflexivity]).
  destruct (json_UnmarshalProxyResponse E body) as [apiResponse|];
    [|split; [exact Hlog | reflexivity]].
  destruct (Code apiResponse =? 200)%Z; cbn [negb];
    [|split; [exact Hlog | reflexivity]].
  pose proof (saveToCache_offline apiResponse w1) as Hs.
  destruct (saveToCache E gpm apiResponse w1) as [r w2]. cbn [snd] in Hs.
  unfold offline_step in Hs.
  destruct r; unfold fmt_Print; cbn [fst snd]; rewrite http_events_log;
    cbn [is_http]; rewrite app_nil_r, Hs, Hlog; split; reflexivity.
Qed.

End CatalogFacts.

Section GetProxiesFacts.

Variable E : Env.
Variable gpm : GitHubProxyManager.

(** The hit path: no network call, disk and clock untouched, and the
    records of the snapshot returned as they are stored. *)
Lemma GetProxies_hit (w : World) (cache : ProxyCache) :
  cachedSnapshot E gpm w = Some cache ->
  now w - CacheTime cache <= 10 * Hour ->
  (forall h, os_fault E h OpReadFile = false) ->
  fst (GetProxies E gpm w) = Ok (CacheData cache)
  /\ readonly_step w (snd (GetProxies E gpm w)).
Proof.
  intros Hc Hage Hread. unfold GetProxies. run.
  pose proof (isCacheValid_hit E gpm w cache Hc Hage Hread) as Hv.
  pose proof (isCacheValid_readonly E gpm w) as H1.
  destruct (isCacheValid E gpm w) as [valid w1]. cbn [fst snd] in Hv, H1.
  subst valid. split.
  - apply loadFromCache_result; [|apply Hread].
    now rewrite (cachedSnapshot_readonly E gpm _ _ H1).
  - eapply readonly_step_trans; [exact H1 | apply loadFromCache_readonly].
Qed.

(** The miss path: exactly one network call, the one to the directory
    service, and the records of its reply returned. *)
Lemma GetProxies_miss (w : World) :
  (cachedSnapshot E gpm w = None \/
   exists cache, cachedSnapshot E gpm w = Some cache
                 /\ now w - CacheTime cache > 10 * Hour) ->
  exists reply,
    http_events (trace (snd (GetProxies E gpm w)))
    = (http_events (trace w) ++ [directoryCall reply])%list
    /\ fst (GetProxies E gpm w) = directoryRecords E reply.
Proof.
  intros Hmiss. unfold GetProxies. run.
  pose proof (isCacheValid_miss E gpm w Hmiss) as Hv.
  pose proof (isCacheValid_readonly E gpm w) as (_ & _ & H1).
  destruct (isCacheValid E gpm w) as [valid w1]. cbn [fst snd] in Hv, H1.
  subst valid. unfold offline_step in H1.
  destruct (fetchFromAPI_one_call E gpm w1) as [Hev Hres].
  exists (http_reply E (trace w1) githubProxyAPI None).
  now rewrite Hev, H1, Hres.
Qed.

(** [ClearCache] returns nil only with the cache file gone. *)
Lemma ClearCache_ok_absent (w : World) :
  fst (ClearCache E gpm w) = Ok tt ->
  files (snd (ClearCache E gpm w)) (cacheFile gpm) = None.
Proof.
  unfold ClearCache, fileExists, os_Stat, os_Remove. run. cbn [fst snd].
  destruct (os_fault E (trace w) OpStat); cbn [os_IsNotExist negb].
  - destruct (os_fault E _ OpRemove); cbn [fst snd]; [discriminate|].
    cbn [files log].
    destruct (files w (cacheFile gpm)); cbn [fst snd]; [|discriminate].
    intros _. cbn. now rewrite String.eqb_refl.
  - destruct (files w (cacheFile gpm)) eqn:Hf; cbn [os_IsNotExist negb fst snd].
    + destruct (os_fault E _ OpRemove); cbn [fst snd]; [discriminate|].
      cbn [files log]. rewrite Hf. cbn. intros _. now rewrite String.eqb_refl.
    + intros _. exact Hf.
Qed.

Lemma ClearCache_offline (w : World) :
  offline_step w (snd (ClearCache E gpm w)).
Proof.
  unfold ClearCache, fileExists, os_Stat, os_Remove. run. cbn [fst snd].
  set (w1 := log (EvStat (cacheFile gpm)) w).
  assert (offline_step w w1) as H1 by (now apply offline_step_log).
  destruct (negb _); [exact H1|].
  assert (offline_step w1 (log (EvRemove (cacheFile gpm)) w1)) as H2
    by (now apply offline_step_log).
  assert (offline_step w1 (log (EvRemove (cacheFile gpm)) (set_file (cacheFile gpm) None w1))) as H3
    by (unfold offline_step; rewrite http_events_log; cbn [is_http];
        rewrite app_nil_r; reflexivity).
  destruct (os_fault E (trace w1) OpRemove); cbn [fst snd];
    [eapply offline_step_trans; eassumption|].
  destruct (files w1 (cacheFile gpm)); cbn [fst snd];
    eapply offline_step_trans; eassumption.
Qed.

(** With no file and a working [os.Stat], [ClearCache] succeeds and leaves
    the disk as it is. *)
Lemma ClearCache_absent (w : World) :
  files w (cacheFile gpm) = None ->
  os_fault E (trace w) OpStat = false ->
  fst (ClearCache E gpm w) = Ok tt
  /\ files (snd (ClearCache E gpm w)) = files w.
Proof.
  intros Hf Hstat. unfold ClearCache, fileExists, os_Stat. run.
  rewrite Hstat, Hf. cbn. split; reflexivity.
Qed.

(** With the file there and a working [os.Remove], [ClearCache] succeeds
    and the file is gone. *)
Lemma ClearCache_present (w : World) (data : string) :
  files w (cacheFile gpm) = Some data ->
  (forall h, os_fault E h OpRemove = false) ->
  fst (ClearCache E gpm w) = Ok tt
  /\ files (snd (ClearCache E gpm w)) (cacheFile gpm) = None.
Proof.
  intros Hf Hrm.
  assert (fst (ClearCache E gpm w) = Ok tt) as Hok.
  { unfold ClearCache, fileExists, os_Stat, os_Remove. run. cbn [fst snd].
    destruct (os_fault E (trace w) OpStat); rewrite ?Hf;
      cbn [os_IsNotExist negb]; rewrite Hrm; cbn [files log]; rewrite Hf;
      reflexivity. }
  split; [exact Hok | now apply ClearCache_ok_absent].
Qed.

End GetProxiesFacts.

(** C2: a snapshot of age [a] at most ten hours is returned as stored, in
    order, with no network call (the cache file being readable); a snapshot
    older than ten hours, or a cache file that is absent or does not parse,
    leads to exactly one call, to the directory service, and to the records
    of its reply. *)
Theorem GetProxies_cache_policy (E : Env) (gpm : GitHubProxyManager) (w : World) :
  let r := fst (GetProxies E gpm w) in
  let w' := snd (GetProxies E gpm w) in
  (forall cache a,
      cachedSnapshot E gpm w = Some cache ->
      a = now w - CacheTime cache ->
      (a <= 10 * Hour ->
       (forall h, os_fault E h OpReadFile = false) ->
       r = Ok (CacheData cache)
       /\ http_events (trace w') = http_events (trace w))
      /\
      (a > 10 * Hour ->
       exists reply,
         http_events (trace w') = (http_events (trace w) ++ [directoryCall reply])%list
         /\ r = directoryRecords E reply))
  /\
  (cachedSnapshot E gpm w = None ->
   exists reply,
     http_events (trace w') = (http_events (trace w) ++ [directoryCall reply])%list
     /\ r = directoryRecords E reply).
Proof.
  cbv zeta. split.
  - intros cache a Hc ->. split.
    + intros Hage Hread.
      destruct (GetProxies_hit E gpm w cache Hc Hage Hread) as (Hr & _ & _ & Hoff).
      split; [exact Hr | exact Hoff].
    + intros Hage. apply GetProxies_miss. right. now exists cache.
  - intros Hnone. apply GetProxies_miss. now left.
Qed.

Lemma GetProxies_cache_policy_witness :
  (fst (GetProxies catalogEnv (NewGitHubProxyManager catalogEnv) (Demo.withCache Hour))
   = Ok [Demo.slow; Demo.slower]
   /\ http_events (trace (snd (GetProxies catalogEnv (NewGitHubProxyManager catalogEnv)
                                 (Demo.withCache Hour)))) = [])
  /\
  (exists reply,
     http_events (trace (snd (GetProxies catalogEnv (NewGitHubProxyManager catalogEnv)
                                (Demo.withCache (11 * Hour)))))
     = [directoryCall reply]
     /\ fst (GetProxies catalogEnv (NewGitHubProxyManager catalogEnv)
               (Demo.withCache (11 * Hour)))
        = directoryRecords catalogEnv reply).
Proof.
  split.
  - destruct (GetProxies_cache_policy catalogEnv (NewGitHubProxyManager catalogEnv)
                (Demo.withCache Hour)) as [H _].
    destruct (H (Demo.snapshot [Demo.slow; Demo.slower] 0) Hour eq_refl eq_refl)
      as [Hhit _].
    apply Hhit; [unfold Hour, Second; lia | reflexivity].
  - destruct (GetProxies_cache_policy catalogEnv (NewGitHubProxyManager catalogEnv)
                (Demo.withCache (11 * Hour))) as [H _].
    destruct (H (Demo.snapshot [Demo.slow; Demo.slower] 0) (11 * Hour) eq_refl eq_refl)
      as [_ Hmiss].
    apply Hmiss. unfold Hour, Second. lia.
Defined.

(** C7: when the directory service has answered with a good listing and
    saving the snapshot then fails, [fetchFromAPI] prints the error and
    still returns the records of the listing, and so does [GetProxies]. *)
Theorem GetProxies_survives_save_failure (E : Env) (gpm : GitHubProxyManager)
    (w0 w w1 : World) (body : string) (apiResponse : GitHubProxyResponse)
    (e : error) :
  let reply := Response 200 (Some body) in
  isCacheValid E gpm w0 = (false, w) ->
  http_reply E (trace w) githubProxyAPI None = reply ->
  json_UnmarshalProxyResponse E body = Some apiResponse ->
  Code apiResponse = 200 ->
  saveToCache E gpm apiResponse (log (directoryCall reply) w) = (Err e, w1) ->
  fetchFromAPI E gpm w
  = (Ok (Data apiResponse), log (EvPrint (MsgSaveCacheFailed e)) w1)
  /\ GetProxies E gpm w0
     = (Ok (Data apiResponse), log (EvPrint (MsgSaveCacheFailed e)) w1).
Proof.
  intros reply Hvalid Hreply Hbody Hcode Hsave.
  assert (fetchFromAPI E gpm w
          = (Ok (Data apiResponse), log (EvPrint (MsgSaveCacheFailed e)) w1)) as Hfetch.
  { unfold fetchFromAPI, http_Do. run. rewrite Hreply. subst reply.
    cbn [Z.eqb Pos.eqb negb]. rewrite Hbody, Hcode. cbn [Z.eqb Pos.eqb negb].
    unfold directoryCall in Hsave. rewrite Hsave. reflexivity. }
  split; [exact Hfetch|].
  unfold GetProxies. run. rewrite Hvalid. exact Hfetch.
Qed.

Lemma GetProxies_survives_save_failure_witness :
  fst (GetProxies readOnlyEnv (NewGitHubProxyManager readOnlyEnv) (Demo.emptyDisk 0))
  = Ok [Demo.slower; Demo.slow]
  /\ In (EvPrint (MsgSaveCacheFailed (ErrWriteCache LibError)))
        (trace (snd (GetProxies readOnlyEnv (NewGitHubProxyManager readOnlyEnv)
                       (Demo.emptyDisk 0)))).
Proof.
  pose (gpm := NewGitHubProxyManager readOnlyEnv).
  pose (w := snd (isCacheValid readOnlyEnv gpm (Demo.emptyDisk 0))).
  pose (reply := Response 200 (Some "directory.json")).
  pose (w1 := snd (saveToCache readOnlyEnv gpm
                     (Demo.directory [Demo.slower; Demo.slow])
                     (log (directoryCall reply) w))).
  destruct (GetProxies_survives_save_failure readOnlyEnv gpm (Demo.emptyDisk 0)
              w w1 "directory.json" (Demo.directory [Demo.slower; Demo.slow])
              (ErrWriteCache LibError))
    as [_ Hget]; try (vm_compute; reflexivity).
  fold gpm. rewrite Hget. split; [reflexivity|].
  cbn [snd log trace]. apply in_or_app. right. now left.
Defined.

(** C8: [ClearCache] succeeds on an absent cache file and changes nothing;
    it removes a cache file that is there; a clear after a successful clear
    succeeds again; and whenever it has succeeded the file is gone and the
    next [GetProxies] cannot hit the cache: it makes exactly one call, to
    the directory service. *)
Theorem ClearCache_idempotent (E : Env) (gpm : GitHubProxyManager) (w : World) :
  let w' := snd (ClearCache E gpm w) in
  (files w (cacheFile gpm) = None ->
   os_fault E (trace w) OpStat = false ->
   fst (ClearCache E gpm w) = Ok tt /\ files w' = files w)
  /\
  (forall data,
      files w (cacheFile gpm) = Some data ->
      (forall h, os_fault E h OpRemove = false) ->
      fst (ClearCache E gpm w) = Ok tt /\ files w' (cacheFile gpm) = None)
  /\
  (fst (ClearCache E gpm w) = Ok tt ->
   files w' (cacheFile gpm) = None
   /\ http_events (trace w') = http_events (trace w)
   /\ (os_fault E (trace w') OpStat = false ->
       fst (ClearCache E gpm w') = Ok tt
       /\ files (snd (ClearCache E gpm w')) = files w')
   /\ exists reply,
        http_events (trace (snd (GetProxies E gpm w')))
        = (http_events (trace w') ++ [directoryCall reply])%list
        /\ fst (GetProxies E gpm w') = directoryRecords E reply).
Proof.
  cbv zeta. split; [|split].
  - intros Hf Hstat. now apply ClearCache_absent.
  - intros data Hf Hrm. now apply ClearCache_present with data.
  - intros Hok. pose proof (ClearCache_ok_absent E gpm w Hok) as Hgone.
    split; [exact Hgone|]. split; [apply ClearCache_offline|]. split.
    + intros Hstat. now apply ClearCache_absent.
    + apply GetProxies_miss. left. unfold cachedSnapshot. now rewrite Hgone.
Qed.

Lemma ClearCache_idempotent_witness :
  let gpm := NewGitHubProxyManager catalogEnv in
  let w' := snd (ClearCache catalogEnv gpm (Demo.withCache Hour)) in
  (fst (ClearCache catalogEnv gpm (Demo.emptyDisk Hour)) = Ok tt)
  /\ (fst (ClearCache catalogEnv gpm (Demo.withCache Hour)) = Ok tt
      /\ files w' (cacheFile gpm) = None)
  /\ (exists reply,
        http_events (trace (snd (GetProxies catalogEnv gpm w')))
        = (http_events (trace w') ++ [directoryCall reply])%list
        /\ fst (GetProxies catalogEnv gpm w') = directoryRecords catalogEnv reply).
Proof.
  cbv zeta.
  pose (gpm := NewGitHubProxyManager catalogEnv).
  destruct (ClearCache_idempotent catalogEnv gpm (Demo.emptyDisk Hour))
    as (Habsent & _ & _).
  destruct (ClearCache_idempotent catalogEnv gpm (Demo.withCache Hour))
    as (_ & Hpresent & Hafter).
  split; [|split].
  - apply Habsent; reflexivity.
  - apply (Hpresent "github_proxy.json"); reflexivity.
  - destruct Hafter as (_ & _ & _ & Hnext); [vm_compute; reflexivity | exact Hnext].
Defined.

(** The [update] subcommand clears and then asks again: when the clear
    succeeds, the catalog is fetched from the directory service, whatever
    the cache held. *)
Lemma proxy_update_refreshes (E : Env) (w : World) :
  fst (ClearCache E (NewGitHubProxyManager E) w) = Ok tt ->
  exists reply,
    http_events (trace (snd (handleProxyCommand E ["update"] w)))
    = (http_events (trace w) ++ [directoryCall reply])%list.
Proof.
  intros Hok. unfold handleProxyCommand. cbn [String.eqb Ascii.eqb Bool.eqb orb].
  run.
  pose proof (ClearCache_ok_absent E _ w Hok) as Hgone.
  pose proof (ClearCache_offline E (NewGitHubProxyManager E) w) as Hoff.
  destruct (ClearCache E (NewGitHubProxyManager E) w) as [r w1].
  cbn [snd] in Hgone, Hoff. unfold offline_step in Hoff.
  destruct (GetProxies_miss E (NewGitHubProxyManager E) w1) as (reply & Hev & _).
  { left. unfold cachedSnapshot. now rewrite Hgone. }
  exists reply.
  destruct (GetProxies E (NewGitHubProxyManager E) w1) as [r2 w2].
  cbn [snd] in *. now rewrite Hev, Hoff.
Qed.

(* ================================================================== *)
(** * The fallback chain *)
(* ================================================================== *)

Lemma requested_app (via : Caller) (l1 l2 : list Event) :
  requested via (l1 ++ l2) = (requested via l1 ++ requested via l2)%list.
Proof. unfold requested. apply flat_map_app. Qed.

Lemma requested_http_events (via : Caller) (tr : list Event) :
  requested via (http_events tr) = requested via tr.
Proof.
  induction tr as [|e tr IH]; [reflexivity|].
  destruct e; simpl; try exact IH. now rewrite IH.
Qed.

Lemma requested_log (via : Caller) (e : Event) (w : World) :
  requested via (trace (log e w))
  = (requested via (trace w) ++ requested via [e])%list.
Proof. unfold log. cbn [trace]. apply requested_app. Qed.

Section ChainFacts.

Context {A : Type}.
Variable fetch : string -> M (result A).

Lemma chain_prefix (cands : list string) (w : World) (done : list string)
    (r : option A) (w' : World) :
  chain fetch cands w done r w' ->
  done = firstn (List.length done) cands
  /\ (List.length done <= List.length cands)%nat
  /\ (r = None -> done = cands).
Proof.
  induction 1 as [w | c cs w w1 a Hf | c cs w w1 e done r w' Hf Hch IH].
  - repeat split. apply Nat.le_refl.
  - repeat split; simpl; [lia | discriminate].
  - destruct IH as (Hpre & Hlen & Hnone). simpl. repeat split.
    + now rewrite <- Hpre.
    + lia.
    + intros Hr. now rewrite (Hnone Hr).
Qed.

(** When every fetch logs exactly its own request, the chain logs the
    candidates it fetched, in order. *)
Lemma chain_requested (via : Caller) (cands : list string) (w : World)
    (done : list string) (r : option A) (w' : World) :
  (forall u w0, requested via (trace (snd (fetch u w0)))
                = (requested via (trace w0) ++ [u])%list) ->
  chain fetch cands w done r w' ->
  requested via (trace w') = (requested via (trace w) ++ done)%list.
Proof.
  intros Hone.
  induction 1 as [w | c cs w w1 a Hf | c cs w w1 e done r w' Hf Hch IH].
  - now rewrite app_nil_r.
  - pose proof (Hone c w) as H. now rewrite Hf in H.
  - pose proof (Hone c w) as H. rewrite Hf in H. cbn [snd] in H.
    rewrite IH, H, <- app_assoc. reflexivity.
Qed.

(** A chain is a function of the candidates and the starting world. *)
Lemma chain_deterministic (cands : list string) (w : World)
    (done1 done2 : list string) (r1 r2 : option A) (w1 w2 : World) :
  chain fetch cands w done1 r1 w1 ->
  chain fetch cands w done2 r2 w2 ->
  done1 = done2 /\ r1 = r2 /\ w1 = w2.
Proof.
  intros H1. revert done2 r2 w2.
  induction H1 as [w | c cs w w1 a Hf | c cs w w1 e done r w' Hf Hch IH];
    intros done2 r2 w2 H2; inversion H2; subst;
    try match goal with
        | Hg : fetch ?c ?w = _ |- _ => rewrite Hf in Hg; inversion Hg; subst
        end.
  - repeat split.
  - repeat split.
  - match goal with
    | Hc : chain fetch cs _ _ _ _ |- _ =>
        destruct (IH _ _ _ Hc) as (-> & -> & ->)
    end.
    repeat split.
Qed.

(** The loop of the source, with its counter and its [break], is the chain
    over the first [maxRetry - tried] records. *)
Lemma rangeProxies_chain (url_of : GitHubProxyData -> string) (maxRetry : Z)
    (proxies : list GitHubProxyData) :
  forall (tried : Z) (w : World),
  exists done r w',
    chain fetch (map url_of (firstn (Z.to_nat (maxRetry - tried)) proxies)) w done r w'
    /\ rangeProxies (fun proxy => fetch (url_of proxy)) maxRetry proxies tried w
       = (r, w').
Proof.
  induction proxies as [|proxy rest IH]; intros tried w.
  - exists [], None, w. rewrite firstn_nil. split; [constructor | reflexivity].
  - cbn [rangeProxies]. destruct (Z.geb_spec tried maxRetry) as [Hge | Hlt].
    + exists [], None, w. replace (Z.to_nat (maxRetry - tried)) with 0%nat by lia.
      split; [constructor | reflexivity].
    + replace (Z.to_nat (maxRetry - tried))
        with (S (Z.to_nat (maxRetry - (tried + 1)))) by lia.
      cbn [firstn map]. unfold bind.
      destruct (fetch (url_of proxy) w) as [[a | e] w1] eqn:Hf.
      * exists [url_of proxy], (Some a), w1. split; [now constructor | reflexivity].
      * destruct (IH (tried + 1) w1) as (done & r & w' & Hch & Hrun).
        exists (url_of proxy :: done), r, w'. split; [|exact Hrun].
        now apply chain_failure with w1 e.
Qed.

End ChainFacts.

Section FallbackFacts.

Variable E : Env.

(** [downloadWithTimeout] makes one request and nothing else. *)
Lemma downloadWithTimeout_trace (url : string) (t : Duration) (w : World) :
  snd (downloadWithTimeout E url t w)
  = log (EvHTTP ViaDownloadWithTimeout url (Some t)
           (http_reply E (trace w) url (Some t))) w.
Proof.
  unfold downloadWithTimeout, http_Do. run.
  destruct (http_reply E (trace w) url (Some t)) as [|status [body|]];
    cbn [snd]; try reflexivity; now destruct (negb (status =? 200)%Z).
Qed.

Lemma downloadWithTimeout_requested (via : Caller) (url : string) (t : Duration)
    (w : World) :
  requested via (trace (snd (downloadWithTimeout E url t w)))
  = (requested via (trace w)
     ++ if Caller_eqb ViaDownloadWithTimeout via then [url] else [])%list.
Proof.
  rewrite downloadWithTimeout_trace, requested_log. cbn [requested flat_map].
  now rewrite app_nil_r.
Qed.

(** [downloadFile] makes one request; what follows is local. *)
Lemma downloadFile_http (url localPath : string) (t : Duration) (w : World) :
  http_events (trace (snd (downloadFile E url localPath t w)))
  = (http_events (trace w)
     ++ [EvHTTP ViaDownloadFile url (Some t) (http_reply E (trace w) url (Some t))])%list.
Proof.
  unfold downloadFile, http_Do. run.
  set (w1 := log _ w).
  assert (http_events (trace w1)
          = (http_events (trace w)
             ++ [EvHTTP ViaDownloadFile url (Some t)
                   (http_reply E (trace w) url (Some t))])%list) as Hlog
    by (subst w1; now rewrite http_events_log).
  clearbody w1.
  destruct (http_reply E (trace w) url (Some t)) as [|status body];
    [exact Hlog|].
  destruct (negb (status =? 200)%Z); [exact Hlog|].
  unfold os_Create, io_Copy.
  destruct (os_fault E (trace w1) OpCreate); cbn [fst snd];
    [rewrite http_events_log; cbn [is_http]; now rewrite app_nil_r|].
  set (w2 := log (EvCreate localPath) _).
  assert (http_events (trace w2) = http_events (trace w1)) as Hcreate
    by (subst w2; rewrite http_events_log; cbn [is_http];
        now rewrite app_nil_r).
  clearbody w2.
  destruct body as [data|]; [destruct (os_fault E (trace w2) OpCopy)|];
    cbn [snd]; rewrite http_events_set_file; congruence.
Qed.

Lemma downloadFile_requested (via : Caller) (url localPath : string)
    (t : Duration) (w : World) :
  requested via (trace (snd (downloadFile E url localPath t w)))
  = (requested via (trace w)
     ++ if Caller_eqb ViaDownloadFile via then [url] else [])%list.
Proof.
  rewrite <- requested_http_events, downloadFile_http, requested_app,
    requested_http_events.
  cbn [requested flat_map]. now rewrite app_nil_r.
Qed.

(** [GetProxies] makes no network call, or the one directory call. *)
Lemma GetProxies_http (gpm : GitHubProxyManager) (w : World) :
  exists calls,
    http_events (trace (snd (GetProxies E gpm w)))
    = (http_events (trace w) ++ calls)%list
    /\ (calls = [] \/ exists reply, calls = [directoryCall reply]).
Proof.
  unfold GetProxies. run.
  pose proof (isCacheValid_readonly E gpm w) as (_ & _ & H1).
  destruct (isCacheValid E gpm w) as [valid w1]. cbn [snd] in H1.
  unfold offline_step in H1. destruct valid.
  - pose proof (loadFromCache_readonly E gpm w1) as (_ & _ & H2).
    unfold offline_step in H2. exists []. rewrite app_nil_r.
    split; [congruence | now left].
  - destruct (fetchFromAPI_one_call E gpm w1) as [Hev _].
    exists [directoryCall (http_reply E (trace w1) githubProxyAPI None)].
    rewrite Hev, H1. split; [reflexivity | right; eauto].
Qed.

Lemma GetProxies_requested (gpm : GitHubProxyManager) (via : Caller) (w : World) :
  Caller_eqb ViaFetchFromAPI via = false ->
  requested via (trace (snd (GetProxies E gpm w))) = requested via (trace w).
Proof.
  intros Hvia. destruct (GetProxies_http gpm w) as (calls & Hev & Hcalls).
  rewrite <- requested_http_events, Hev, requested_app, requested_http_events.
  destruct Hcalls as [-> | (reply & ->)]; cbn [requested flat_map directoryCall];
    rewrite ?Hvia; cbn [app]; apply app_nil_r.
Qed.

Lemma mirror_code_phase {A B : Type} (gpm : GitHubProxyManager)
    (fetch : string -> M (result A)) (via : Caller) (maxRetry : Z) (url : string)
    (finish : A -> result B) (allFailed : error) (w1 : World) :
  Caller_eqb ViaFetchFromAPI via = false ->
  (forall u w0, requested via (trace (snd (fetch u w0)))
                = (requested via (trace w0) ++ [u])%list) ->
  mirror_phase E gpm fetch via (Z.to_nat maxRetry) url finish allFailed w1
    (mirror_code E gpm fetch maxRetry url finish allFailed w1).
Proof.
  intros Hvia Hone. unfold mirror_phase, mirror_code. run.
  pose proof (GetProxies_requested gpm via w1 Hvia) as Hget.
  destruct (GetProxies E gpm w1) as [[proxies | e] w2]; cbn [snd] in Hget.
  - destruct (rangeProxies_chain fetch (proxyURL url) maxRetry
                (sort_Slice E proxies bySpeedDesc) 0 w2)
      as (done & r & w3 & Hch & Hrun).
    rewrite Z.sub_0_r in Hch. fold (mirrorCandidates E (Z.to_nat maxRetry) url proxies) in Hch.
    destruct (chain_prefix fetch _ _ _ _ _ Hch) as (Hpre & Hlen & Hnone).
    exists done, r, w3. repeat split; try assumption.
    + etransitivity; [exact Hlen|]. unfold mirrorCandidates.
      rewrite length_map. apply firstn_le_length.
    + rewrite (chain_requested fetch via _ _ _ _ _ Hone Hch). now rewrite Hget.
    + cbv zeta. rewrite Hrun. now destruct r.
  - split; [reflexivity | exact Hget].
Qed.

End FallbackFacts.

Section DownloaderFacts.

Variable E : Env.
Variable md : ModuleDownloader.

Lemma manifestFetch_requested (u : string) (w0 : World) :
  requested ViaDownloadWithTimeout (trace (snd (manifestFetch E md u w0)))
  = (requested ViaDownloadWithTimeout (trace w0) ++ [u])%list.
Proof. unfold manifestFetch. now rewrite downloadWithTimeout_requested. Qed.

Lemma payloadFetch_requested (localPath u : string) (w0 : World) :
  requested ViaDownloadFile (trace (snd (payloadFetch E localPath u w0)))
  = (requested ViaDownloadFile (trace w0) ++ [u])%list.
Proof. unfold payloadFetch. now rewrite downloadFile_requested. Qed.

Lemma downloadUpdateJSON_fallback (repo : string) (w : World) :
  fallback E (gpm md) (manifestFetch E md) ViaDownloadWithTimeout (Z.to_nat (maxRetry md))
    (buildUpdateURL repo) (parseUpdateJSON E) ErrAllDownloadsFailed w
    (downloadUpdateJSON E md repo w).
Proof.
  unfold fallback.
  pose proof (manifestFetch_requested (buildUpdateURL repo) w) as Hreq.
  change (downloadUpdateJSON E md repo w)
    with (let (r, w1) := manifestFetch E md (buildUpdateURL repo) w in
          match r with
          | Ok data => ret (parseUpdateJSON E data)
          | Err _ => mirror_code E (gpm md) (manifestFetch E md) (maxRetry md)
                       (buildUpdateURL repo) (parseUpdateJSON E)
                       ErrAllDownloadsFailed
          end w1).
  destruct (manifestFetch E md (buildUpdateURL repo) w) as [[data | e] w1];
    cbn [snd] in Hreq.
  - split; [reflexivity | exact Hreq].
  - split; [exact Hreq|].
    apply mirror_code_phase; [reflexivity | apply manifestFetch_requested].
Qed.

Lemma downloadWithProxies_phase (url localPath : string) (w1 : World) :
  mirror_phase E (gpm md) (payloadFetch E localPath) ViaDownloadFile
    (Z.to_nat (maxRetry md)) url (fun _ => Ok localPath)
    ErrAllProxyDownloadsFailed w1
    (downloadWithProxies E md url localPath w1).
Proof.
  change (downloadWithProxies E md url localPath w1)
    with (mirror_code E (gpm md) (payloadFetch E localPath) (maxRetry md) url
            (fun _ : unit => Ok localPath) ErrAllProxyDownloadsFailed w1).
  apply mirror_code_phase; [reflexivity | apply payloadFetch_requested].
Qed.

Lemma downloadModule_sequence (updateInfo : UpdateInfo) (w0 w : World) :
  os_MkdirAll E (cacheDir md) w0 = (Ok tt, w) ->
  payload_sequence E md updateInfo w (downloadModule E md updateInfo w0).
Proof.
  intros Hmk. unfold payload_sequence, downloadModule. run. rewrite Hmk.
  cbv zeta. fold (payloadFetch E (modulePath E md updateInfo)).
  set (path := modulePath E md updateInfo).
  set (url := ZipURL updateInfo).
  pose proof (payloadFetch_requested path url w) as H1.
  fold (payloadFetch E path url).
  destruct (payloadFetch E path url w) as [[u | e] w1]; cbn [snd] in H1.
  - split; [reflexivity | exact H1].
  - split; [exact H1|].
    destruct (String.eqb (extractGitHubURL url) url); cbn [negb].
    + apply downloadWithProxies_phase.
    + pose proof (payloadFetch_requested path (extractGitHubURL url) w1) as H2.
      fold (payloadFetch E path (extractGitHubURL url)).
      destruct (payloadFetch E path (extractGitHubURL url) w1) as [[u | e2] w2];
        cbn [snd] in H2.
      * split; [reflexivity | exact H2].
      * split; [exact H2 | apply downloadWithProxies_phase].
Qed.

(** For a payload URL that carries no known prefix, [downloadModule] is
    the plain fallback: one direct fetch, then the mirrors. *)
Lemma downloadModule_fallback (updateInfo : UpdateInfo) (w0 w : World) :
  extractGitHubURL (ZipURL updateInfo) = ZipURL updateInfo ->
  os_MkdirAll E (cacheDir md) w0 = (Ok tt, w) ->
  fallback E (gpm md) (payloadFetch E (modulePath E md updateInfo)) ViaDownloadFile
    (Z.to_nat (maxRetry md)) (ZipURL updateInfo)
    (fun _ => Ok (modulePath E md updateInfo)) ErrAllProxyDownloadsFailed w
    (downloadModule E md updateInfo w0).
Proof.
  intros Hcanon Hmk. pose proof (downloadModule_sequence updateInfo w0 w Hmk) as H.
  unfold payload_sequence in H. cbv zeta in H. unfold fallback.
  destruct (payloadFetch E (modulePath E md updateInfo) (ZipURL updateInfo) w)
    as [[u | e] w1]; [exact H|].
  rewrite Hcanon, String.eqb_refl in H. exact H.
Qed.

(** In a fallback the requests are the direct one and then at most [limit]
    mirror requests. *)
Lemma fallback_bound {A B : Type} (fetch : string -> M (result A)) (via : Caller)
    (limit : nat) (url : string) (finish : A -> result B) (allFailed : error)
    (w : World) (run : result B * World) :
  fallback E (gpm md) fetch via limit url finish allFailed w run ->
  exists mirrors,
    requested via (trace (snd run)) = (requested via (trace w) ++ url :: mirrors)%list
    /\ (List.length mirrors <= limit)%nat.
Proof.
  unfold fallback, mirror_phase.
  destruct (fetch url w) as [[a | e] w1].
  - intros [-> Hreq]. exists []. split; [exact Hreq | apply Nat.le_0_l].
  - intros [Hreq Hph].
    destruct (GetProxies E (gpm md) w1) as [[proxies | e'] w2].
    + destruct Hph as (done & r & w3 & _ & _ & Hlen & _ & Hreq3 & ->).
      exists done. cbn [snd]. rewrite Hreq3, Hreq, <- app_assoc.
      split; [reflexivity | exact Hlen].
    + destruct Hph as [-> Hreq2]. exists []. cbn [snd]. rewrite Hreq2, Hreq.
      split; [reflexivity | apply Nat.le_0_l].
Qed.

End DownloaderFacts.

(** C1: for manifests and for payloads (a payload URL that carries no
    known prefix) the fetch is the fallback chain: one direct fetch of the
    URL; on its success the result is its body (parsed) or the path, and
    nothing else is asked; on its failure the catalog is asked and the
    mirrors ranked by [sort.Slice] are fetched in order, one at a time, at
    most 10 of them, up to the first success, whose body or path is the
    result; when all of them fail the result is the all-attempts-failed
    error.  In all, at most 1 + 10 URLs are requested. *)
Theorem fallback_fetch_sequence (E : Env) :
  let md := NewModuleDownloader E in
  (forall repo w,
      let run := downloadUpdateJSON E md repo w in
      fallback E (gpm md) (manifestFetch E md) ViaDownloadWithTimeout 10
        (buildUpdateURL repo) (parseUpdateJSON E) ErrAllDownloadsFailed w run
      /\ exists mirrors,
           requested ViaDownloadWithTimeout (trace (snd run))
           = (requested ViaDownloadWithTimeout (trace w)
              ++ buildUpdateURL repo :: mirrors)%list
           /\ (1 + List.length mirrors <= 1 + 10)%nat)
  /\
  (forall updateInfo w0 w,
      extractGitHubURL (ZipURL updateInfo) = ZipURL updateInfo ->
      os_MkdirAll E (cacheDir md) w0 = (Ok tt, w) ->
      let run := downloadModule E md updateInfo w0 in
      fallback E (gpm md) (payloadFetch E (modulePath E md updateInfo))
        ViaDownloadFile 10 (ZipURL updateInfo)
        (fun _ => Ok (modulePath E md updateInfo)) ErrAllProxyDownloadsFailed w run
      /\ exists mirrors,
           requested ViaDownloadFile (trace (snd run))
           = (requested ViaDownloadFile (trace w)
              ++ ZipURL updateInfo :: mirrors)%list
           /\ (1 + List.length mirrors <= 1 + 10)%nat).
Proof.
  cbv zeta. split.
  - intros repo w.
    pose proof (downloadUpdateJSON_fallback E (NewModuleDownloader E) repo w) as H.
    change (Z.to_nat (maxRetry (NewModuleDownloader E))) with 10%nat in H.
    split; [exact H|].
    destruct (fallback_bound E _ _ _ _ _ _ _ _ _ H) as (mirrors & Hreq & Hlen).
    exists mirrors. split; [exact Hreq | lia].
  - intros updateInfo w0 w Hcanon Hmk.
    pose proof (downloadModule_fallback E (NewModuleDownloader E) updateInfo w0 w
                  Hcanon Hmk) as H.
    change (Z.to_nat (maxRetry (NewModuleDownloader E))) with 10%nat in H.
    split; [exact H|].
    destruct (fallback_bound E _ _ _ _ _ _ _ _ _ H) as (mirrors & Hreq & Hlen).
    exists mirrors. split; [exact Hreq | lia].
Qed.

(** The third-ranked mirror is the first to answer: the payload is asked
    for directly and then at the three best mirrors, and no further. *)
Lemma fallback_fetch_sequence_witness :
  let E := mirrorEnv Demo.zipURL in
  let md := NewModuleDownloader E in
  let updateInfo := Demo.manifest Demo.zipURL in
  let w0 := Demo.withCache Hour in
  let run := downloadModule E md updateInfo w0 in
  extractGitHubURL (ZipURL updateInfo) = ZipURL updateInfo
  /\ fallback E (gpm md) (payloadFetch E (modulePath E md updateInfo))
       ViaDownloadFile 10 (ZipURL updateInfo)
       (fun _ => Ok (modulePath E md updateInfo)) ErrAllProxyDownloadsFailed
       (snd (os_MkdirAll E (cacheDir md) w0)) run
  /\ requested ViaDownloadFile (trace (snd run))
     = [ Demo.zipURL;
         "https://gh.b52m.cn/" ++ Demo.zipURL;
         "https://github.moeyy.xyz/" ++ Demo.zipURL;
         "https://ghproxy.cc/" ++ Demo.zipURL ]
  /\ fst run = Ok "/home/u/data/adb/.rmm/CACHE/downloads/module_v1.0_100.zip".
Proof.
  cbv zeta.
  destruct (fallback_fetch_sequence (mirrorEnv Demo.zipURL)) as [_ Hpayload].
  destruct (Hpayload (Demo.manifest Demo.zipURL) (Demo.withCache Hour)
              (snd (os_MkdirAll (mirrorEnv Demo.zipURL)
                      (cacheDir (NewModuleDownloader (mirrorEnv Demo.zipURL)))
                      (Demo.withCache Hour))))
    as [Hfb _]; try (vm_compute; reflexivity).
  split; [vm_compute; reflexivity|]. split; [exact Hfb|].
  split; vm_compute; reflexivity.
Defined.

(** The same on the manifest side: the manifest is asked for directly and
    then at the three best mirrors. *)
Example manifest_third_mirror :
  let E := mirrorEnv Demo.zipURL in
  let run := downloadUpdateJSON E (NewModuleDownloader E) "o/r" (Demo.withCache Hour) in
  requested ViaDownloadWithTimeout (trace (snd run))
  = [ buildUpdateURL "o/r";
      "https://gh.b52m.cn/" ++ buildUpdateURL "o/r";
      "https://github.moeyy.xyz/" ++ buildUpdateURL "o/r";
      "https://ghproxy.cc/" ++ buildUpdateURL "o/r" ]
  /\ fst run = Ok (Demo.manifest Demo.zipURL).
Proof. cbv zeta. split; vm_compute; reflexivity. Qed.

(* ================================================================== *)
(** * Payload retrieval and the normalizer *)
(* ================================================================== *)

(** C4 as stated fails: for a payload URL that carries a known mirror
    prefix, the first request of [downloadModule] is the URL as given, still
    wrapped, not its origin; here that request succeeds and the origin is
    never asked at all. *)
Lemma payload_first_fetch_is_wrapped :
  let E := mirrorEnv wrappedZipURL in
  let run := downloadModule E (NewModuleDownloader E) (Demo.manifest wrappedZipURL)
               (Demo.withCache Hour) in
  HasPrefix wrappedZipURL "https://ghproxy.cc/" = true
  /\ extractGitHubURL wrappedZipURL = Demo.zipURL
  /\ requested ViaDownloadFile (trace (snd run)) = [wrappedZipURL]
  /\ hd_error (requested ViaDownloadFile (trace (snd run)))
     <> Some (extractGitHubURL wrappedZipURL)
  /\ ~ In (extractGitHubURL wrappedZipURL)
          (requested ViaDownloadFile (trace (snd run))).
Proof.
  cbv zeta.
  assert (requested ViaDownloadFile
            (trace (snd (downloadModule (mirrorEnv wrappedZipURL)
                           (NewModuleDownloader (mirrorEnv wrappedZipURL))
                           (Demo.manifest wrappedZipURL) (Demo.withCache Hour))))
          = [wrappedZipURL]) as Hreq by (vm_compute; reflexivity).
  assert (extractGitHubURL wrappedZipURL = Demo.zipURL) as Hx
    by (vm_compute; reflexivity).
  assert (wrappedZipURL <> Demo.zipURL) as Hne
    by (apply app_neq_self; discriminate).
  rewrite Hreq, Hx.
  repeat split; try (vm_compute; reflexivity).
  - cbn [hd_error]. congruence.
  - intros [H | []]. exact (Hne H).
Qed.

(** C4, amended: once the download directory is there, a payload URL
    [p ++ u] with a known mirror prefix [p] is first fetched as given; only
    if that fails is the prefix stripped and the origin [u] fetched
    directly; and only if that fails too does the mirror phase start, with
    every mirror wrapped around the origin [u], not around [p ++ u]. *)
Theorem payload_fetch_order (E : Env) (updateInfo : UpdateInfo) (p u : string)
    (w0 w : World) :
  let md := NewModuleDownloader E in
  let path := modulePath E md updateInfo in
  let run := downloadModule E md updateInfo w0 in
  In p prefixes ->
  ZipURL updateInfo = p ++ u ->
  os_MkdirAll E (cacheDir md) w0 = (Ok tt, w) ->
  match payloadFetch E path (p ++ u) w with
  | (Ok _, w1) =>
      run = (Ok path, w1)
      /\ requested ViaDownloadFile (trace w1)
         = (requested ViaDownloadFile (trace w) ++ [(p ++ u)%string])%list
  | (Err _, w1) =>
      requested ViaDownloadFile (trace w1)
      = (requested ViaDownloadFile (trace w) ++ [(p ++ u)%string])%list
      /\ match payloadFetch E path u w1 with
         | (Ok _, w2) =>
             run = (Ok path, w2)
             /\ requested ViaDownloadFile (trace w2)
                = (requested ViaDownloadFile (trace w1) ++ [u])%list
         | (Err _, w2) =>
             requested ViaDownloadFile (trace w2)
             = (requested ViaDownloadFile (trace w1) ++ [u])%list
             /\ mirror_phase E (gpm md) (payloadFetch E path) ViaDownloadFile 10
                  u (fun _ => Ok path) ErrAllProxyDownloadsFailed w2 run
         end
  end.
Proof.
  cbv zeta. intros Hp Hurl Hmk.
  pose proof (downloadModule_sequence E (NewModuleDownloader E) updateInfo w0 w Hmk)
    as H.
  unfold payload_sequence in H. cbv zeta in H.
  rewrite Hurl, (extractGitHubURL_strips p u Hp) in H.
  change (Z.to_nat (maxRetry (NewModuleDownloader E))) with 10%nat in H.
  assert (String.eqb u (p ++ u) = false) as Hne.
  { apply String.eqb_neq. intros Heq. symmetry in Heq. revert Heq.
    apply app_neq_self. now apply known_prefix_nonempty. }
  rewrite Hne in H. exact H.
Qed.

Lemma payload_fetch_order_witness :
  let E := githubEnv in
  let md := NewModuleDownloader E in
  let run := downloadModule E md (Demo.manifest wrappedZipURL) (Demo.withCache Hour) in
  In "https://ghproxy.cc/" prefixes
  /\ requested ViaDownloadFile (trace (snd run)) = [wrappedZipURL; Demo.zipURL]
  /\ fst run = Ok (modulePath E md (Demo.manifest wrappedZipURL)).
Proof.
  cbv zeta.
  pose proof (payload_fetch_order githubEnv (Demo.manifest wrappedZipURL)
                "https://ghproxy.cc/" Demo.zipURL (Demo.withCache Hour)
                (snd (os_MkdirAll githubEnv (cacheDir (NewModuleDownloader githubEnv))
                        (Demo.withCache Hour)))
                (or_introl eq_refl) eq_refl eq_refl) as H.
  cbv zeta in H.
  split; [now left|].
  destruct (payloadFetch githubEnv _ ("https://ghproxy.cc/" ++ Demo.zipURL) _)
    as [[u1 | e1] w1] eqn:H1; [vm_compute in H1; discriminate H1|].
  destruct H as [Hreq1 H].
  destruct (payloadFetch githubEnv _ Demo.zipURL w1) as [[u2 | e2] w2] eqn:H2.
  - destruct H as [-> Hreq2]. cbn [fst snd]. rewrite Hreq2, Hreq1.
    split; reflexivity.
  - assert (w1 = snd (payloadFetch githubEnv
                         (modulePath githubEnv (NewModuleDownloader githubEnv)
                            (Demo.manifest wrappedZipURL))
                         ("https://ghproxy.cc/" ++ Demo.zipURL)
                         (snd (os_MkdirAll githubEnv
                                 (cacheDir (NewModuleDownloader githubEnv))
                                 (Demo.withCache Hour))))) as ->
      by (now rewrite H1).
    vm_compute in H2. discriminate H2.
Defined.

(* ================================================================== *)
(** * The manifest and the get command *)
(* ================================================================== *)

Section ManifestFacts.

Variable E : Env.
Variable md : ModuleDownloader.

Lemma chain_silent {A : Type} (fetch : string -> M (result A)) (via : Caller)
    (cands : list string) (w : World) (done : list string) (r : option A)
    (w' : World) :
  (forall u w0, requested via (trace (snd (fetch u w0))) = requested via (trace w0)) ->
  chain fetch cands w done r w' ->
  requested via (trace w') = requested via (trace w).
Proof.
  intros Hquiet.
  induction 1 as [w | c cs w w1 a Hf | c cs w w1 e done r w' Hf Hch IH].
  - reflexivity.
  - pose proof (Hquiet c w) as H. now rewrite Hf in H.
  - pose proof (Hquiet c w) as H. rewrite Hf in H. cbn [snd] in H. congruence.
Qed.

Lemma manifestFetch_no_payload (u : string) (w0 : World) :
  requested ViaDownloadFile (trace (snd (manifestFetch E md u w0)))
  = requested ViaDownloadFile (trace w0).
Proof.
  unfold manifestFetch. rewrite downloadWithTimeout_requested.
  cbn [Caller_eqb]. apply app_nil_r.
Qed.

(** [downloadUpdateJSON] never asks for a payload. *)
Lemma downloadUpdateJSON_no_payload (repo : string) (w : World) :
  requested ViaDownloadFile (trace (snd (downloadUpdateJSON E md repo w)))
  = requested ViaDownloadFile (trace w).
Proof.
  change (downloadUpdateJSON E md repo w)
    with (let (r, w1) := manifestFetch E md (buildUpdateURL repo) w in
          match r with
          | Ok data => ret (parseUpdateJSON E data)
          | Err _ => mirror_code E (gpm md) (manifestFetch E md) (maxRetry md)
                       (buildUpdateURL repo) (parseUpdateJSON E)
                       ErrAllDownloadsFailed
          end w1).
  pose proof (manifestFetch_no_payload (buildUpdateURL repo) w) as H1.
  destruct (manifestFetch E md (buildUpdateURL repo) w) as [[data | e] w1];
    cbn [snd] in H1; [exact H1|].
  unfold mirror_code. run.
  pose proof (GetProxies_requested E (gpm md) ViaDownloadFile w1 eq_refl) as H2.
  destruct (GetProxies E (gpm md) w1) as [[proxies | e'] w2]; cbn [snd] in H2;
    [|cbn [snd]; congruence].
  destruct (rangeProxies_chain (manifestFetch E md) (proxyURL (buildUpdateURL repo))
              (maxRetry md) (sort_Slice E proxies bySpeedDesc) 0 w2)
    as (done & r & w3 & Hch & Hrun).
  cbv zeta. rewrite Hrun.
  pose proof (chain_silent _ ViaDownloadFile _ _ _ _ _ manifestFetch_no_payload Hch)
    as H3.
  destruct r; cbn [snd]; congruence.
Qed.

(** What [parseUpdateJSON] accepts has a payload URL. *)
Lemma parseUpdateJSON_ok (data : string) (updateInfo : UpdateInfo) :
  parseUpdateJSON E data = Ok updateInfo ->
  json_UnmarshalUpdateInfo E data = Some updateInfo /\ ZipURL updateInfo <> "".
Proof.
  unfold parseUpdateJSON.
  destruct (json_UnmarshalUpdateInfo E data) as [ui|]; [|discriminate].
  destruct (String.eqb_spec (ZipURL ui) ""); [discriminate|].
  intros H. injection H as <-. now split.
Qed.

(** A manifest that [downloadUpdateJSON] returns was parsed from a body. *)
Lemma downloadUpdateJSON_ok (repo : string) (w : World) (updateInfo : UpdateInfo) :
  fst (downloadUpdateJSON E md repo w) = Ok updateInfo ->
  exists data, parseUpdateJSON E data = Ok updateInfo.
Proof.
  pose proof (downloadUpdateJSON_fallback E md repo w) as H.
  unfold fallback, mirror_phase in H.
  destruct (manifestFetch E md (buildUpdateURL repo) w) as [[data | e] w1].
  - destruct H as [-> _]. cbn [fst]. intros Hok. now exists data.
  - destruct H as [_ H].
    destruct (GetProxies E (gpm md) w1) as [[proxies | e'] w2].
    + destruct H as (done & r & w3 & _ & _ & _ & _ & _ & ->). cbn [fst].
      destruct r as [data|]; [|discriminate]. intros Hok. now exists data.
    + destruct H as [-> _]. discriminate.
Qed.

End ManifestFacts.

(** C6: a manifest body whose [zipUrl] is absent or empty (the decoder
    leaves [ZipURL] empty, or fails) does not parse; [downloadUpdateJSON]
    never returns such a manifest; and when the manifest step of the get
    command fails, the command ends there, so that no payload is asked for:
    in particular when the body fetched from the release page lacks
    [zipUrl], the command ends right after that one request. *)
Theorem missing_zipUrl_stops_workflow (E : Env) :
  let md := NewModuleDownloader E in
  (forall data,
      (forall updateInfo, json_UnmarshalUpdateInfo E data = Some updateInfo ->
                          ZipURL updateInfo = "") ->
      parseUpdateJSON E data = Err ErrNoZipUrl
      \/ parseUpdateJSON E data = Err (ErrParseUpdateJSON LibError))
  /\
  (forall repo w updateInfo,
      fst (downloadUpdateJSON E md repo w) = Ok updateInfo ->
      ZipURL updateInfo <> "")
  /\
  (forall repoArg w e,
      normalizeRepoName repoArg <> "" ->
      fst (downloadUpdateJSON E md (normalizeRepoName repoArg) w) = Err e ->
      handleGetCommand E repoArg w
      = (tt, snd (downloadUpdateJSON E md (normalizeRepoName repoArg) w))
      /\ requested ViaDownloadFile (trace (snd (handleGetCommand E repoArg w)))
         = requested ViaDownloadFile (trace w))
  /\
  (forall repoArg w data w1,
      normalizeRepoName repoArg <> "" ->
      manifestFetch E md (buildUpdateURL (normalizeRepoName repoArg)) w = (Ok data, w1) ->
      (forall updateInfo, json_UnmarshalUpdateInfo E data = Some updateInfo ->
                          ZipURL updateInfo = "") ->
      handleGetCommand E repoArg w = (tt, w1)).
Proof.
  cbv zeta.
  assert (forall data,
             (forall updateInfo, json_UnmarshalUpdateInfo E data = Some updateInfo ->
                                 ZipURL updateInfo = "") ->
             parseUpdateJSON E data = Err ErrNoZipUrl
             \/ parseUpdateJSON E data = Err (ErrParseUpdateJSON LibError)) as Hparse.
  { intros data Hmissing. unfold parseUpdateJSON.
    destruct (json_UnmarshalUpdateInfo E data) as [ui|]; [|now right].
    rewrite (Hmissing ui eq_refl). now left. }
  assert (forall repoArg w e,
             normalizeRepoName repoArg <> "" ->
             fst (downloadUpdateJSON E (NewModuleDownloader E)
                    (normalizeRepoName repoArg) w) = Err e ->
             handleGetCommand E repoArg w
             = (tt, snd (downloadUpdateJSON E (NewModuleDownloader E)
                           (normalizeRepoName repoArg) w))) as Hstop.
  { intros repoArg w e Hrepo Herr. unfold handleGetCommand. run.
    destruct (String.eqb_spec (normalizeRepoName repoArg) ""); [contradiction|].
    destruct (downloadUpdateJSON E (NewModuleDownloader E)
                (normalizeRepoName repoArg) w) as [r w1].
    cbn [fst] in Herr. now subst r. }
  split; [exact Hparse|]. split; [|split].
  - intros repo w updateInfo Hok.
    destruct (downloadUpdateJSON_ok E _ repo w updateInfo Hok) as (data & Hp).
    now apply (parseUpdateJSON_ok E data).
  - intros repoArg w e Hrepo Herr.
    rewrite (Hstop repoArg w e Hrepo Herr). split; [reflexivity|].
    apply downloadUpdateJSON_no_payload.
  - intros repoArg w data w1 Hrepo Hfetch Hmissing.
    assert (downloadUpdateJSON E (NewModuleDownloader E) (normalizeRepoName repoArg) w
            = (parseUpdateJSON E data, w1)) as Hrun.
    { unfold downloadUpdateJSON. run. unfold manifestFetch in Hfetch.
      now rewrite Hfetch. }
    destruct (Hparse data Hmissing) as [Hp | Hp].
    + rewrite (Hstop repoArg w ErrNoZipUrl Hrepo); rewrite Hrun; [reflexivity|].
      cbn [fst]. exact Hp.
    + rewrite (Hstop repoArg w (ErrParseUpdateJSON LibError) Hrepo); rewrite Hrun;
        [reflexivity|].
      cbn [fst]. exact Hp.
Qed.

Lemma missing_zipUrl_stops_workflow_witness :
  let E := noZipUrlEnv in
  let url := buildUpdateURL "o/r" in
  let reply := Response 200 (Some "update.json without zipUrl") in
  normalizeRepoName "o/r" = "o/r"
  /\ parseUpdateJSON E "update.json without zipUrl" = Err ErrNoZipUrl
  /\ handleGetCommand E "o/r" (Demo.withCache Hour)
     = (tt, log (EvHTTP ViaDownloadWithTimeout url (Some (3 * Second)) reply)
              (Demo.withCache Hour)).
Proof.
  cbv zeta.
  destruct (missing_zipUrl_stops_workflow noZipUrlEnv) as (Hparse & _ & _ & Hstop).
  assert (forall updateInfo,
             json_UnmarshalUpdateInfo noZipUrlEnv "update.json without zipUrl"
             = Some updateInfo -> ZipURL updateInfo = "") as Hmissing.
  { intros updateInfo H. vm_compute in H. injection H as <-. reflexivity. }
  split; [vm_compute; reflexivity|]. split.
  - destruct (Hparse _ Hmissing) as [H | H]; [exact H|].
    vm_compute in H. discriminate H.
  - apply (Hstop "o/r" (Demo.withCache Hour) "update.json without zipUrl").
    + vm_compute. discriminate.
    + vm_compute. reflexivity.
    + exact Hmissing.
Defined.

(* ================================================================== *)
(** * Repository names *)
(* ================================================================== *)

Lemma count_byte_app (c : ascii) (a b : string) :
  count_byte c (a ++ b) = (count_byte c a + count_byte c b)%nat.
Proof. induction a as [|d a IH]; simpl; [reflexivity | rewrite IH; lia]. Qed.

Lemma ReplaceAllByte_app (a b : string) (old new : ascii) :
  ReplaceAllByte (a ++ b) old new
  = ReplaceAllByte a old new ++ ReplaceAllByte b old new.
Proof. induction a as [|d a IH]; simpl; [reflexivity | now rewrite IH]. Qed.

Lemma ReplaceAllByte_absent (s : string) (old new : ascii) :
  count_byte old s = 0%nat -> ReplaceAllByte s old new = s.
Proof.
  induction s as [|d s IH]; simpl; [reflexivity|].
  destruct (Ascii.eqb d old); [discriminate|]. intros H. now rewrite IH.
Qed.

(** After the replacement no backslash is left, and the slashes are the
    separators of the argument. *)
Lemma ReplaceAllByte_backslash (s : string) :
  count_byte backslash (ReplaceAllByte s backslash "/"%char) = 0%nat
  /\ count_byte "/"%char (ReplaceAllByte s backslash "/"%char) = separators s.
Proof.
  unfold separators.
  induction s as [|d s [IH1 IH2]]; [split; reflexivity|].
  cbn [ReplaceAllByte count_byte]. rewrite IH1, IH2.
  destruct (Ascii.eqb d backslash) eqn:Hd.
  - apply Ascii.eqb_eq in Hd. subst d.
    change (Ascii.eqb "/"%char backslash) with false.
    change (Ascii.eqb "/"%char "/"%char) with true.
    change (Ascii.eqb backslash "/"%char) with false.
    split; lia.
  - rewrite Hd. split; [reflexivity | lia].
Qed.

Lemma SplitByte_length (s : string) (sep : ascii) :
  List.length (SplitByte s sep) = S (count_byte sep s).
Proof.
  induction s as [|d s IH]; simpl; [reflexivity|].
  destruct (Ascii.eqb d sep); simpl; [now rewrite IH|].
  destruct (SplitByte s sep); simpl in *; [discriminate | exact IH].
Qed.

Lemma SplitByte_absent (s : string) (sep : ascii) :
  count_byte sep s = 0%nat -> SplitByte s sep = [s].
Proof.
  induction s as [|d s IH]; simpl; [reflexivity|].
  destruct (Ascii.eqb d sep); [discriminate|]. intros H. now rewrite IH.
Qed.

Lemma SplitByte_app (a b : string) (sep : ascii) :
  count_byte sep a = 0%nat ->
  SplitByte (a ++ String sep b) sep = a :: SplitByte b sep.
Proof.
  induction a as [|d a IH]; simpl.
  - intros _. now rewrite Ascii.eqb_refl.
  - destruct (Ascii.eqb d sep); [discriminate|]. intros H. now rewrite IH.
Qed.

(** Two pieces mean one separator, between them. *)
Lemma SplitByte_two (s a b : string) (sep : ascii) :
  SplitByte s sep = [a; b] ->
  s = a ++ String sep b /\ count_byte sep a = 0%nat /\ count_byte sep b = 0%nat.
Proof.
  revert a. induction s as [|d s IH]; intros a; simpl; [discriminate|].
  destruct (Ascii.eqb_spec d sep) as [-> | Hd].
  - intros H. injection H as <- H.
    assert (count_byte sep s = 0%nat) as Hs.
    { pose proof (SplitByte_length s sep) as Hl. rewrite H in Hl. simpl in Hl. lia. }
    rewrite (SplitByte_absent s sep Hs) in H. injection H as <-.
    repeat split; auto.
  - destruct (SplitByte s sep) as [|piece pieces] eqn:Hsp; [discriminate|].
    intros H. injection H as <- ->.
    destruct (IH piece eq_refl) as (-> & Ha & Hb).
    simpl. destruct (Ascii.eqb_spec d sep); [contradiction|].
    repeat split; auto.
Qed.

(** What [normalizeRepoName] returns is decided by the number of pieces. *)
Lemma normalizeRepoName_pieces (repo : string) :
  match SplitByte (ReplaceAllByte repo backslash "/"%char) "/"%char with
  | [owner; name] => normalizeRepoName repo = owner ++ "/" ++ name
  | _ => normalizeRepoName repo = ""
  end.
Proof.
  unfold normalizeRepoName. fold backslash.
  destruct (SplitByte _ _) as [|a [|b [|c l]]]; reflexivity.
Qed.

Lemma normalizeRepoName_accepts (owner name : string) (sep : ascii) :
  sep = "/"%char \/ sep = backslash ->
  separators owner = 0%nat -> separators name = 0%nat ->
  normalizeRepoName (owner ++ String sep name) = owner ++ "/" ++ name.
Proof.
  unfold separators. intros Hsep Ho Hn.
  pose proof (normalizeRepoName_pieces (owner ++ String sep name)) as H.
  rewrite ReplaceAllByte_app in H. cbn [ReplaceAllByte] in H.
  rewrite !ReplaceAllByte_absent in H by lia.
  assert ((if Ascii.eqb sep backslash then "/"%char else sep) = "/"%char) as Hc.
  { destruct Hsep as [-> | ->]; [reflexivity | now rewrite Ascii.eqb_refl]. }
  rewrite Hc, SplitByte_app, SplitByte_absent in H by lia. exact H.
Qed.

(** X1: a repository argument [owner/name] or [owner\name], with no other
    separator in it, is accepted and returned with a slash. *)
Theorem normalizeRepoName_one_separator (owner name : string) :
  separators owner = 0%nat -> separators name = 0%nat ->
  normalizeRepoName (owner ++ "/" ++ name) = owner ++ "/" ++ name
  /\ normalizeRepoName (owner ++ String backslash name) = owner ++ "/" ++ name.
Proof.
  intros Ho Hn. split; apply normalizeRepoName_accepts; auto.
Qed.

Lemma normalizeRepoName_one_separator_witness :
  separators "ROOTMMP" = 0%nat /\ separators "rmmp" = 0%nat
  /\ normalizeRepoName "ROOTMMP/rmmp" = "ROOTMMP/rmmp"
  /\ normalizeRepoName ("ROOTMMP" ++ String backslash "rmmp") = "ROOTMMP/rmmp".
Proof.
  split; [reflexivity|]. split; [reflexivity|].
  apply (normalizeRepoName_one_separator "ROOTMMP" "rmmp"); reflexivity.
Defined.

Lemma normalizeRepoName_empty_iff (repo : string) :
  normalizeRepoName repo = "" <-> separators repo <> 1%nat.
Proof.
  pose proof (normalizeRepoName_pieces repo) as H.
  pose proof (SplitByte_length (ReplaceAllByte repo backslash "/"%char) "/"%char) as Hl.
  destruct (ReplaceAllByte_backslash repo) as [_ Hc]. rewrite Hc in Hl.
  destruct (SplitByte _ _) as [|a [|b [|c l]]]; simpl in Hl.
  - lia.
  - split; [lia | intros _; exact H].
  - rewrite H. split; [|lia].
    intros Habs. apply (f_equal String.length) in Habs.
    rewrite string_length_app in Habs. simpl in Habs. lia.
  - split; [lia | intros _; exact H].
Qed.

(** X2: the argument is rejected (the empty string comes back) exactly
    when it has not one separator; [handleGetCommand] then returns at once,
    with no call made. *)
Theorem normalizeRepoName_rejects (E : Env) (repoArg : string) (w : World) :
  (normalizeRepoName repoArg = "" <-> separators repoArg <> 1%nat)
  /\ (separators repoArg <> 1%nat -> handleGetCommand E repoArg w = (tt, w)).
Proof.
  split; [apply normalizeRepoName_empty_iff|].
  intros H. apply normalizeRepoName_empty_iff in H.
  unfold handleGetCommand. now rewrite H.
Qed.

Lemma normalizeRepoName_rejects_witness :
  separators "a/b/c" <> 1%nat
  /\ normalizeRepoName "a/b/c" = ""
  /\ normalizeRepoName "rmmp" = ""
  /\ handleGetCommand noZipUrlEnv "a/b/c" (Demo.withCache Hour)
     = (tt, Demo.withCache Hour).
Proof.
  assert (separators "a/b/c" <> 1%nat) as H3 by (vm_compute; discriminate).
  assert (separators "rmmp" <> 1%nat) as H0 by (vm_compute; discriminate).
  split; [exact H3|].
  split; [now apply (normalizeRepoName_rejects noZipUrlEnv "a/b/c" (Demo.withCache Hour))|].
  split; [now apply (normalizeRepoName_rejects noZipUrlEnv "rmmp" (Demo.withCache Hour))|].
  now apply (normalizeRepoName_rejects noZipUrlEnv "a/b/c" (Demo.withCache Hour)).
Defined.

(** X3: normalizing is idempotent, and what it returns holds no
    backslash. *)
Theorem normalizeRepoName_idempotent (repo : string) :
  normalizeRepoName (normalizeRepoName repo) = normalizeRepoName repo
  /\ count_byte backslash (normalizeRepoName repo) = 0%nat.
Proof.
  pose proof (normalizeRepoName_pieces repo) as H.
  destruct (ReplaceAllByte_backslash repo) as [Hbs _].
  destruct (SplitByte _ _) as [|a [|b [|c l]]] eqn:Hsp;
    try (rewrite H; split; reflexivity).
  destruct (SplitByte_two _ _ _ _ Hsp) as (Hrepo & Ha & Hb).
  rewrite Hrepo, count_byte_app in Hbs. cbn [count_byte] in Hbs.
  rewrite H. split.
  - apply normalizeRepoName_accepts; [now left | unfold separators; lia ..].
  - rewrite count_byte_app. cbn [count_byte append]. lia.
Qed.

(* ================================================================== *)
(** * Mirror URLs *)
(* ================================================================== *)

Lemma TrimSuffix_one_slash (base : string) : TrimSuffix (base ++ "/") "/" = base.
Proof.
  unfold TrimSuffix, HasSuffix. rewrite string_length_app. cbn [String.length].
  replace (String.length base + 1 - 1)%nat with (String.length base) by lia.
  rewrite slice_from_app, slice_to_app. cbn [String.eqb Ascii.eqb Bool.eqb].
  rewrite andb_true_r.
  destruct (Nat.leb_spec 1 (String.length base + 1)); [reflexivity | lia].
Qed.

Lemma TrimSuffix_absent (s suffix : string) :
  HasSuffix s suffix = false -> TrimSuffix s suffix = s.
Proof. unfold TrimSuffix. now intros ->. Qed.

(** X4: exactly one trailing slash of a mirror's base is dropped before the
    URL is appended, so a base written with or without its final slash
    gives the same mirror URL. *)
Theorem proxyURL_trailing_slash (originalURL base : string)
    (withSlash without : GitHubProxyData) :
  URL withSlash = base ++ "/" ->
  URL without = base ->
  HasSuffix base "/" = false ->
  proxyURL originalURL withSlash = base ++ "/" ++ originalURL
  /\ proxyURL originalURL without = base ++ "/" ++ originalURL.
Proof.
  intros Hw Ho Hno. unfold proxyURL.
  rewrite Hw, Ho, TrimSuffix_one_slash, (TrimSuffix_absent base "/" Hno).
  split; reflexivity.
Qed.

Lemma proxyURL_trailing_slash_witness :
  HasSuffix "https://gh.b52m.cn" "/" = false
  /\ proxyURL Demo.zipURL (Demo.mirror "https://gh.b52m.cn/" 80 9)
     = "https://gh.b52m.cn" ++ "/" ++ Demo.zipURL
  /\ proxyURL Demo.zipURL Demo.fast = "https://gh.b52m.cn" ++ "/" ++ Demo.zipURL.
Proof.
  split; [reflexivity|].
  apply (proxyURL_trailing_slash Demo.zipURL "https://gh.b52m.cn"); reflexivity.
Defined.

Lemma string_app_assoc (a b c : string) : a ++ b ++ c = (a ++ b) ++ c.
Proof. induction a as [|d a IH]; simpl; [reflexivity | now rewrite IH]. Qed.

(** Every known prefix is a base followed by one slash. *)
Lemma known_prefix_slash (p : string) :
  In p prefixes -> TrimSuffix p "/" ++ "/" = p.
Proof.
  unfold prefixes. simpl. intros H.
  repeat (destruct H as [<- | H]); try contradiction; reflexivity.
Qed.

(** X5: wrapping and unwrapping are inverse for the known mirrors: the
    mirror URL built for a mirror whose base is a known prefix is the
    prefix followed by the URL, and [extractGitHubURL] gives the URL
    back. *)
Theorem proxyURL_extractGitHubURL (originalURL p : string) (proxy : GitHubProxyData) :
  In p prefixes ->
  URL proxy = p ->
  proxyURL originalURL proxy = p ++ originalURL
  /\ extractGitHubURL (proxyURL originalURL proxy) = originalURL.
Proof.
  intros Hp Hurl.
  assert (proxyURL originalURL proxy = p ++ originalURL) as Hwrap.
  { unfold proxyURL. rewrite Hurl, string_app_assoc.
    now rewrite (known_prefix_slash p Hp). }
  split; [exact Hwrap|]. rewrite Hwrap. now apply extractGitHubURL_strips.
Qed.

Lemma proxyURL_extractGitHubURL_witness :
  In "https://ghproxy.cc/" prefixes
  /\ proxyURL Demo.zipURL Demo.ghproxyCc = "https://ghproxy.cc/" ++ Demo.zipURL
  /\ extractGitHubURL (proxyURL Demo.zipURL Demo.ghproxyCc) = Demo.zipURL.
Proof.
  assert (In "https://ghproxy.cc/" prefixes) as Hin by (now left).
  split; [exact Hin|].
  now apply (proxyURL_extractGitHubURL Demo.zipURL "https://ghproxy.cc/").
Defined.

(** X6: the manifest URL of a repository carries no known mirror prefix:
    [extractGitHubURL] leaves it as it is, whatever the repository. *)
Theorem buildUpdateURL_canonical (repo : string) :
  extractGitHubURL (buildUpdateURL repo) = buildUpdateURL repo.
Proof.
  apply stripFirstPrefix_miss. intros p Hp.
  destruct (HasPrefix (buildUpdateURL repo) p) eqn:H; [|reflexivity].
  apply HasPrefix_split in H. revert H.
  generalize (TrimPrefix (buildUpdateURL repo) p). intros t H.
  unfold buildUpdateURL, prefixes in *. simpl in Hp.
  repeat (destruct Hp as [<- | Hp]); try contradiction; simpl in H; discriminate H.
Qed.

(* ================================================================== *)
(** * The archive's file name *)
(* ================================================================== *)

Lemma count_byte_ReplaceAllByte (s : string) (old new : ascii) :
  old <> new -> count_byte old (ReplaceAllByte s old new) = 0%nat.
Proof.
  intros Hne. induction s as [|d s IH]; [reflexivity|].
  cbn [ReplaceAllByte count_byte]. rewrite IH.
  destruct (Ascii.eqb_spec d old) as [-> | Hd].
  - destruct (Ascii.eqb_spec new old); [congruence | reflexivity].
  - destruct (Ascii.eqb_spec d old); [contradiction | reflexivity].
Qed.

Lemma count_slash_uint (d : Decimal.uint) :
  count_byte "/"%char (NilEmpty.string_of_uint d) = 0%nat.
Proof. induction d; simpl; assumption || reflexivity. Qed.

Lemma count_slash_format_d (n : Z) : count_byte "/"%char (format_d n) = 0%nat.
Proof.
  unfold format_d, NilZero.string_of_int, NilZero.string_of_uint.
  destruct (Z.to_int n) as [d | d].
  - destruct d; try apply (count_slash_uint (_ d)); reflexivity.
  - destruct d; try (cbn [count_byte]; apply (count_slash_uint (_ d)));
      reflexivity.
Qed.

(** X7: the file name of the archive holds no slash, whatever the version
    string of the manifest is; the path of the archive is the download
    directory joined with that one name. *)
Theorem moduleFileName_no_slash (E : Env) (md : ModuleDownloader)
    (updateInfo : UpdateInfo) :
  count_byte "/"%char (moduleFileName updateInfo) = 0%nat
  /\ modulePath E md updateInfo
     = filepath_Join E [cacheDir md; moduleFileName updateInfo].
Proof.
  split; [|reflexivity].
  unfold moduleFileName. rewrite !count_byte_app.
  rewrite count_byte_ReplaceAllByte by discriminate.
  rewrite count_slash_format_d. reflexivity.
Qed.

(* ================================================================== *)
(** * The two primitive fetches *)
(* ================================================================== *)

(** X8: [downloadWithTimeout] succeeds exactly on a reply with status 200
    whose body can be read, and returns that body; another status is the
    error carrying that status; in every case it makes its one request and
    leaves the disk alone. *)
Theorem downloadWithTimeout_outcome (E : Env) (url : string) (t : Duration)
    (w : World) :
  let reply := http_reply E (trace w) url (Some t) in
  let run := downloadWithTimeout E url t w in
  (forall data, fst run = Ok data <-> reply = Response 200 (Some data))
  /\ (forall code body, reply = Response code body -> code <> 200 ->
        fst run = Err (ErrHTTPStatus code))
  /\ snd run = log (EvHTTP ViaDownloadWithTimeout url (Some t) reply) w
  /\ files (snd run) = files w.
Proof.
  cbv zeta. rewrite downloadWithTimeout_trace.
  split; [|split; [|split; reflexivity]].
  - intros data. unfold downloadWithTimeout, http_Do. run.
    destruct (http_reply E (trace w) url (Some t)) as [|code [body|]];
      cbn [fst]; try (split; discriminate).
    + destruct (Z.eqb_spec code 200) as [-> | Hc]; cbn [negb fst].
      * split; intros H; injection H as <-; reflexivity.
      * split; [discriminate | intros H; injection H as ? _; contradiction].
    + destruct (Z.eqb_spec code 200) as [-> | Hc]; cbn [negb fst];
        split; discriminate.
  - intros code body Hreply Hc. unfold downloadWithTimeout, http_Do. run.
    rewrite Hreply. destruct (Z.eqb_spec code 200); [contradiction | reflexivity].
Qed.

Lemma downloadWithTimeout_outcome_witness :
  fst (downloadWithTimeout noZipUrlEnv (buildUpdateURL "o/r") (3 * Second)
         (Demo.emptyDisk 0))
  = Ok "update.json without zipUrl".
Proof.
  destruct (downloadWithTimeout_outcome noZipUrlEnv (buildUpdateURL "o/r")
              (3 * Second) (Demo.emptyDisk 0)) as [Hok _].
  apply Hok. reflexivity.
Defined.

Lemma set_file_other (path p : string) (c : option string) (w : World) :
  p <> path -> files (set_file path c w) p = files w p.
Proof.
  intros Hne. cbn [set_file files].
  destruct (String.eqb_spec p path); [contradiction | reflexivity].
Qed.

Lemma set_file_same (path : string) (c : option string) (w : World) :
  files (set_file path c w) path = c.
Proof. cbn [set_file files]. now rewrite String.eqb_refl. Qed.

(** X9: when [downloadFile] succeeds, the reply had status 200 and the
    file at [localPath] holds its body, whole; when the reply is no
    response or has another status, no file is created and the disk stays
    as it was; and no other path is ever touched. *)
Theorem downloadFile_effects (E : Env) (url localPath : string) (t : Duration)
    (w : World) :
  let reply := http_reply E (trace w) url (Some t) in
  let run := downloadFile E url localPath t w in
  (fst run = Ok tt ->
   exists body, reply = Response 200 (Some body)
                /\ files (snd run) localPath = Some body)
  /\ ((forall body, reply <> Response 200 body) ->
      files (snd run) = files w /\ exists e, fst run = Err e)
  /\ (forall p, p <> localPath -> files (snd run) p = files w p).
Proof.
  cbv zeta. unfold downloadFile, http_Do. run.
  destruct (http_reply E (trace w) url (Some t)) as [|code body].
  { cbn [fst snd]. split; [discriminate|]. split; [|reflexivity].
    intros _. split; [reflexivity | eauto]. }
  destruct (Z.eqb_spec code 200) as [-> | Hc]; cbn [negb].
  2:{ cbn [fst snd]. split; [discriminate|]. split; [|reflexivity].
      intros _. split; [reflexivity | eauto]. }
  unfold os_Create, io_Copy.
  set (w1 := log _ w).
  destruct (os_fault E (trace w1) OpCreate); cbn [fst snd].
  { split; [discriminate|]. split; [|reflexivity].
    intros H. exfalso. now apply (H body). }
  set (w2 := log (EvCreate localPath) _).
  split; [|split].
  - destruct body as [data|]; [destruct (os_fault E (trace w2) OpCopy)|];
      cbn [fst snd]; try discriminate.
    intros _. exists data. split; [reflexivity | apply set_file_same].
  - intros H. exfalso. now apply (H body).
  - intros p Hp.
    destruct body as [data|]; [destruct (os_fault E (trace w2) OpCopy)|];
      cbn [snd]; rewrite set_file_other by exact Hp; subst w2;
      cbn [log files]; now rewrite set_file_other by exact Hp.
Qed.

Lemma downloadFile_effects_witness :
  let run := downloadFile onlineEnv Demo.zipURL "/tmp/module.zip" (30 * Second)
               (Demo.emptyDisk 0) in
  fst run = Ok tt
  /\ files (snd run) "/tmp/module.zip" = Some "PK archive"
  /\ files (snd run) Demo.cachePath = None.
Proof.
  cbv zeta.
  destruct (downloadFile_effects onlineEnv Demo.zipURL "/tmp/module.zip"
              (30 * Second) (Demo.emptyDisk 0)) as (Hok & _ & Hframe).
  assert (fst (downloadFile onlineEnv Demo.zipURL "/tmp/module.zip" (30 * Second)
                 (Demo.emptyDisk 0)) = Ok tt) as Hrun by (vm_compute; reflexivity).
  split; [exact Hrun|]. split.
  - destruct (Hok Hrun) as (body & Hreply & Hfile). rewrite Hfile.
    vm_compute in Hreply. now injection Hreply as <-.
  - rewrite Hframe; [reflexivity | vm_compute; discriminate].
Defined.

(* ================================================================== *)
(** * More on the catalog *)
(* ================================================================== *)

Section CatalogMore.

Variable E : Env.
Variable gpm : GitHubProxyManager.

(** What [saveToCache] leaves on disk when nothing fails. *)
Lemma saveToCache_writes (apiResponse : GitHubProxyResponse) (w : World)
    (data : string) :
  (forall h op, os_fault E h op = false) ->
  json_MarshalProxyCache E
    {| CacheData := Data apiResponse; CacheTime := now w;
       CacheUpdateTime := UpdateTime apiResponse;
       CacheTotal := Total apiResponse |} = Some data ->
  fst (saveToCache E gpm apiResponse w) = Ok tt
  /\ files (snd (saveToCache E gpm apiResponse w)) (cacheFile gpm) = Some data.
Proof.
  intros Hok Hm. unfold saveToCache, os_MkdirAll, os_WriteFile, time_Now. run.
  rewrite Hok. cbn [now log]. rewrite Hm, Hok. cbn [fst snd log files].
  split; [reflexivity | apply set_file_same].
Qed.

(** An error of [fetchFromAPI] comes before anything is written. *)
Lemma fetchFromAPI_error_disk (w : World) (e : error) :
  fst (fetchFromAPI E gpm w) = Err e ->
  files (snd (fetchFromAPI E gpm w)) = files w.
Proof.
  unfold fetchFromAPI, http_Do. run.
  destruct (http_reply E (trace w) githubProxyAPI None) as [|status [body|]];
    try (intros _; reflexivity);
    destruct (status =? 200)%Z; cbn [negb]; try (intros _; reflexivity).
  destruct (json_UnmarshalProxyResponse E body) as [apiResponse|];
    [|intros _; reflexivity].
  destruct (Code apiResponse =? 200)%Z; cbn [negb]; [|intros _; reflexivity].
  destruct (saveToCache E gpm apiResponse _) as [[u | e'] w1];
    unfold fmt_Print; cbn [fst]; discriminate.
Qed.

End CatalogMore.

(** X10: a listing fetched from the directory service and saved (nothing
    failing, the JSON codec reading back what it wrote) is what the next
    [GetProxies] returns, with no network call, for as long as the clock
    has moved on by at most ten hours and the cache file is as it was
    left. *)
Theorem cache_round_trip (E : Env) (gpm : GitHubProxyManager) (w : World)
    (body data : string) (apiResponse : GitHubProxyResponse) :
  let cache := {| CacheData := Data apiResponse; CacheTime := now w;
                  CacheUpdateTime := UpdateTime apiResponse;
                  CacheTotal := Total apiResponse |} in
  let w1 := snd (fetchFromAPI E gpm w) in
  http_reply E (trace w) githubProxyAPI None = Response 200 (Some body) ->
  json_UnmarshalProxyResponse E body = Some apiResponse ->
  Code apiResponse = 200 ->
  json_MarshalProxyCache E cache = Some data ->
  json_UnmarshalProxyCache E data = Some cache ->
  (forall h op, os_fault E h op = false) ->
  fst (fetchFromAPI E gpm w) = Ok (Data apiResponse)
  /\ files w1 (cacheFile gpm) = Some data
  /\ forall w2,
       files w2 (cacheFile gpm) = Some data ->
       now w2 - now w <= 10 * Hour ->
       fst (GetProxies E gpm w2) = Ok (Data apiResponse)
       /\ http_events (trace (snd (GetProxies E gpm w2))) = http_events (trace w2).
Proof.
  cbv zeta. intros Hreply Hbody Hcode Hm Hu Hok.
  split; [|split].
  - destruct (fetchFromAPI_one_call E gpm w) as [_ Hres]. rewrite Hres, Hreply.
    cbn [directoryRecords Z.eqb Pos.eqb]. now rewrite Hbody, Hcode.
  - unfold fetchFromAPI, http_Do. run. rewrite Hreply.
    cbn [Z.eqb Pos.eqb negb]. rewrite Hbody, Hcode. cbn [Z.eqb Pos.eqb negb].
    set (w0 := log _ w).
    destruct (saveToCache_writes E gpm apiResponse w0 data Hok Hm) as [Hs Hf].
    destruct (saveToCache E gpm apiResponse w0) as [r w1]. cbn [fst snd] in *.
    subst r. unfold fmt_Print. cbn [snd log files]. exact Hf.
  - intros w2 Hfile Hage.
    destruct (GetProxies_hit E gpm w2
                {| CacheData := Data apiResponse; CacheTime := now w;
                   CacheUpdateTime := UpdateTime apiResponse;
                   CacheTotal := Total apiResponse |})
      as (Hr & _ & _ & Hoff).
    + unfold cachedSnapshot. now rewrite Hfile.
    + exact Hage.
    + intros h. apply Hok.
    + split; [exact Hr | exact Hoff].
Qed.

Lemma cache_round_trip_witness :
  let gpm := NewGitHubProxyManager roundTripEnv in
  let w1 := snd (fetchFromAPI roundTripEnv gpm (Demo.emptyDisk 0)) in
  let later := {| files := files w1; now := 9 * Hour; trace := trace w1 |} in
  fst (fetchFromAPI roundTripEnv gpm (Demo.emptyDisk 0))
  = Ok [Demo.fast; Demo.ghproxyCc]
  /\ fst (GetProxies roundTripEnv gpm later) = Ok [Demo.fast; Demo.ghproxyCc]
  /\ http_events (trace (snd (GetProxies roundTripEnv gpm later)))
     = http_events (trace later).
Proof.
  cbv zeta.
  destruct (cache_round_trip roundTripEnv (NewGitHubProxyManager roundTripEnv)
              (Demo.emptyDisk 0) "directory.json" "github_proxy.json taken at 0"
              (Demo.directory [Demo.fast; Demo.ghproxyCc]))
    as (Hfetch & Hfile & Hnext); try reflexivity.
  split; [exact Hfetch|].
  apply Hnext; [exact Hfile | vm_compute; discriminate].
Defined.

(** X11: a refresh that fails writes nothing: when [GetProxies] returns an
    error, every file, the old snapshot included, is as it was. *)
Theorem GetProxies_error_keeps_disk (E : Env) (gpm : GitHubProxyManager)
    (w : World) (e : error) :
  fst (GetProxies E gpm w) = Err e ->
  files (snd (GetProxies E gpm w)) = files w.
Proof.
  unfold GetProxies. run.
  pose proof (isCacheValid_readonly E gpm w) as (Hf & _ & _).
  destruct (isCacheValid E gpm w) as [valid w1]. cbn [snd] in Hf.
  destruct valid.
  - intros _. pose proof (loadFromCache_readonly E gpm w1) as (Hf2 & _ & _).
    congruence.
  - intros H. rewrite (fetchFromAPI_error_disk E gpm w1 e H). exact Hf.
Qed.

(** The directory is down and the snapshot is a day old. *)
Lemma GetProxies_error_keeps_disk_witness :
  fst (GetProxies slowEnv (NewGitHubProxyManager slowEnv) (Demo.withCache (24 * Hour)))
  = Err (ErrAPIRequest LibError)
  /\ files (snd (GetProxies slowEnv (NewGitHubProxyManager slowEnv)
                   (Demo.withCache (24 * Hour)))) Demo.cachePath
     = Some "github_proxy.json".
Proof.
  assert (fst (GetProxies slowEnv (NewGitHubProxyManager slowEnv)
                 (Demo.withCache (24 * Hour))) = Err (ErrAPIRequest LibError)) as H
    by (vm_compute; reflexivity).
  split; [exact H|].
  now rewrite (GetProxies_error_keeps_disk _ _ _ _ H).
Defined.

(** X12: when no record has a negative score, [GetBestProxy] returns a
    record of the greatest score, and of those the first in the list. *)
Theorem GetBestProxy_max_nonnegative (E : Env) (gpm : GitHubProxyManager)
    (w w' : World) (proxies : list GitHubProxyData) :
  GetProxies E gpm w = (Ok proxies, w') ->
  proxies <> [] ->
  Forall nonnegative proxies ->
  exists i p,
    GetBestProxy E gpm w = (Ok (Some (i, p)), w')
    /\ nth_error proxies i = Some p
    /\ (forall q, In q proxies -> (score q <=? score p)%float = true)
    /\ (forall k q, nth_error proxies k = Some q -> (k < i)%nat ->
                    (score q <? score p)%float = true).
Proof.
  intros Hget Hne Hall.
  destruct (bestLoop_max_nonnegative proxies Hne Hall)
    as (i & p & Hbest & Hi & Hmax & Hearly).
  exists i, p. split; [|split; [exact Hi | split; [|exact Hearly]]].
  - unfold GetBestProxy, bind. rewrite Hget.
    destruct proxies as [|proxy rest]; [congruence|].
    cbn [List.length Nat.eqb]. unfold ret. now rewrite Hbest.
  - intros q Hq. rewrite Forall_forall in Hmax. now apply Hmax.
Qed.

Lemma GetBestProxy_max_nonnegative_witness :
  Forall nonnegative [Demo.ghproxyCc; Demo.fast; Demo.medium; Demo.last]
  /\ exists i p,
       fst (GetBestProxy rankedEnv (NewGitHubProxyManager rankedEnv)
              (Demo.withCache Hour)) = Ok (Some (i, p))
       /\ (score Demo.fast <=? score p)%float = true.
Proof.
  assert (Forall nonnegative [Demo.ghproxyCc; Demo.fast; Demo.medium; Demo.last])
    as Hall by (repeat constructor; vm_compute; reflexivity).
  split; [exact Hall|].
  destruct (GetBestProxy_max_nonnegative rankedEnv (NewGitHubProxyManager rankedEnv)
              (Demo.withCache Hour)
              (snd (GetProxies rankedEnv (NewGitHubProxyManager rankedEnv)
                      (Demo.withCache Hour)))
              [Demo.ghproxyCc; Demo.fast; Demo.medium; Demo.last])
    as (i & p & Hbest & _ & Hmax & _);
    [vm_compute; reflexivity | discriminate | exact Hall |].
  exists i, p. rewrite Hbest. split; [reflexivity|].
  apply Hmax. right. now left.
Defined.

(** X13: [ListProxies] fails only when its first catalog query fails (a
    failure of the recommendation is not reported), and it asks the
    directory service at most twice. *)
Theorem ListProxies_calls (E : Env) (gpm : GitHubProxyManager) (w : World) :
  fst (ListProxies E gpm w)
  = match fst (GetProxies E gpm w) with
    | Ok _ => Ok tt
    | Err e => Err e
    end
  /\ exists calls,
       http_events (trace (snd (ListProxies E gpm w)))
       = (http_events (trace w) ++ calls)%list
       /\ (List.length calls <= 2)%nat
       /\ Forall (fun c => exists reply, c = directoryCall reply) calls.
Proof.
  unfold ListProxies. run.
  destruct (GetProxies_http E gpm w) as (calls1 & Hev1 & Hc1).
  destruct (GetProxies E gpm w) as [[proxies | e] w1]; cbn [fst snd] in *.
  - assert (Forall (fun c => exists reply, c = directoryCall reply) calls1
            /\ (List.length calls1 <= 1)%nat) as [HF1 HL1].
    { destruct Hc1 as [-> | (reply & ->)]; split; simpl; try lia;
        repeat constructor. now exists reply. }
    destruct (List.length proxies =? 0)%nat; cbn [fst snd].
    + split; [reflexivity|]. exists calls1. repeat split; [exact Hev1 | lia | exact HF1].
    + unfold GetBestProxy. run.
      destruct (GetProxies_http E gpm w1) as (calls2 & Hev2 & Hc2).
      destruct (GetProxies E gpm w1) as [[proxies2 | e2] w2]; cbn [fst snd] in *.
      * assert (Forall (fun c => exists reply, c = directoryCall reply) calls2
                /\ (List.length calls2 <= 1)%nat) as [HF2 HL2].
        { destruct Hc2 as [-> | (reply & ->)]; split; simpl; try lia;
            repeat constructor. now exists reply. }
        destruct (List.length proxies2 =? 0)%nat; cbn [fst snd];
          (split; [reflexivity|]); exists (calls1 ++ calls2)%list;
          (repeat split;
           [rewrite Hev2, Hev1, app_assoc; reflexivity
           | rewrite length_app; lia
           | apply Forall_app; split; assumption]).
      * assert (Forall (fun c => exists reply, c = directoryCall reply) calls2
                /\ (List.length calls2 <= 1)%nat) as [HF2 HL2].
        { destruct Hc2 as [-> | (reply & ->)]; split; simpl; try lia;
            repeat constructor. now exists reply. }
        split; [reflexivity|]. exists (calls1 ++ calls2)%list.
        repeat split;
          [rewrite Hev2, Hev1, app_assoc; reflexivity
          | rewrite length_app; lia
          | apply Forall_app; split; assumption].
  - split; [reflexivity|]. exists calls1.
    destruct Hc1 as [-> | (reply & ->)]; repeat split; simpl; try exact Hev1;
      try lia; repeat constructor. now exists reply.
Qed.

(* ================================================================== *)
(** * What the program leaves alone *)
(* ================================================================== *)

Section Background.

Variable S : string -> Prop.

Lemma background_refl (w : World) : background S w w.
Proof. split; reflexivity. Qed.

Lemma background_trans (w1 w2 w3 : World) :
  background S w1 w2 -> background S w2 w3 -> background S w1 w3.
Proof.
  intros [T1 F1] [T2 F2]. split; [congruence|].
  intros p Hp. rewrite F2, F1 by exact Hp. reflexivity.
Qed.

Lemma background_log (e : Event) (w : World) :
  user_event e = false -> background S w (log e w).
Proof.
  intros He. split; [|reflexivity].
  unfold log. cbn [trace]. rewrite filter_app. cbn [filter]. rewrite He.
  apply app_nil_r.
Qed.

Lemma background_set_file (path : string) (c : option string) (w : World) :
  S path -> background S w (set_file path c w).
Proof.
  intros Hs. split; [reflexivity|]. intros p Hp. apply set_file_other.
  intros ->. contradiction.
Qed.

Lemma in_background_ret {A : Type} (a : A) : in_background S (ret a).
Proof. intros w. apply background_refl. Qed.

Lemma in_background_bind {A B : Type} (m : M A) (k : A -> M B) :
  in_background S m -> (forall a, in_background S (k a)) ->
  in_background S (bind m k).
Proof.
  intros Hm Hk w. unfold bind. pose proof (Hm w) as H1.
  destruct (m w) as [a w1]. cbn [snd] in H1.
  eapply background_trans; [exact H1 | apply Hk].
Qed.

Variable E : Env.

Lemma os_Stat_background (p : string) : in_background S (os_Stat E p).
Proof. intros w. now apply background_log. Qed.

Lemma os_ReadFile_background (p : string) : in_background S (os_ReadFile E p).
Proof. intros w. now apply background_log. Qed.

Lemma os_MkdirAll_background (p : string) : in_background S (os_MkdirAll E p).
Proof. intros w. now apply background_log. Qed.

Lemma os_WriteFile_background (p data : string) :
  S p -> in_background S (os_WriteFile E p data).
Proof.
  intros Hp w. unfold os_WriteFile.
  destruct (os_fault E (trace w) OpWriteFile); cbn [snd];
    (eapply background_trans;
     [apply background_set_file; exact Hp | now apply background_log]).
Qed.

Lemma os_Remove_background (p : string) :
  S p -> in_background S (os_Remove E p).
Proof.
  intros Hp w. unfold os_Remove.
  destruct (os_fault E (trace w) OpRemove); cbn [snd];
    [now apply background_log|].
  destruct (files w p); cbn [snd]; [|now apply background_log].
  eapply background_trans;
    [apply background_set_file; exact Hp | now apply background_log].
Qed.

Lemma os_Create_background (p : string) :
  S p -> in_background S (os_Create E p).
Proof.
  intros Hp w. unfold os_Create.
  destruct (os_fault E (trace w) OpCreate); cbn [snd];
    [now apply background_log|].
  eapply background_trans;
    [apply background_set_file; exact Hp | now apply background_log].
Qed.

Lemma io_Copy_background (p : string) (body : option string) :
  S p -> in_background S (io_Copy E p body).
Proof.
  intros Hp w. unfold io_Copy.
  destruct body; [destruct (os_fault E (trace w) OpCopy)|]; cbn [snd];
    now apply background_set_file.
Qed.

Lemma http_Do_background (via : Caller) (url : string) (d : option Duration) :
  in_background S (http_Do E via url d).
Proof. intros w. now apply background_log. Qed.

Lemma fmt_Print_background (m : Notice) : in_background S (fmt_Print m).
Proof. intros w. now apply background_log. Qed.

Lemma time_Now_background : in_background S time_Now.
Proof. intros w. apply background_refl. Qed.

End Background.

(** Splits a goal [in_background S m] along the binds, matches and tests of
    [m], down to the library calls. *)
Ltac background_steps :=
  repeat first
    [ apply in_background_ret
    | apply in_background_bind; [|intros ?]
    | apply os_Stat_background
    | apply os_ReadFile_background
    | apply os_MkdirAll_background
    | apply os_WriteFile_background
    | apply os_Remove_background
    | apply os_Create_background
    | apply io_Copy_background
    | apply http_Do_background
    | apply fmt_Print_background
    | apply time_Now_background
    | assumption
    | match goal with
      | |- in_background _ (match ?x with _ => _ end) => destruct x
      | |- in_background _ (if ?b then _ else _) => destruct b
      end ].

Section BackgroundOfThePrograms.

Variable E : Env.

Lemma fileExists_background (S : string -> Prop) (p : string) :
  in_background S (fileExists E p).
Proof. unfold fileExists. background_steps. Qed.

Lemma readCacheFile_background (S : string -> Prop) (gpm : GitHubProxyManager) :
  in_background S (readCacheFile E gpm).
Proof. unfold readCacheFile. background_steps. Qed.

Lemma GetProxies_background (S : string -> Prop) (gpm : GitHubProxyManager) :
  S (cacheFile gpm) -> in_background S (GetProxies E gpm).
Proof.
  intros Hs.
  unfold GetProxies, isCacheValid, loadFromCache, fetchFromAPI, saveToCache.
  cbv zeta.
  background_steps; try apply fileExists_background;
    try apply readCacheFile_background; background_steps.
Qed.

Lemma ClearCache_background (S : string -> Prop) (gpm : GitHubProxyManager) :
  S (cacheFile gpm) -> in_background S (ClearCache E gpm).
Proof.
  intros Hs. unfold ClearCache.
  background_steps; try apply fileExists_background; background_steps.
Qed.

Lemma downloadWithTimeout_background (S : string -> Prop) (url : string)
    (t : Duration) :
  in_background S (downloadWithTimeout E url t).
Proof. unfold downloadWithTimeout. background_steps. Qed.

Lemma downloadFile_background (S : string -> Prop) (url localPath : string)
    (t : Duration) :
  S localPath -> in_background S (downloadFile E url localPath t).
Proof. intros Hs. unfold downloadFile. background_steps. Qed.

Lemma rangeProxies_background {A : Type} (S : string -> Prop)
    (attempt : GitHubProxyData -> M (result A)) (maxRetry : Z)
    (proxies : list GitHubProxyData) :
  (forall proxy, in_background S (attempt proxy)) ->
  forall tried, in_background S (rangeProxies attempt maxRetry proxies tried).
Proof.
  intros Hattempt. induction proxies as [|proxy rest IH]; intros tried;
    cbn [rangeProxies]; [apply in_background_ret|].
  destruct (tried >=? maxRetry); [apply in_background_ret|].
  apply in_background_bind; [apply Hattempt|].
  intros [a | e]; [apply in_background_ret | apply IH].
Qed.

Lemma downloadUpdateJSON_background (S : string -> Prop) (md : ModuleDownloader)
    (repo : string) :
  S (cacheFile (gpm md)) -> in_background S (downloadUpdateJSON E md repo).
Proof.
  intros Hs. unfold downloadUpdateJSON. cbv zeta.
  apply in_background_bind; [apply downloadWithTimeout_background|].
  intros [data | e]; [apply in_background_ret|].
  apply in_background_bind; [now apply GetProxies_background|].
  intros [proxies | e']; [|apply in_background_ret].
  apply in_background_bind.
  - apply rangeProxies_background. intros proxy.
    apply downloadWithTimeout_background.
  - intros [data|]; apply in_background_ret.
Qed.

Lemma downloadWithProxies_background (S : string -> Prop) (md : ModuleDownloader)
    (url localPath : string) :
  S (cacheFile (gpm md)) -> S localPath ->
  in_background S (downloadWithProxies E md url localPath).
Proof.
  intros Hc Hl. unfold downloadWithProxies.
  apply in_background_bind; [now apply GetProxies_background|].
  intros [proxies | e']; [|apply in_background_ret].
  cbv zeta. apply in_background_bind.
  - apply rangeProxies_background. intros proxy.
    now apply downloadFile_background.
  - intros [u|]; apply in_background_ret.
Qed.

Lemma downloadModule_background (S : string -> Prop) (md : ModuleDownloader)
    (updateInfo : UpdateInfo) :
  S (cacheFile (gpm md)) -> S (modulePath E md updateInfo) ->
  in_background S (downloadModule E md updateInfo).
Proof.
  intros Hc Hl. unfold downloadModule.
  apply in_background_bind; [apply os_MkdirAll_background|].
  intros [u | e]; [|apply in_background_ret]. cbv zeta.
  apply in_background_bind; [now apply downloadFile_background|].
  intros [u1 | e1]; [apply in_background_ret|].
  destruct (negb _).
  - apply in_background_bind; [now apply downloadFile_background|].
    intros [u2 | e2]; [apply in_background_ret|].
    now apply downloadWithProxies_background.
  - now apply downloadWithProxies_background.
Qed.

Lemma downloadWithProxies_ok_path (md : ModuleDownloader) (url localPath : string)
    (w : World) (path : string) :
  fst (downloadWithProxies E md url localPath w) = Ok path -> path = localPath.
Proof.
  unfold downloadWithProxies. run.
  destruct (GetProxies E (gpm md) w) as [[proxies | e] w2]; [|discriminate].
  cbv zeta. destruct (rangeProxies _ _ _ _ w2) as [[u0|] w3]; cbn [fst];
    [congruence | discriminate].
Qed.

(** [downloadModule] returns no path but the one it built. *)
Lemma downloadModule_ok_path (md : ModuleDownloader) (updateInfo : UpdateInfo)
    (w : World) (path : string) :
  fst (downloadModule E md updateInfo w) = Ok path ->
  path = modulePath E md updateInfo.
Proof.
  unfold downloadModule. run.
  destruct (os_MkdirAll E (cacheDir md) w) as [[u | e] w0]; [|discriminate].
  cbv zeta.
  destruct (downloadFile E (ZipURL updateInfo) _ _ w0) as [[u1 | e1] w1];
    [cbn [fst]; congruence|].
  destruct (negb _).
  - destruct (downloadFile E (extractGitHubURL (ZipURL updateInfo)) _ _ w1)
      as [[u2 | e2] w2]; [cbn [fst]; congruence|].
    apply downloadWithProxies_ok_path.
  - apply downloadWithProxies_ok_path.
Qed.

End BackgroundOfThePrograms.

(** X14: the catalog operations write no file but the cache file, and
    [downloadModule] writes no file but the cache file and the archive it
    is downloading; none of them prompts the user or starts an
    installation. *)
Theorem writes_only_its_files (E : Env) (md : ModuleDownloader)
    (updateInfo : UpdateInfo) (repo : string) (w : World) :
  let catalog := fun p => p = cacheFile (gpm md) in
  let download := fun p => p = cacheFile (gpm md)
                           \/ p = modulePath E md updateInfo in
  background catalog w (snd (GetProxies E (gpm md) w))
  /\ background catalog w (snd (ClearCache E (gpm md) w))
  /\ background catalog w (snd (downloadUpdateJSON E md repo w))
  /\ background download w (snd (downloadModule E md updateInfo w)).
Proof.
  cbv zeta. split; [|split; [|split]].
  - now apply GetProxies_background.
  - now apply ClearCache_background.
  - now apply downloadUpdateJSON_background.
  - apply downloadModule_background; [now left | now right].
Qed.

Lemma installed_user_events (tr : list Event) :
  installed (filter user_event tr) = installed tr.
Proof.
  unfold installed. induction tr as [|e tr IH]; [reflexivity|].
  destruct e; cbn [filter user_event flat_map app]; now rewrite ?IH.
Qed.

Lemma background_installed (S : string -> Prop) (w w' : World) :
  background S w w' -> installed (trace w') = installed (trace w).
Proof.
  intros [H _]. rewrite <- (installed_user_events (trace w')), H.
  apply installed_user_events.
Qed.

Lemma installed_log (e : Event) (w : World) :
  installed (trace (log e w)) = (installed (trace w) ++ installed [e])%list.
Proof. unfold log, installed. cbn [trace]. apply flat_map_app. Qed.

(** X15: the get command starts at most one installation, and only of the
    archive it has just downloaded: the manifest was fetched, the archive
    was downloaded to the path built from it, and the user answered yes. *)
Theorem handleGetCommand_installs (E : Env) (repoArg : string) (w : World) :
  let md := NewModuleDownloader E in
  let repo := normalizeRepoName repoArg in
  let w' := snd (handleGetCommand E repoArg w) in
  installed (trace w') = installed (trace w)
  \/ exists updateInfo w1 w2,
       repo <> ""
       /\ downloadUpdateJSON E md repo w = (Ok updateInfo, w1)
       /\ downloadModule E md updateInfo w1
          = (Ok (modulePath E md updateInfo), w2)
       /\ stdin_yes E (trace w2) = true
       /\ installed (trace w')
          = (installed (trace w) ++ [modulePath E md updateInfo])%list.
Proof.
  cbv zeta. unfold handleGetCommand. run.
  destruct (String.eqb_spec (normalizeRepoName repoArg) "") as [Hr | Hr];
    [now left|].
  pose proof (downloadUpdateJSON_background E
                (fun p => p = cacheFile (gpm (NewModuleDownloader E)))
                (NewModuleDownloader E) (normalizeRepoName repoArg) eq_refl w) as B1.
  destruct (downloadUpdateJSON E (NewModuleDownloader E)
              (normalizeRepoName repoArg) w) as [[updateInfo | e] w1] eqn:Hd1;
    cbn [snd] in B1; apply background_installed in B1; [|now left].
  pose proof (downloadModule_background E
                (fun p => p = cacheFile (gpm (NewModuleDownloader E))
                          \/ p = modulePath E (NewModuleDownloader E) updateInfo)
                (NewModuleDownloader E) updateInfo (or_introl eq_refl)
                (or_intror eq_refl) w1) as B2.
  pose proof (downloadModule_ok_path E (NewModuleDownloader E) updateInfo w1) as Hp.
  destruct (downloadModule E (NewModuleDownloader E) updateInfo w1)
    as [[path | e] w2] eqn:Hd2; cbn [fst snd] in B2, Hp;
    apply background_installed in B2; [|left; cbn [snd]; congruence].
  specialize (Hp path eq_refl). subst path.
  unfold confirmInstallation, installModule, ret.
  destruct (stdin_yes E (trace w2)) eqn:Hyes; cbv beta iota; cbn [snd].
  - right. exists updateInfo, w1, w2.
    split; [exact Hr|]. split; [reflexivity|]. split; [exact Hd2|].
    split; [exact Hyes|].
    rewrite !installed_log. cbn [installed flat_map app].
    rewrite app_nil_r. congruence.
  - left. rewrite installed_log. cbn [installed flat_map app].
    rewrite app_nil_r. congruence.
Qed.

(** Everything answers and the user says yes: the archive is installed. *)
Example handleGetCommand_installs_archive :
  installed (trace (snd (handleGetCommand onlineEnv "o/r" (Demo.withCache Hour))))
  = ["/home/u/data/adb/.rmm/CACHE/downloads/module_v1.0_100.zip"].
Proof. vm_compute. reflexivity. Qed.

(* ================================================================== *)
(** * The proxy command *)
(* ================================================================== *)

Section ProxyCommand.

Variable E : Env.

Lemma asksDirectory_ret {A : Type} (a : A) : asksDirectory 0 (ret a).
Proof. intros w. exists []. rewrite app_nil_r. repeat split; auto. Qed.

Lemma asksDirectory_bind {A B : Type} (n1 n2 : nat) (m : M A) (k : A -> M B) :
  asksDirectory n1 m -> (forall a, asksDirectory n2 (k a)) ->
  asksDirectory (n1 + n2) (bind m k).
Proof.
  intros Hm Hk w. unfold bind. destruct (Hm w) as (c1 & E1 & L1 & F1).
  destruct (m w) as [a w1]. cbn [snd] in *.
  destruct (Hk a w1) as (c2 & E2 & L2 & F2).
  exists (c1 ++ c2)%list. rewrite E2, E1, app_assoc. split; [reflexivity|].
  split; [rewrite length_app; lia | now apply Forall_app].
Qed.

Lemma asksDirectory_le {A : Type} (n n' : nat) (m : M A) :
  (n <= n')%nat -> asksDirectory n m -> asksDirectory n' m.
Proof.
  intros Hle Hm w. destruct (Hm w) as (c & Ec & Lc & Fc).
  exists c. repeat split; auto. lia.
Qed.

Lemma asksDirectory_GetProxies (gpm : GitHubProxyManager) :
  asksDirectory 1 (GetProxies E gpm).
Proof.
  intros w. destruct (GetProxies_http E gpm w) as (calls & Hev & Hc).
  exists calls. split; [exact Hev|].
  destruct Hc as [-> | (reply & ->)]; split; simpl; try lia; repeat constructor.
  now exists reply.
Qed.

Lemma asksDirectory_ClearCache (gpm : GitHubProxyManager) :
  asksDirectory 0 (ClearCache E gpm).
Proof.
  intros w. exists []. rewrite app_nil_r. split; [apply ClearCache_offline|].
  repeat split; auto.
Qed.

Lemma asksDirectory_GetBestProxy (gpm : GitHubProxyManager) :
  asksDirectory 1 (GetBestProxy E gpm).
Proof.
  unfold GetBestProxy.
  apply (asksDirectory_bind 1 0); [apply asksDirectory_GetProxies|].
  intros [proxies | e]; [|apply asksDirectory_ret].
  destruct (_ =? _)%nat; apply asksDirectory_ret.
Qed.

Lemma asksDirectory_ListProxies (gpm : GitHubProxyManager) :
  asksDirectory 2 (ListProxies E gpm).
Proof.
  unfold ListProxies.
  apply (asksDirectory_bind 1 1); [apply asksDirectory_GetProxies|].
  intros [proxies | e]; [|apply (asksDirectory_le 0); [lia | apply asksDirectory_ret]].
  destruct (_ =? _)%nat; [apply (asksDirectory_le 0); [lia | apply asksDirectory_ret]|].
  apply (asksDirectory_bind 1 0); [apply asksDirectory_GetBestProxy|].
  intros _. apply asksDirectory_ret.
Qed.

Lemma GetBestProxy_background (S : string -> Prop) (gpm : GitHubProxyManager) :
  S (cacheFile gpm) -> in_background S (GetBestProxy E gpm).
Proof.
  intros Hs. unfold GetBestProxy.
  apply in_background_bind; [now apply GetProxies_background|].
  intros [proxies | e]; [|apply in_background_ret].
  destruct (_ =? _)%nat; apply in_background_ret.
Qed.

Lemma ListProxies_background (S : string -> Prop) (gpm : GitHubProxyManager) :
  S (cacheFile gpm) -> in_background S (ListProxies E gpm).
Proof.
  intros Hs. unfold ListProxies.
  apply in_background_bind; [now apply GetProxies_background|].
  intros [proxies | e]; [|apply in_background_ret].
  destruct (_ =? _)%nat; [apply in_background_ret|].
  apply in_background_bind; [now apply GetBestProxy_background|].
  intros _. apply in_background_ret.
Qed.

End ProxyCommand.

(** X16: Whatever its arguments, [rmmp proxy] writes no file but the
    cache file, prompts nobody, installs nothing, and asks no server but
    the directory service: at most twice for [list], once for [best] and
    [update], and never for [clear], [help] and unknown subcommands. *)
Theorem handleProxyCommand_calls (E : Env) (args : list string) (w : World) :
  background (fun path => path = getCacheFilePath E) w
    (snd (handleProxyCommand E args w))
  /\ exists calls,
       http_events (trace (snd (handleProxyCommand E args w)))
       = (http_events (trace w) ++ calls)%list
       /\ (List.length calls <= proxyCalls args)%nat
       /\ Forall (fun c => exists reply, c = directoryCall reply) calls.
Proof.
  split.
  - revert w. change (in_background (fun path => path = getCacheFilePath E)
                        (handleProxyCommand E args)).
    unfold handleProxyCommand. cbv zeta.
    destruct args as [|subCommand rest]; [apply in_background_ret|].
    destruct (String.eqb subCommand "list" || String.eqb subCommand "ls").
    { apply in_background_bind; [now apply ListProxies_background|].
      intros _. apply in_background_ret. }
    destruct (String.eqb subCommand "best").
    { apply in_background_bind; [now apply GetBestProxy_background|].
      intros _. apply in_background_ret. }
    destruct (String.eqb subCommand "update").
    { apply in_background_bind; [now apply ClearCache_background|].
      intros _. apply in_background_bind; [now apply GetProxies_background|].
      intros _. apply in_background_ret. }
    destruct (String.eqb subCommand "clear").
    { apply in_background_bind; [now apply ClearCache_background|].
      intros _. apply in_background_ret. }
    apply in_background_ret.
  - revert w. change (asksDirectory (proxyCalls args) (handleProxyCommand E args)).
    unfold handleProxyCommand, proxyCalls. cbv zeta.
    destruct args as [|subCommand rest]; [apply asksDirectory_ret|].
    destruct (String.eqb subCommand "list" || String.eqb subCommand "ls").
    { apply (asksDirectory_bind 2 0); [apply asksDirectory_ListProxies|].
      intros _. apply asksDirectory_ret. }
    destruct (String.eqb subCommand "best"); cbn [orb].
    { apply (asksDirectory_bind 1 0); [apply asksDirectory_GetBestProxy|].
      intros _. apply asksDirectory_ret. }
    destruct (String.eqb subCommand "update").
    { apply (asksDirectory_bind 0 1); [apply asksDirectory_ClearCache|].
      intros _. apply (asksDirectory_bind 1 0); [apply asksDirectory_GetProxies|].
      intros _. apply asksDirectory_ret. }
    destruct (String.eqb subCommand "clear").
    { apply (asksDirectory_bind 0 0); [apply asksDirectory_ClearCache|].
      intros _. apply asksDirectory_ret. }
    apply asksDirectory_ret.
Qed.


(* ================================================================== *)
(** * Facts about the module manager *)
(* ================================================================== *)

Section PropertiesFiles.
Import Rmmd.

Variable Y : Sys.

Lemma SplitByte_cons (s : string) (sep : ascii) :
  exists piece pieces, SplitByte s sep = piece :: pieces.
Proof.
  pose proof (SplitByte_length s sep) as H.
  destruct (SplitByte s sep) as [|piece pieces]; [discriminate | eauto].
Qed.

Lemma SplitByte_join (a b : string) (sep : ascii) :
  SplitByte (a ++ String sep b) sep = (SplitByte a sep ++ SplitByte b sep)%list.
Proof.
  induction a as [|d a IH]; simpl.
  - now rewrite Ascii.eqb_refl.
  - destruct (Ascii.eqb d sep); [now rewrite IH|].
    rewrite IH. destruct (SplitByte_cons a sep) as (piece & pieces & ->).
    reflexivity.
Qed.

Lemma SplitN2_absent (s : string) (sep : ascii) :
  count_byte sep s = 0%nat -> SplitN2 s sep = [s].
Proof.
  induction s as [|d s IH]; simpl; [reflexivity|].
  destruct (Ascii.eqb d sep); [discriminate|]. intros H. now rewrite IH.
Qed.

Lemma SplitN2_first (key value : string) (sep : ascii) :
  count_byte sep key = 0%nat ->
  SplitN2 (key ++ String sep value) sep = [key; value].
Proof.
  induction key as [|d key IH]; simpl.
  - intros _. now rewrite Ascii.eqb_refl.
  - destruct (Ascii.eqb d sep); [discriminate|]. intros H. now rewrite IH.
Qed.

Lemma parseLines_app (l1 l2 : list string) (props : Props) :
  parseLines Y (l1 ++ l2) props = parseLines Y l2 (parseLines Y l1 props).
Proof.
  revert props. induction l1 as [|line l1 IH]; intros props; simpl; [reflexivity|].
  destruct (_ || _); [apply IH|].
  destruct (SplitN2 _ _) as [|key [|value [|? ?]]]; apply IH.
Qed.

Lemma parseLines_over (l : list string) (props : Props) (k : string) :
  parseLines Y l props k =
  match parseLines Y l props_empty k with
  | Some value => Some value
  | None => props k
  end.
Proof.
  revert props. induction l as [|line l IH]; intros props; simpl; [reflexivity|].
  destruct (_ || _); [apply IH|].
  destruct (SplitN2 _ _) as [|key [|value [|? ?]]]; try apply IH.
  rewrite IH. rewrite (IH (props_set _ _ props_empty)).
  destruct (parseLines Y l props_empty k); [reflexivity|].
  unfold props_set, props_empty. now destruct (String.eqb k _).
Qed.

Lemma parseProperties_join (c1 c2 : string) (k : string) :
  parseProperties Y (c1 ++ String newline c2) k =
  match parseProperties Y c2 k with
  | Some value => Some value
  | None => parseProperties Y c1 k
  end.
Proof.
  unfold parseProperties. rewrite SplitByte_join, parseLines_app.
  apply parseLines_over.
Qed.

Lemma parseProperties_one_line (line : string) :
  count_byte newline line = 0%nat ->
  parseProperties Y line = parseLines Y [line] props_empty.
Proof. intros H. unfold parseProperties. now rewrite SplitByte_absent. Qed.

End PropertiesFiles.

(** X17: In a properties file a later line wins: the value
    [parseProperties] gives a key in [c1] followed by a line break and [c2]
    is the value it has in [c2], and the value it has in [c1] only when [c2]
    does not set the key. *)
Theorem parseProperties_later_line_wins (Y : Rmmd.Sys) (c1 c2 key : string) :
  Rmmd.parseProperties Y (c1 ++ String Rmmd.newline c2) key =
  match Rmmd.parseProperties Y c2 key with
  | Some value => Some value
  | None => Rmmd.parseProperties Y c1 key
  end.
Proof. apply parseProperties_join. Qed.

(** X18: A line whose trimmed text is [key=value], with no [=] in [key]
    and no [#] in front, sets the trimmed key to the trimmed value and
    nothing else: the line is split at its first [=], so the value may
    contain more of them. *)
Theorem parseProperties_line (Y : Rmmd.Sys) (line key value : string) :
  count_byte Rmmd.newline line = 0%nat ->
  Rmmd.strings_TrimSpace Y line = key ++ String "=" value ->
  count_byte "=" key = 0%nat ->
  HasPrefix (Rmmd.strings_TrimSpace Y line) "#" = false ->
  forall k,
    Rmmd.parseProperties Y line k =
    if String.eqb k (Rmmd.strings_TrimSpace Y key)
    then Some (Rmmd.strings_TrimSpace Y value) else None.
Proof.
  intros Hline Htrim Hkey Hcomment k.
  rewrite parseProperties_one_line by assumption. simpl.
  rewrite Hcomment. rewrite Htrim.
  replace (String.eqb (key ++ String "=" value) "") with false
    by (now destruct key).
  simpl. rewrite (SplitN2_first key value "=" Hkey). reflexivity.
Qed.

Lemma parseProperties_line_witness :
  Rmmd.parseProperties (Rmmd.phone [] [] [] "") "  description = a=b  " "description"
  = Some "a=b".
Proof.
  apply (parseProperties_line (Rmmd.phone [] [] [] "")
           "  description = a=b  " "description " " a=b" eq_refl eq_refl eq_refl eq_refl
           "description").
Defined.

(** X19: Blank lines, comment lines and lines without [=] change
    nothing: with such a line between [c1] and [c2], every key reads as in
    [c1] followed directly by [c2]. *)
Theorem parseProperties_ignores (Y : Rmmd.Sys) (line c1 c2 key : string) :
  count_byte Rmmd.newline line = 0%nat ->
  Rmmd.strings_TrimSpace Y line = ""
  \/ HasPrefix (Rmmd.strings_TrimSpace Y line) "#" = true
  \/ count_byte "=" (Rmmd.strings_TrimSpace Y line) = 0%nat ->
  Rmmd.parseProperties Y
    (c1 ++ String Rmmd.newline (line ++ String Rmmd.newline c2)) key
  = Rmmd.parseProperties Y (c1 ++ String Rmmd.newline c2) key.
Proof.
  intros Hline Hskip.
  rewrite !parseProperties_join.
  destruct (Rmmd.parseProperties Y c2 key); [reflexivity|].
  rewrite parseProperties_one_line by assumption. simpl.
  destruct Hskip as [H | [H | H]].
  - now rewrite H.
  - rewrite H. now rewrite Bool.orb_true_r.
  - destruct (_ || _); [reflexivity|]. now rewrite (SplitN2_absent _ _ H).
Qed.

Lemma parseProperties_ignores_witness :
  Rmmd.parseProperties (Rmmd.phone [] [] [] "")
    ("id=demo" ++ String Rmmd.newline ("# id=other" ++ String Rmmd.newline "name=Demo")) "id"
  = Rmmd.parseProperties (Rmmd.phone [] [] [] "")
      ("id=demo" ++ String Rmmd.newline "name=Demo") "id".
Proof.
  apply (parseProperties_ignores (Rmmd.phone [] [] [] "") "# id=other" "id=demo"
           "name=Demo" "id" eq_refl).
  right. left. reflexivity.
Defined.

Section QuietSteps.
Import Rmmd.

Variable E : Env.
Variable Y : Sys.

Lemma runs_app (h l : list Call) : runs (h ++ l) = (runs h ++ runs l)%list.
Proof. apply flat_map_app. Qed.

Lemma quiet_ret {A : Type} (a : A) : quiet (rret a).
Proof. intros h. reflexivity. Qed.

Lemma quiet_bind {A B : Type} (m : R A) (k : A -> R B) :
  quiet m -> (forall a, quiet (k a)) -> quiet (rbind m k).
Proof.
  intros Hm Hk h. unfold rbind. specialize (Hm h).
  destruct (m h) as [a h1]. cbn [snd] in *. now rewrite Hk.
Qed.

Lemma quiet_Stat (path : string) : quiet (os_Stat Y path).
Proof. intros h. cbn. rewrite runs_app. cbn. apply app_nil_r. Qed.

Lemma quiet_ReadDir (path : string) : quiet (os_ReadDir Y path).
Proof. intros h. cbn. rewrite runs_app. cbn. apply app_nil_r. Qed.

Lemma quiet_ReadFile (path : string) : quiet (os_ReadFile Y path).
Proof. intros h. cbn. rewrite runs_app. cbn. apply app_nil_r. Qed.

Lemma exec_Run_runs (name : string) (args : list string) (h : list Call) :
  runs (snd (exec_Run Y name args h)) = (runs h ++ [(name, args)])%list.
Proof. cbn. now rewrite runs_app. Qed.

Lemma quiet_dirExists (path : string) : quiet (dirExists E Y path).
Proof.
  unfold dirExists. destruct (skippedOffAndroid E path); [apply quiet_ret|].
  apply quiet_bind; [apply quiet_Stat|]. intros []; apply quiet_ret.
Qed.

Lemma quiet_RMMD_fileExists (path : string) : quiet (RMMD_fileExists E Y path).
Proof.
  unfold RMMD_fileExists. destruct (skippedOffAndroid E path); [apply quiet_ret|].
  apply quiet_bind; [apply quiet_Stat|]. intros []; apply quiet_ret.
Qed.

Lemma quiet_fileExists (path : string) : quiet (fileExists Y path).
Proof.
  unfold fileExists.
  apply quiet_bind; [apply quiet_Stat|]. intros []; apply quiet_ret.
Qed.

Lemma quiet_detectRootEnvironment : quiet (detectRootEnvironment E Y).
Proof.
  unfold detectRootEnvironment.
  repeat (apply quiet_bind; [apply quiet_dirExists|];
          intros []; [apply quiet_ret|]).
  apply quiet_ret.
Qed.

Lemma quiet_parseMagiskModule (moduleID modulePath : string) :
  quiet (parseMagiskModule E Y moduleID modulePath).
Proof.
  unfold parseMagiskModule.
  apply quiet_bind; [apply quiet_RMMD_fileExists|].
  intros []; cbn [negb]; [|apply quiet_ret].
  apply quiet_bind; [apply quiet_ReadFile|].
  intros [content|]; [|apply quiet_ret].
  apply quiet_bind; [apply quiet_RMMD_fileExists|].
  intros disabled. apply quiet_ret.
Qed.

Lemma quiet_listEntries (modulesDir : string) (entries : list DirEntry) :
  forall modules, quiet (listEntries E Y modulesDir entries modules).
Proof.
  induction entries as [|entry entries IH]; intros modules; cbn [listEntries].
  - apply quiet_ret.
  - destruct (negb (entryIsDir entry)); [apply IH|].
    destruct (_ || _); [apply IH|].
    apply quiet_bind; [apply quiet_parseMagiskModule|].
    intros [moduleInfo|e]; apply IH.
Qed.

Lemma quiet_listMagiskModules : quiet (listMagiskModules E Y).
Proof.
  unfold listMagiskModules.
  apply quiet_bind; [apply quiet_dirExists|].
  intros []; cbn [negb]; [|apply quiet_ret].
  apply quiet_bind; [apply quiet_ReadDir|].
  intros [entries|]; [|apply quiet_ret].
  apply quiet_bind; [apply quiet_listEntries|].
  intros modules. apply quiet_ret.
Qed.

(** What [detectRootEnvironment] can return. *)
Lemma detectRootEnvironment_cases (h : list Call) :
  let r := fst (detectRootEnvironment E Y h) in
  r = {| rootEnv := RootMagisk; binaryPath := "/data/adb/magisk/magisk" |}
  \/ r = {| rootEnv := RootAPatch; binaryPath := "/data/adb/apd" |}
  \/ r = {| rootEnv := RootKernelSU; binaryPath := "/data/adb/ksud" |}
  \/ r = {| rootEnv := RootUnknown; binaryPath := "" |}.
Proof.
  unfold detectRootEnvironment, rbind.
  destruct (dirExists E Y "/data/adb/magisk" h) as [[] h1]; cbn; auto.
  destruct (dirExists E Y "/data/adb/ap" h1) as [[] h2]; cbn; auto.
  destruct (dirExists E Y "/data/adb/ksu" h2) as [[] h3]; cbn; auto.
Qed.

Lemma InstallModule_runs (r : RMMD) (zipPath : string) (h : list Call) :
  let h' := snd (InstallModule E Y r zipPath h) in
  runs h' = runs h
  \/ exists absPath,
       rootEnv r <> RootUnknown
       /\ filepath_Abs Y zipPath = Some absPath
       /\ runs h' = (runs h ++ [(binaryPath r, installArgs r absPath)])%list.
Proof.
  assert (Hgo : forall h,
    let h' := snd ((rbind (RMMD_fileExists E Y (binaryPath r)) (fun there =>
        if negb there then rret (Err (ErrBinaryMissing (binaryPath r)))
        else
          match filepath_Abs Y zipPath with
          | None => rret (Err ErrAbs)
          | Some absPath =>
              rbind (exec_Run Y (binaryPath r) (installArgs r absPath)) (fun ran =>
                match ran with
                | None => rret (Err ErrInstallFailed)
                | Some _ => rret (Ok tt)
                end)
          end)) h) in
    runs h' = runs h
    \/ exists absPath,
         filepath_Abs Y zipPath = Some absPath
         /\ runs h' = (runs h ++ [(binaryPath r, installArgs r absPath)])%list).
  { intros h0. unfold rbind.
    pose proof (quiet_RMMD_fileExists (binaryPath r) h0) as Hq.
    destruct (RMMD_fileExists E Y (binaryPath r) h0) as [[] h1]; cbn [snd negb] in *;
      [|now left].
    destruct (filepath_Abs Y zipPath) as [absPath|]; [|now left].
    right. exists absPath. split; [reflexivity|].
    pose proof (exec_Run_runs (binaryPath r) (installArgs r absPath) h1) as Hr.
    destruct (exec_Run Y (binaryPath r) (installArgs r absPath) h1) as [[out|] h2];
      unfold rret; cbn [snd] in *; now rewrite Hr, Hq. }
  unfold InstallModule.
  destruct (rootEnv r) eqn:Henv; [now left| | |];
    (destruct (Hgo h) as [H | (absPath & Habs & H)];
     unfold installArgs in *; rewrite Henv in *;
     [left; exact H | right; exists absPath; repeat split; [discriminate | exact Habs | exact H]]).
Qed.

Lemma PrintModuleList_snd (r : RMMD) (h : list Call) :
  snd (PrintModuleList E Y r h) = snd (ListModules E Y r h).
Proof.
  unfold PrintModuleList, rbind.
  now destruct (ListModules E Y r h) as [[modules|e] h1].
Qed.

Lemma listModulesViaCommand_runs (r : RMMD) (args : list string) (h : list Call) :
  let h' := snd (listModulesViaCommand E Y r args h) in
  runs h' = runs h \/ runs h' = (runs h ++ [(binaryPath r, args)])%list.
Proof.
  unfold listModulesViaCommand, rbind.
  pose proof (quiet_RMMD_fileExists (binaryPath r) h) as Hq.
  destruct (RMMD_fileExists E Y (binaryPath r) h) as [[] h1]; cbn [snd negb] in *;
    [|now left].
  right.
  pose proof (exec_Run_runs (binaryPath r) args h1) as Hr.
  destruct (exec_Run Y (binaryPath r) args h1) as [[output|] h2];
    unfold rret; cbn [snd] in *; [|now rewrite Hr, Hq].
  destruct (json_UnmarshalModules Y output); cbn [snd]; now rewrite Hr, Hq.
Qed.

(** Off Android nothing under [/data/adb/] is looked at. *)
Lemma detectRootEnvironment_off_android (h : list Call) :
  runtime_GOOS E <> "android" ->
  detectRootEnvironment E Y h = ({| rootEnv := RootUnknown; binaryPath := "" |}, h).
Proof.
  intros Hos. apply String.eqb_neq in Hos.
  unfold detectRootEnvironment, rbind, dirExists, skippedOffAndroid.
  rewrite Hos. reflexivity.
Qed.

End QuietSteps.

(** X20: [installModule] starts at most one program, and never anything
    but the install command of one of the three root managers, for the
    archive path made absolute twice (once by [installModule], once by
    [InstallModule]). *)
Theorem installModule_runs (E : Env) (Y : Rmmd.Sys) (zipFile : string)
    (h : list Rmmd.Call) :
  Rmmd.runs (snd (Rmmd.installModule E Y zipFile h)) = Rmmd.runs h
  \/ exists absPath absPath' command,
       Rmmd.filepath_Abs Y zipFile = Some absPath
       /\ Rmmd.filepath_Abs Y absPath = Some absPath'
       /\ In command (Rmmd.installCommands absPath')
       /\ Rmmd.runs (snd (Rmmd.installModule E Y zipFile h))
          = (Rmmd.runs h ++ [command])%list.
Proof.
  unfold Rmmd.installModule, Rmmd.rbind.
  pose proof (quiet_fileExists Y zipFile h) as Hq.
  destruct (Rmmd.fileExists Y zipFile h) as [[] h1]; cbn [snd negb] in *;
    [|now left].
  destruct (Rmmd.filepath_Abs Y zipFile) as [absPath|] eqn:Habs; [|now left].
  unfold Rmmd.installModuleWithBuiltinInstaller, Rmmd.NewRMMD, Rmmd.rbind.
  pose proof (quiet_detectRootEnvironment E Y h1) as Hd.
  pose proof (detectRootEnvironment_cases E Y h1) as Hcases.
  destruct (Rmmd.detectRootEnvironment E Y h1) as [r h2]; cbn [fst snd] in *.
  pose proof (InstallModule_runs E Y r absPath h2) as Hi.
  destruct (Rmmd.InstallModule E Y r absPath h2) as [res h3]; cbn [snd] in *.
  unfold Rmmd.rret; cbn [snd].
  destruct Hi as [Hi | (absPath' & Hknown & Habs' & Hi)].
  - left. now rewrite Hi, Hd.
  - right. exists absPath, absPath', (Rmmd.binaryPath r, Rmmd.installArgs r absPath').
    split; [reflexivity|]. split; [exact Habs'|].
    split; [|now rewrite Hi, Hd, Hq].
    destruct Hcases as [-> | [-> | [-> | ->]]]; cbn; auto.
Qed.

(** X21: Off Android no root manager is detected, and the file system is
    not asked: installing and listing fail with the error of an unknown
    root environment, and no module command starts a program. *)
Theorem module_commands_off_android (E : Env) (Y : Rmmd.Sys)
    (args : list string) (zipPath : string) (h : list Rmmd.Call) :
  runtime_GOOS E <> "android" ->
  Rmmd.NewRMMD E Y h
    = ({| Rmmd.rootEnv := Rmmd.RootUnknown; Rmmd.binaryPath := "" |}, h)
  /\ Rmmd.installModuleWithBuiltinInstaller E Y zipPath h
     = (Rmmd.Err Rmmd.ErrNoRootEnvironment, h)
  /\ Rmmd.listModules E Y h = (tt, h)
  /\ Rmmd.runs (snd (Rmmd.handleModuleCommand E Y args h)) = Rmmd.runs h.
Proof.
  intros Hos.
  assert (Hnew : forall h0, Rmmd.NewRMMD E Y h0
    = ({| Rmmd.rootEnv := Rmmd.RootUnknown; Rmmd.binaryPath := "" |}, h0))
    by (intros h0; now apply detectRootEnvironment_off_android).
  assert (Hinstall : forall zip h0,
    Rmmd.installModuleWithBuiltinInstaller E Y zip h0
    = (Rmmd.Err Rmmd.ErrNoRootEnvironment, h0)).
  { intros zip h0. unfold Rmmd.installModuleWithBuiltinInstaller, Rmmd.rbind.
    now rewrite Hnew. }
  assert (Hlist : forall h0, Rmmd.listModules E Y h0 = (tt, h0)).
  { intros h0. unfold Rmmd.listModules, Rmmd.rbind. now rewrite Hnew. }
  repeat split; auto.
  unfold Rmmd.handleModuleCommand.
  destruct args as [|subCommand rest]; [reflexivity|].
  destruct (String.eqb subCommand "install").
  - destruct rest as [|zipFile rest]; [reflexivity|].
    unfold Rmmd.installModule, Rmmd.rbind.
    pose proof (quiet_fileExists Y zipFile h) as Hq.
    destruct (Rmmd.fileExists Y zipFile h) as [[] h1]; cbn [snd negb] in *;
      [|exact Hq].
    destruct (Rmmd.filepath_Abs Y zipFile) as [absPath|]; [|exact Hq].
    now rewrite Hinstall.
  - destruct (String.eqb subCommand "list"); [|reflexivity].
    now rewrite Hlist.
Qed.

Lemma module_commands_off_android_witness :
  Rmmd.listModules Rmmd.desktop
    (Rmmd.phone ["/data/adb/magisk"] ["/data/adb/magisk/magisk"] [] "") []
  = (tt, []).
Proof.
  apply (module_commands_off_android Rmmd.desktop
           (Rmmd.phone ["/data/adb/magisk"] ["/data/adb/magisk/magisk"] [] "")
           ["list"] "m.zip" []).
  discriminate.
Defined.

Section StableFileSystem.
Import Rmmd.

Variable E : Env.
Variable Y : Sys.
Variable stat : string -> FileInfo.
Hypothesis Handroid : runtime_GOOS E = "android".
Hypothesis Hstable : forall h path, sys_Stat Y h path = stat path.

Lemma dirExists_stable (path : string) (h : list Call) :
  dirExists E Y path h
  = (match stat path with StatDir => true | _ => false end,
     (h ++ [CallStat path])%list).
Proof.
  unfold dirExists, skippedOffAndroid. rewrite Handroid.
  change (String.eqb "android" "android") with true. cbn [negb andb].
  unfold rbind, os_Stat. cbv beta. rewrite Hstable. now destruct (stat path).
Qed.

Lemma RMMD_fileExists_stable (path : string) (h : list Call) :
  RMMD_fileExists E Y path h
  = (match stat path with StatNoEntry => false | _ => true end,
     (h ++ [CallStat path])%list).
Proof.
  unfold RMMD_fileExists, skippedOffAndroid. rewrite Handroid.
  change (String.eqb "android" "android") with true. cbn [negb andb].
  unfold rbind, os_Stat. cbv beta. rewrite Hstable. now destruct (stat path).
Qed.

Lemma fileExists_stable (path : string) (h : list Call) :
  fileExists Y path h
  = (match stat path with StatNoEntry => false | _ => true end,
     (h ++ [CallStat path])%list).
Proof.
  unfold fileExists, rbind, os_Stat. cbv beta. rewrite Hstable.
  now destruct (stat path).
Qed.

Lemma InstallModule_stable (r : RMMD) (zipPath absPath : string) (h : list Call) :
  rootEnv r <> RootUnknown ->
  stat (binaryPath r) <> StatNoEntry ->
  filepath_Abs Y zipPath = Some absPath ->
  runs (snd (InstallModule E Y r zipPath h))
  = (runs h ++ [(binaryPath r, installArgs r absPath)])%list.
Proof.
  intros Hknown Hbin Habs.
  assert (Hgo : runs (snd ((rbind (RMMD_fileExists E Y (binaryPath r)) (fun there =>
        if negb there then rret (Err (ErrBinaryMissing (binaryPath r)))
        else
          match filepath_Abs Y zipPath with
          | None => rret (Err ErrAbs)
          | Some absPath =>
              rbind (exec_Run Y (binaryPath r) (installArgs r absPath)) (fun ran =>
                match ran with
                | None => rret (Err ErrInstallFailed)
                | Some _ => rret (Ok tt)
                end)
          end)) h))
      = (runs h ++ [(binaryPath r, installArgs r absPath)])%list).
  { unfold rbind. rewrite RMMD_fileExists_stable.
    destruct (stat (binaryPath r)); [congruence| | |]; cbn [negb];
      rewrite Habs;
      pose proof (exec_Run_runs Y (binaryPath r) (installArgs r absPath)
                    (h ++ [CallStat (binaryPath r)])%list) as Hr;
      rewrite (quiet_Stat Y (binaryPath r) h : runs (h ++ [_]) = _) in Hr;
      destruct (exec_Run Y _ _ _) as [[out|] h2]; exact Hr. }
  unfold InstallModule, installArgs in *.
  destruct (rootEnv r); [congruence | exact Hgo ..].
Qed.

Let isDir (info : FileInfo) : bool :=
  match info with StatDir => true | _ => false end.

Lemma detectRootEnvironment_stable (h : list Call) :
  detectRootEnvironment E Y h =
  if isDir (stat "/data/adb/magisk")
  then ({| rootEnv := RootMagisk; binaryPath := "/data/adb/magisk/magisk" |},
        (h ++ [CallStat "/data/adb/magisk"])%list)
  else if isDir (stat "/data/adb/ap")
  then ({| rootEnv := RootAPatch; binaryPath := "/data/adb/apd" |},
        ((h ++ [CallStat "/data/adb/magisk"]) ++ [CallStat "/data/adb/ap"])%list)
  else if isDir (stat "/data/adb/ksu")
  then ({| rootEnv := RootKernelSU; binaryPath := "/data/adb/ksud" |},
        (((h ++ [CallStat "/data/adb/magisk"]) ++ [CallStat "/data/adb/ap"])
           ++ [CallStat "/data/adb/ksu"])%list)
  else ({| rootEnv := RootUnknown; binaryPath := "" |},
        (((h ++ [CallStat "/data/adb/magisk"]) ++ [CallStat "/data/adb/ap"])
           ++ [CallStat "/data/adb/ksu"])%list).
Proof.
  unfold detectRootEnvironment, rbind. rewrite dirExists_stable.
  fold (isDir (stat "/data/adb/magisk")).
  destruct (isDir (stat "/data/adb/magisk")); [reflexivity|].
  rewrite dirExists_stable. fold (isDir (stat "/data/adb/ap")).
  destruct (isDir (stat "/data/adb/ap")); [reflexivity|].
  rewrite dirExists_stable. fold (isDir (stat "/data/adb/ksu")).
  now destruct (isDir (stat "/data/adb/ksu")).
Qed.

Lemma isDir_true (info : FileInfo) : info = StatDir -> isDir info = true.
Proof. now intros ->. Qed.

Lemma isDir_false (info : FileInfo) : info <> StatDir -> isDir info = false.
Proof. destruct info; [reflexivity | reflexivity | congruence | reflexivity]. Qed.

Lemma installModule_stable (zipFile absPath : string) (h : list Call) :
  stat zipFile <> StatNoEntry ->
  filepath_Abs Y zipFile = Some absPath ->
  snd (installModule E Y zipFile h)
  = snd (InstallModule E Y
           (fst (detectRootEnvironment E Y (h ++ [CallStat zipFile])%list)) absPath
           (snd (detectRootEnvironment E Y (h ++ [CallStat zipFile])%list))).
Proof.
  intros Hzip Habs. unfold installModule. unfold rbind at 1.
  rewrite fileExists_stable.
  replace (negb match stat zipFile with StatNoEntry => false | _ => true end)
    with false by (destruct (stat zipFile); [congruence | reflexivity ..]).
  rewrite Habs.
  unfold rbind, installModuleWithBuiltinInstaller, NewRMMD, rbind.
  destruct (detectRootEnvironment E Y _) as [r h2]. cbn [fst snd].
  now destruct (InstallModule E Y r absPath h2).
Qed.

Lemma runs_stat (h : list Call) (path : string) :
  runs (h ++ [CallStat path]) = runs h.
Proof. rewrite runs_app. apply app_nil_r. Qed.

End StableFileSystem.

(** X22: On an Android device whose file system holds still, the archive
    exists and both calls of [filepath.Abs] succeed: Magisk is used when
    [/data/adb/magisk] is a directory, whatever else is installed; APatch
    only when it is not; KernelSU only when neither is there.  In each case
    exactly the manager's install command is started, if its program
    exists. *)
Theorem installModule_priority (E : Env) (Y : Rmmd.Sys)
    (stat : string -> Rmmd.FileInfo) (zipFile absPath absPath' : string)
    (h : list Rmmd.Call) :
  runtime_GOOS E = "android" ->
  (forall h path, Rmmd.sys_Stat Y h path = stat path) ->
  stat zipFile <> Rmmd.StatNoEntry ->
  Rmmd.filepath_Abs Y zipFile = Some absPath ->
  Rmmd.filepath_Abs Y absPath = Some absPath' ->
  (stat "/data/adb/magisk" = Rmmd.StatDir ->
   stat "/data/adb/magisk/magisk" <> Rmmd.StatNoEntry ->
   Rmmd.runs (snd (Rmmd.installModule E Y zipFile h))
   = (Rmmd.runs h ++ [("/data/adb/magisk/magisk", ["--install-module"; absPath'])])%list)
  /\ (stat "/data/adb/magisk" <> Rmmd.StatDir ->
      stat "/data/adb/ap" = Rmmd.StatDir ->
      stat "/data/adb/apd" <> Rmmd.StatNoEntry ->
      Rmmd.runs (snd (Rmmd.installModule E Y zipFile h))
      = (Rmmd.runs h ++ [("/data/adb/apd", ["module"; "install"; absPath'])])%list)
  /\ (stat "/data/adb/magisk" <> Rmmd.StatDir ->
      stat "/data/adb/ap" <> Rmmd.StatDir ->
      stat "/data/adb/ksu" = Rmmd.StatDir ->
      stat "/data/adb/ksud" <> Rmmd.StatNoEntry ->
      Rmmd.runs (snd (Rmmd.installModule E Y zipFile h))
      = (Rmmd.runs h ++ [("/data/adb/ksud", ["module"; "install"; absPath'])])%list)
  /\ (stat "/data/adb/magisk" <> Rmmd.StatDir ->
      stat "/data/adb/ap" <> Rmmd.StatDir ->
      stat "/data/adb/ksu" <> Rmmd.StatDir ->
      Rmmd.runs (snd (Rmmd.installModule E Y zipFile h)) = Rmmd.runs h).
Proof.
  intros Handroid Hstable Hzip Habs Habs'.
  rewrite (installModule_stable E Y stat Hstable zipFile absPath h Hzip Habs).
  rewrite (detectRootEnvironment_stable E Y stat Handroid Hstable).
  split; [|split; [|split]].
  - intros Hm Hbin. rewrite (isDir_true _ Hm). cbn [fst snd].
    rewrite (InstallModule_stable E Y stat Handroid Hstable _ absPath absPath');
      [|discriminate | exact Hbin | exact Habs'].
    now rewrite !runs_stat.
  - intros Hm Ha Hbin. rewrite (isDir_false _ Hm), (isDir_true _ Ha). cbn [fst snd].
    rewrite (InstallModule_stable E Y stat Handroid Hstable _ absPath absPath');
      [|discriminate | exact Hbin | exact Habs'].
    now rewrite !runs_stat.
  - intros Hm Ha Hk Hbin.
    rewrite (isDir_false _ Hm), (isDir_false _ Ha), (isDir_true _ Hk). cbn [fst snd].
    rewrite (InstallModule_stable E Y stat Handroid Hstable _ absPath absPath');
      [|discriminate | exact Hbin | exact Habs'].
    now rewrite !runs_stat.
  - intros Hm Ha Hk.
    rewrite (isDir_false _ Hm), (isDir_false _ Ha), (isDir_false _ Hk). cbn [fst snd].
    unfold Rmmd.InstallModule. cbn. now rewrite !runs_stat.
Qed.

Lemma installModule_priority_witness :
  Rmmd.runs (snd (Rmmd.installModule Rmmd.android
    (Rmmd.phone ["/data/adb/magisk"; "/data/adb/ap"; "/data/adb/ksu"]
       ["/data/adb/magisk/magisk"; "/data/adb/apd"; "/data/adb/ksud"; "m.zip"] [] "")
    "m.zip" []))
  = [("/data/adb/magisk/magisk", ["--install-module"; "/sdcard/m.zip"])].
Proof.
  refine (proj1 (installModule_priority Rmmd.android
    (Rmmd.phone ["/data/adb/magisk"; "/data/adb/ap"; "/data/adb/ksu"]
       ["/data/adb/magisk/magisk"; "/data/adb/apd"; "/data/adb/ksud"; "m.zip"] [] "")
    (Rmmd.sys_Stat (Rmmd.phone ["/data/adb/magisk"; "/data/adb/ap"; "/data/adb/ksu"]
       ["/data/adb/magisk/magisk"; "/data/adb/apd"; "/data/adb/ksud"; "m.zip"] [] "") [])
    "m.zip" "/sdcard/m.zip" "/sdcard/m.zip" [] eq_refl (fun _ _ => eq_refl) _ eq_refl eq_refl)
    eq_refl _); discriminate.
Defined.

Section Listing.
Import Rmmd.

Variable E : Env.
Variable Y : Sys.

Lemma parseMagiskModule_ok (moduleID modulePath : string) (h h' : list Call)
    (m : ModuleInfo) :
  parseMagiskModule E Y moduleID modulePath h = (Ok m, h') ->
  ID m = moduleID /\ wellFormed m.
Proof.
  unfold parseMagiskModule, rbind.
  destruct (RMMD_fileExists E Y _ h) as [[] h1]; cbn [negb]; [|discriminate].
  destruct (os_ReadFile Y _ h1) as [[content|] h2]; [|discriminate].
  destruct (RMMD_fileExists E Y _ h2) as [disabled h3].
  unfold rret. intros H. injection H as <- _.
  unfold wellFormed. cbn [ID DirID Enabled Update UpdateJSON Web Action Remove].
  split; [reflexivity|]. split; [reflexivity|].
  split; [destruct disabled; auto|].
  destruct (String.eqb_spec (props_get (parseProperties Y content) "updateJson") "")
    as [Hu | Hu].
  - repeat split; auto; try discriminate; congruence.
  - repeat split; auto; try discriminate; congruence.
Qed.

Lemma reported_more (entry : DirEntry) (entries : list DirEntry) (l : list ModuleInfo) :
  Forall (reported entries) l -> Forall (reported (entry :: entries)) l.
Proof.
  apply Forall_impl. intros m (Hw & Hin & Hrest). split; [exact Hw|].
  split; [now right | exact Hrest].
Qed.

Lemma listEntries_reports (modulesDir : string) (entries : list DirEntry) :
  forall modules h listed h',
    listEntries E Y modulesDir entries modules h = (listed, h') ->
    exists new,
      listed = (modules ++ new)%list
      /\ Forall (reported entries) new
      /\ (List.length new <= List.length (filter visible entries))%nat.
Proof.
  induction entries as [|entry entries IH]; intros modules h listed h';
    cbn [listEntries].
  - unfold rret. intros H. injection H as <- _. exists []. rewrite app_nil_r.
    repeat split; auto.
  - assert (Hskip : forall h0,
      listEntries E Y modulesDir entries modules h0 = (listed, h') ->
      exists new, listed = (modules ++ new)%list
        /\ Forall (reported (entry :: entries)) new
        /\ (List.length new <= List.length (filter visible (entry :: entries)))%nat).
    { intros h0 H. destruct (IH _ _ _ _ H) as (new & -> & Hall & Hlen).
      exists new. split; [reflexivity|]. split; [now apply reported_more|].
      cbn [filter]. destruct (visible entry); cbn [List.length]; lia. }
    destruct entry as [name isDir]. cbn [entryIsDir entryName] in *.
    destruct isDir; cbn [negb andb]; [|apply Hskip].
    destruct (String.eqb name "lost+found" || HasPrefix name ".") eqn:Hhidden;
      [apply Hskip|].
    unfold rbind.
    destruct (parseMagiskModule E Y name _ h) as [[m|e] h1] eqn:Hparse;
      [|apply Hskip].
    intros H. destruct (IH _ _ _ _ H) as (new & -> & Hall & Hlen).
    destruct (parseMagiskModule_ok _ _ _ _ _ Hparse) as [Hid Hw].
    exists (m :: new). rewrite <- app_assoc. split; [reflexivity|].
    assert (Hvisible : visible {| entryName := name; entryIsDir := true |} = true)
      by (unfold visible; cbn [entryIsDir entryName andb]; now rewrite Hhidden).
    apply Bool.orb_false_iff in Hhidden. destruct Hhidden as [Hlost Hdot].
    split.
    + constructor; [|now apply reported_more].
      rewrite <- Hid in *. split; [exact Hw|]. split; [now left|].
      split; [now apply String.eqb_neq | exact Hdot].
    + cbn [filter]. rewrite Hvisible. cbn [List.length]. lia.
Qed.

End Listing.

(** X23: Every module [listMagiskModules] reports is named after a
    directory of [/data/adb/modules] that is neither [lost+found] nor
    hidden, and carries the fixed fields: [dir_id] equal to [id],
    [enabled] one of the two words, [update] true exactly when
    [updateJson] is set.  No more modules are reported than there are such
    directories. *)
Theorem listMagiskModules_reports (E : Env) (Y : Rmmd.Sys)
    (h h' : list Rmmd.Call) (modules : list Rmmd.ModuleInfo) :
  Rmmd.listMagiskModules E Y h = (Rmmd.Ok modules, h') ->
  exists entries,
    Rmmd.sys_ReadDir Y (h ++ [Rmmd.CallStat "/data/adb/modules"])%list
      "/data/adb/modules" = Some entries
    /\ Forall (Rmmd.reported entries) modules
    /\ (List.length modules <= List.length (filter Rmmd.visible entries))%nat.
Proof.
  unfold Rmmd.listMagiskModules, Rmmd.rbind.
  assert (Hdir : snd (Rmmd.dirExists E Y "/data/adb/modules" h)
                 = (h ++ [Rmmd.CallStat "/data/adb/modules"])%list
                 \/ fst (Rmmd.dirExists E Y "/data/adb/modules" h) = false).
  { unfold Rmmd.dirExists. destruct (Rmmd.skippedOffAndroid E _); [now right|].
    left. unfold Rmmd.rbind, Rmmd.os_Stat. now destruct (Rmmd.sys_Stat Y h _). }
  destruct (Rmmd.dirExists E Y "/data/adb/modules" h) as [[] h1]; cbn [negb fst snd] in *;
    [|discriminate].
  destruct Hdir as [-> | Hdir]; [|discriminate].
  unfold Rmmd.os_ReadDir.
  destruct (Rmmd.sys_ReadDir Y _ _) as [entries|]; [|discriminate].
  destruct (Rmmd.listEntries E Y _ entries [] _) as [listed h2] eqn:Hloop.
  unfold Rmmd.rret. intros H. injection H as <- _.
  destruct (listEntries_reports E Y _ _ _ _ _ _ Hloop) as (new & -> & Hall & Hlen).
  exists entries. cbn [app]. auto.
Qed.

Lemma listMagiskModules_reports_witness :
  exists modules h',
    Rmmd.listMagiskModules Rmmd.android Rmmd.magiskPhone [] = (Rmmd.Ok modules, h')
    /\ map Rmmd.Name modules = ["Demo"]
    /\ exists entries,
         Rmmd.sys_ReadDir Rmmd.magiskPhone [Rmmd.CallStat "/data/adb/modules"]
           "/data/adb/modules" = Some entries
         /\ Forall (Rmmd.reported entries) modules
         /\ (List.length modules <= List.length (filter Rmmd.visible entries))%nat.
Proof.
  eexists. eexists. split; [vm_compute; reflexivity|].
  split; [reflexivity|].
  eapply (listMagiskModules_reports Rmmd.android Rmmd.magiskPhone []).
  vm_compute. reflexivity.
Defined.

(** X24: [listMagiskModules] succeeds exactly when the program runs on
    Android, [/data/adb/modules] is a directory and can be read: a module
    whose [module.prop] is missing or unreadable is left out and does not
    make the listing fail. *)
Theorem listMagiskModules_outcome (E : Env) (Y : Rmmd.Sys) (h : list Rmmd.Call) :
  (exists modules, fst (Rmmd.listMagiskModules E Y h) = Rmmd.Ok modules)
  <-> runtime_GOOS E = "android"
      /\ Rmmd.sys_Stat Y h "/data/adb/modules" = Rmmd.StatDir
      /\ Rmmd.sys_ReadDir Y (h ++ [Rmmd.CallStat "/data/adb/modules"])%list
           "/data/adb/modules" <> None.
Proof.
  unfold Rmmd.listMagiskModules, Rmmd.rbind, Rmmd.dirExists, Rmmd.skippedOffAndroid.
  change (HasPrefix "/data/adb/modules" "/data/adb/") with true.
  rewrite Bool.andb_true_r.
  destruct (String.eqb_spec (runtime_GOOS E) "android") as [Hos | Hos]; cbn [negb].
  - unfold Rmmd.rbind, Rmmd.os_Stat, Rmmd.os_ReadDir, Rmmd.rret. cbv beta.
    destruct (Rmmd.sys_Stat Y h "/data/adb/modules"); cbv beta iota; cbn [negb fst];
      try (split; [intros [modules H]; discriminate | intros (_ & H & _); discriminate]).
    destruct (Rmmd.sys_ReadDir Y _ _) as [entries|]; cbv beta iota.
    + destruct (Rmmd.listEntries E Y _ entries [] _) as [listed h2]. cbn [fst].
      split; [intros _; repeat split; auto; discriminate|].
      intros _. now exists listed.
    + split; [intros [modules H]; discriminate | intros (_ & _ & H); now contradiction H].
  - split; [intros [modules H]; discriminate | intros (H & _); contradiction].
Qed.

(** X25: Listing the modules starts at most one program, and only
    [module list] of APatch or KernelSU: on Magisk, and when no root manager
    is found, the list comes from the file system alone. *)
Theorem listModules_runs (E : Env) (Y : Rmmd.Sys) (h : list Rmmd.Call) :
  Rmmd.runs (snd (Rmmd.listModules E Y h)) = Rmmd.runs h
  \/ Rmmd.runs (snd (Rmmd.listModules E Y h))
     = (Rmmd.runs h ++ [("/data/adb/apd", ["module"; "list"])])%list
  \/ Rmmd.runs (snd (Rmmd.listModules E Y h))
     = (Rmmd.runs h ++ [("/data/adb/ksud", ["module"; "list"])])%list.
Proof.
  unfold Rmmd.listModules, Rmmd.NewRMMD, Rmmd.rbind.
  pose proof (quiet_detectRootEnvironment E Y h) as Hd.
  pose proof (detectRootEnvironment_cases E Y h) as Hcases.
  destruct (Rmmd.detectRootEnvironment E Y h) as [r h1]; cbn [fst snd] in *.
  pose proof (PrintModuleList_snd E Y r h1) as Hp.
  destruct (Rmmd.PrintModuleList E Y r h1) as [res h2]; cbn [snd] in *.
  unfold Rmmd.rret; cbn [snd]. subst h2. rewrite <- Hd.
  destruct Hcases as [-> | [-> | [-> | ->]]]; unfold Rmmd.ListModules;
    cbn [Rmmd.rootEnv].
  - left. apply quiet_listMagiskModules.
  - destruct (listModulesViaCommand_runs E Y
      {| Rmmd.rootEnv := Rmmd.RootAPatch; Rmmd.binaryPath := "/data/adb/apd" |}
      ["module"; "list"] h1) as [H | H]; [now left | right; left; exact H].
  - destruct (listModulesViaCommand_runs E Y
      {| Rmmd.rootEnv := Rmmd.RootKernelSU; Rmmd.binaryPath := "/data/adb/ksud" |}
      ["module"; "list"] h1) as [H | H]; [now left | right; right; exact H].
  - now left.
Qed.
